(** * Rubric evaluation engine of [src/video_evaluator.py]

    A shallow embedding of the rubric validator, the transcript chunker,
    the result normalizer, the chunk aggregators and the evaluation
    orchestrator of [VideoEvaluator], with the properties claimed for
    them.

    Conventions of the embedding.
    - Python [int]s are [Z].  Python numbers that may be floats (JSON
      numbers of a scorer response, weights, thresholds, means,
      percentages) are exact rationals [Q]: the typed model computes
      with them exactly, and [Float] gives the doubles where a
      statement depends on them.  [int(...)], [round(...)] and
      [round(..., 1)] are written out ([py_int], [py_round],
      [py_round1]).
    - A [dict] with string keys is a [gmap string _]; a key that may be
      missing from a JSON object is an [option] field, and indexing a
      missing key raises [KeyError].
    - Exceptions are explicit: a function that can raise returns [res].
    - The external scorer (the LLM call together with [json.loads]) is a
      function from the call that is made to [option EvalResult]; [None]
      stands for every way a call can fail (no client, an exception of
      the SDK, an empty answer, text that is not JSON).  [EvalResult]
      holds the answers that have the types for which the prompts ask;
      the normalizer, which also meets the others, is given a second
      time on every value that [json.loads] can return
      ([JsonNormalizer]), with its [try ... except]. *)

From Stdlib Require Import ZArith QArith Qround Qabs String Ascii List Lia
  DecimalString DecimalPos DecimalZ Sorted.
From stdpp Require Import gmap strings list fin_maps.

Open Scope Z_scope.

(** ** Python primitives *)

Module Py.

(** Exceptions that the modelled code can raise. *)
Inductive exn :=
| KeyError (key : string)
| ZeroDivisionError
| RuntimeError (msg : string)
| Diverged.

Inductive res (A : Type) :=
| Ok (a : A)
| Raise (e : exn).
Arguments Ok {A} a.
Arguments Raise {A} e.

Definition bind {A B} (m : res A) (k : A -> res B) : res B :=
  match m with
  | Ok a => k a
  | Raise e => Raise e
  end.

(** [d[key]] on an optional key. *)
Definition getitem {A} (key : string) (o : option A) : res A :=
  match o with
  | Some a => Ok a
  | None => Raise (KeyError key)
  end.

(** [try: body except Exception: handler]. *)
Definition try_except {A} (body : res A) (handler : exn -> res A) : res A :=
  match body with
  | Ok a => Ok a
  | Raise e => handler e
  end.

(** [for x in xs: acc = step(x, acc)], stopping at the first exception. *)
Fixpoint for_each {A S} (xs : list A) (step : A -> S -> res S) (acc : S) : res S :=
  match xs with
  | [] => Ok acc
  | x :: rest => bind (step x acc) (for_each rest step)
  end.

(** A list comprehension whose body can raise. *)
Fixpoint mapM {A B} (f : A -> res B) (xs : list A) : res (list B) :=
  match xs with
  | [] => Ok []
  | x :: rest =>
      bind (f x) (fun y => bind (mapM f rest) (fun ys => Ok (y :: ys)))
  end.

(** [enumerate(xs)] *)
Definition enumerate {A} (xs : list A) : list (Z * A) :=
  combine (map Z.of_nat (seq 0 (length xs))) xs.

(** [d[k] = v] on a dict whose order of insertion matters: a key that
    is present keeps its place. *)
Fixpoint odict_set {A} (k : string) (v : A) (d : list (string * A))
    : list (string * A) :=
  match d with
  | [] => [(k, v)]
  | (k', v') :: rest =>
      if String.eqb k k' then (k, v) :: rest else (k', v') :: odict_set k v rest
  end.

(** [{k: f(k, v) for k, v in d.items()}] with a body that can raise.
    When several bodies raise, Python reports the first in insertion
    order, which a [gmap] does not record; one of them is reported. *)
Definition map_mapM {A B} (f : string -> A -> res B) (d : gmap string A)
    : res (gmap string B) :=
  map_fold (fun k a acc =>
              bind acc (fun d' => bind (f k a) (fun b => Ok (<[k := b]> d'))))
    (Ok ∅) d.

(** [round(x)] of a float: nearest integer, ties to the even one. *)
Definition py_round (x : Q) : Z :=
  let n := Qnum x in
  let d := Z.pos (Qden x) in
  let f := n / d in
  let r2 := 2 * (n mod d) in
  if r2 <? d then f
  else if d <? r2 then f + 1
  else if Z.even f then f else f + 1.

(** [spec_round_half_away] is not in the code: it is the rounding that
    the specification names for the clamp, to the nearest integer with
    ties away from zero, kept for comparison with [py_round]. *)
Definition spec_round_half_away (x : Q) : Z :=
  let n := Qnum x in
  let d := Z.pos (Qden x) in
  Z.sgn n * ((2 * Z.abs n + d) / (2 * d)).

(** [int(x)]: truncation towards zero. *)
Definition py_int (x : Q) : Z := Z.quot (Qnum x) (Z.pos (Qden x)).

(** [round(x, 1)] in exact arithmetic: to one decimal, ties to even on
    the exact value of [x].  (Python rounds the double that [x] is and
    returns a double: see [Float.round1].) *)
Definition py_round1 (x : Q) : Q := Qred (py_round (x * 10) # 10).

(** [int(m * 0.6)] for an [int] [m].  The double nearest to 0.6 lies
    below 0.6 by less than half a unit in the last place, so the
    product is the double of [3m/5] when 5 divides [m] and is far from
    an integer otherwise: the result is [3m/5] truncated. *)
Definition int_06 (m : Z) : Z := Z.quot (3 * m) 5.

Definition Qmax (a b : Q) : Q := if Qle_bool a b then b else a.

(** [sum(xs)] of numbers and [max(xs)] of a non-empty list. *)
Definition Qsum (xs : list Q) : Q := fold_left Qplus xs 0%Q.

Definition max_of (x : Q) (xs : list Q) : Q := fold_left Qmax xs x.

(** [a >= b]. *)
Definition Qgeb (a b : Q) : bool := Qle_bool b a.

(** [str(n)] of an [int], as an f-string prints it. *)
Definition str (n : Z) : string := NilZero.string_of_int (Z.to_int n).

(** [sep.join(parts)]. *)
Fixpoint join (sep : string) (parts : list string) : string :=
  match parts with
  | [] => EmptyString
  | [p] => p
  | p :: rest => p +:+ sep +:+ join sep rest
  end.

(** [needle in hay] for strings. *)
Fixpoint contains (needle hay : string) : bool :=
  if String.prefix needle hay then true
  else match hay with
       | EmptyString => false
       | String _ rest => contains needle rest
       end.

(** [range(lo, hi)]. *)
Definition range (lo hi : Z) : list Z :=
  map (fun k => lo + Z.of_nat k) (seq 0 (Z.to_nat (hi - lo))).

(** [s[a:b]] with Python's treatment of negative and large indices. *)
Definition slice_index (len i : Z) : Z :=
  if i <? 0 then Z.max 0 (len + i) else Z.min i len.

Definition slice {A} (s : list A) (a b : Z) : list A :=
  let len := Z.of_nat (length s) in
  let a' := slice_index len a in
  let b' := slice_index len b in
  firstn (Z.to_nat (b' - a')) (skipn (Z.to_nat a') s).

(** Text is a sequence of code points below 256.  [str.isspace] holds
    below 256 exactly for 9-13, 28-32, 133 and 160. *)
Definition text := list ascii.

Definition isspace (c : ascii) : bool :=
  let n := N_of_ascii c in
  (((9 <=? n) && (n <=? 13)) || ((28 <=? n) && (n <=? 32))
   || (n =? 133) || (n =? 160))%N.

Fixpoint lstrip (s : text) : text :=
  match s with
  | [] => []
  | c :: rest => if isspace c then lstrip rest else s
  end.

Definition rstrip (s : text) : text := rev (lstrip (rev s)).

Definition strip (s : text) : text := rstrip (lstrip s).

(** Truth value of a string: non-empty. *)
Definition truthy (s : text) : bool :=
  match s with [] => false | _ => true end.

End Py.

Import Py.

Notation "'do' x <- m ; k" := (Py.bind m (fun x => k))
  (at level 10, x name, m at level 100, k at level 200).

(** ** The chunker: [VideoEvaluator._chunk_transcript] *)

Module Chunker.

(** [transcript[i] in '.!?\n'] *)
Definition is_break_char (c : ascii) : bool :=
  (Ascii.eqb c "." || Ascii.eqb c "!" || Ascii.eqb c "?"
   || Ascii.eqb c "010")%bool.

Section Chunk.
Variable transcript : text.
Variable chunk_size overlap : Z.

Definition len : Z := Z.of_nat (length transcript).

(** The positions [i + 1] after a sentence end, for [i] in
    [range(max(start, end - 200), end)]. *)
Definition break_candidates (start end_ : Z) : list Z :=
  map (fun i => i + 1)
    (List.filter (fun i => is_break_char (nth (Z.to_nat i) transcript "000"%char))
       (range (Z.max start (end_ - 200)) end_)).

(** The end of the window that starts at [start]. *)
Definition window_end (start : Z) : Z :=
  let end_ := start + chunk_size in
  if end_ <? len then
    match last (break_candidates start end_) with
    | Some b => b
    | None => end_
    end
  else end_.

(** The [while start < len(transcript)] loop; [None] when the fuel
    runs out before the loop ends. *)
Fixpoint chunk_loop (fuel : nat) (start : Z) : option (list text) :=
  match fuel with
  | O => None
  | S fuel' =>
      if start <? len then
        let end_ := window_end start in
        let chunk := strip (slice transcript start end_) in
        let out := if truthy chunk then [chunk] else [] in
        let start' := Z.max (start + 1) (end_ - overlap) in
        if len <=? start' then Some out
        else option_map (app out) (chunk_loop fuel' start')
      else Some []
  end.

Definition _chunk_transcript : option (list text) :=
  if len <=? chunk_size then Some [transcript]
  else chunk_loop (length transcript) 0.

End Chunk.

End Chunker.

(** ** Rubrics and [validate_rubric] *)

Module Rubric.

(** A criterion of a hierarchical rubric.  [desc] is not among the
    fields the validator requires, so it may be missing. *)
Record Criterion := {
  criterion_id : string;
  criterion_label : string;
  desc : option string;
  criterion_max_points : Z
}.

Record Category := {
  category_id : string;
  label : string;
  weight : Q;
  max_points : Z;
  criteria : list Criterion
}.

Record Scale := { scale_min : Q; scale_max : Q }.

Record Thresholds := { pass : Q; revise : Q }.

(** The hierarchical ("new") format. *)
Record NewRubric := {
  categories : list Category;
  scale : Scale;
  thresholds : Thresholds
}.

(** A criterion of the flat ("old") format. *)
Record OldCriterion := {
  old_id : string;
  old_label : string;
  old_desc : string;
  old_weight : Q
}.

Record OldRubric := {
  old_criteria : list OldCriterion;
  old_scale : Scale;
  overall_method : string;
  old_thresholds : Thresholds
}.

(** [self.rubric]: a dict with the keys of one of the two formats. *)
Inductive t :=
| New (r : NewRubric)
| Old (r : OldRubric).

(** [self.rubric.get('categories', [])] *)
Definition get_categories (r : t) : list Category :=
  match r with New r => categories r | Old _ => [] end.

(** [self.rubric['thresholds']]: both formats have the key. *)
Definition get_thresholds (r : t) : Thresholds :=
  match r with New r => thresholds r | Old r => old_thresholds r end.

(** Whether some category declares a criterion with this id. *)
Definition declares (cats : list Category) (cid : string) : bool :=
  existsb (fun category =>
             existsb (fun c => String.eqb (criterion_id c) cid) (criteria category))
    cats.

(** The reasons for which validation fails, one per message. *)
Inductive ValidationError :=
| CategoriesEmpty
| DuplicateCategoryId (category : string)
| CategoryWeightOutOfRange (category : string)
| CategoryMaxPointsNotPositive (category : string)
| CategoryCriteriaEmpty (category : string)
| DuplicateCriterionId (category criterion : string)
| CriterionMaxPointsNotPositive (criterion : string)
| CategoryMaxPointsMismatch (category : string) (declared sum : Z)
| CategoryWeightsSum (total : Q)
| CriteriaEmpty
| DuplicateOldCriterionId (criterion : string)
| CriterionWeightOutOfRange (criterion : string)
| CriterionWeightsSum (total : Q)
| ScaleMinNotBelowMax
| ReviseNotBelowPass.

(** [(True, None)] or [(False, message)]. *)
Inductive verdict :=
| Valid
| Invalid (e : ValidationError).

Definition Qltb (a b : Q) : bool := negb (Qle_bool b a).

(** The tail shared by both formats: scale, then thresholds. *)
Definition validate_scale_thresholds (s : Scale) (th : Thresholds) : verdict :=
  if Qle_bool (scale_max s) (scale_min s) then Invalid ScaleMinNotBelowMax
  else if Qle_bool (pass th) (revise th) then Invalid ReviseNotBelowPass
  else Valid.

(** The loop over the criteria of one category: duplicate ids, then
    positivity of [max_points]; returns [category_points]. *)
Fixpoint validate_criteria (category : string) (cs : list Criterion)
    (seen_criterion_ids : gset string) (category_points : Z)
    : ValidationError + Z :=
  match cs with
  | [] => inr category_points
  | c :: rest =>
      if decide (criterion_id c ∈ seen_criterion_ids)
      then inl (DuplicateCriterionId category (criterion_id c))
      else if criterion_max_points c <=? 0
      then inl (CriterionMaxPointsNotPositive (criterion_id c))
      else validate_criteria category rest
             ({[criterion_id c]} ∪ seen_criterion_ids)
             (category_points + criterion_max_points c)
  end.

(** The state of the loop over the categories. *)
Record CategoryLoop := {
  seen_category_ids : gset string;
  total_category_weight : Q;
  total_max_points : Z
}.

Fixpoint validate_categories (cats : list Category) (st : CategoryLoop)
    : ValidationError + CategoryLoop :=
  match cats with
  | [] => inr st
  | category :: rest =>
      let cid := category_id category in
      if decide (cid ∈ seen_category_ids st) then inl (DuplicateCategoryId cid)
      else if Qltb (weight category) 0 || Qltb 1 (weight category)
      then inl (CategoryWeightOutOfRange cid)
      else if max_points category <=? 0
      then inl (CategoryMaxPointsNotPositive cid)
      else if (length (criteria category) =? 0)%nat
      then inl (CategoryCriteriaEmpty cid)
      else
        match validate_criteria cid (criteria category) ∅ 0 with
        | inl e => inl e
        | inr category_points =>
            if negb (category_points =? max_points category)
            then inl (CategoryMaxPointsMismatch cid (max_points category)
                        category_points)
            else validate_categories rest
                   {| seen_category_ids := {[cid]} ∪ seen_category_ids st;
                      total_category_weight :=
                        (total_category_weight st + weight category)%Q;
                      total_max_points :=
                        total_max_points st + max_points category |}
        end
  end.

(** [_validate_new_rubric_format] on a typed rubric, where [int()] and
    [float()] have nothing to convert.  The weights are added exactly;
    the code adds doubles, so a sum within one rounding error of 0.99
    or of 1.01 may be judged differently.  [total_max_points] is
    accumulated by the loop and not read afterwards. *)
Definition _validate_new_rubric_format (r : NewRubric) : verdict :=
  if (length (categories r) =? 0)%nat then Invalid CategoriesEmpty
  else
    match validate_categories (categories r)
            {| seen_category_ids := ∅; total_category_weight := 0%Q;
               total_max_points := 0 |} with
    | inl e => Invalid e
    | inr st =>
        let total := total_category_weight st in
        if negb (Qle_bool (99 # 100) total && Qle_bool total (101 # 100))
        then Invalid (CategoryWeightsSum total)
        else validate_scale_thresholds (scale r) (thresholds r)
    end.

Fixpoint validate_old_criteria (cs : list OldCriterion)
    (seen_ids : gset string) (total_weight : Q) : ValidationError + Q :=
  match cs with
  | [] => inr total_weight
  | c :: rest =>
      if decide (old_id c ∈ seen_ids) then inl (DuplicateOldCriterionId (old_id c))
      else if Qltb (old_weight c) 0 || Qltb 1 (old_weight c)
      then inl (CriterionWeightOutOfRange (old_id c))
      else validate_old_criteria rest ({[old_id c]} ∪ seen_ids)
             (total_weight + old_weight c)%Q
  end.

(** [_validate_old_rubric_format], with the same exact sum. *)
Definition _validate_old_rubric_format (r : OldRubric) : verdict :=
  if (length (old_criteria r) =? 0)%nat then Invalid CriteriaEmpty
  else
    match validate_old_criteria (old_criteria r) ∅ 0%Q with
    | inl e => Invalid e
    | inr total =>
        if negb (Qle_bool (99 # 100) total && Qle_bool total (101 # 100))
        then Invalid (CriterionWeightsSum total)
        else validate_scale_thresholds (old_scale r) (old_thresholds r)
    end.

Definition validate_rubric (r : t) : verdict :=
  match r with
  | New r => _validate_new_rubric_format r
  | Old r => _validate_old_rubric_format r
  end.

End Rubric.

(** ** Evaluation results *)

Module Result.

(** One entry of the ["scores"] object. *)
Record ScoreData := {
  score : option Q;
  confidence : option Q;
  note : option string
}.

(** A value of ["categories"], or the ["category"] object of a
    per-category answer. *)
Record CategoryResult := {
  points : Q;
  max_points : Q;
  percentage : Q
}.

(** The ["overall"] object, with the keys of both rubric formats. *)
Record Overall := {
  total_points : option Q;
  overall_max_points : option Q;
  overall_percentage : option Q;
  pass_status : option string;
  weighted_score : option Q;
  method : option string
}.

(** The dict that the scorer answers with and that every evaluation
    function returns. *)
Record EvalResult := {
  scores : option (gmap string ScoreData);
  overall : option Overall;
  categories : option (gmap string CategoryResult);
  category : option CategoryResult;
  short_summary : option string
}.

Definition no_overall : Overall :=
  {| total_points := None; overall_max_points := None;
     overall_percentage := None; pass_status := None;
     weighted_score := None; method := None |}.

(** An answer without its ["overall"] object. *)
Definition without_overall (r : EvalResult) : EvalResult :=
  {| scores := scores r; overall := None; categories := categories r;
     category := category r; short_summary := short_summary r |}.

(** [sum(f(v) for v in d.values())] *)
Definition sum_values {A} (f : A -> Q) (d : gmap string A) : Q :=
  map_fold (fun _ v acc => (acc + f v)%Q) 0%Q d.

(** A dict with the given keys, [d[k] = f(k)]. *)
Definition dict_from_keys {A} (f : string -> A) (keys : gset string)
    : gmap string A :=
  map_imap (fun k _ => Some (f k)) (gset_to_gmap tt keys).

(** [(a / b) * 100] for [b <> 0]. *)
Definition percent (a b : Q) : Q := (a / b * 100)%Q.

Definition Qmin (a b : Q) : Q := if Qle_bool a b then a else b.

(** The three-way status from a total and the thresholds. *)
Definition status_of (th : Rubric.Thresholds) (total : Q) : string :=
  if Qgeb total (Rubric.pass th) then "pass"
  else if Qgeb total (Rubric.revise th) then "revise"
  else "fail".

End Result.

(** ** The normalizer: [VideoEvaluator._normalize_new_format_result] *)

Module Normalizer.
Import Rubric Result.

Section Normalize.
(** [self.rubric]; a flat rubric has no ["categories"]. *)
Variable rubric : Rubric.t.

Definition crit_max : gmap string Z :=
  fold_left (fun m category =>
               fold_left (fun m c => <[criterion_id c := criterion_max_points c]> m)
                 (criteria category) m)
    (get_categories rubric) ∅.

Definition crit_to_cat : gmap string string :=
  fold_left (fun m category =>
               fold_left (fun m c => <[criterion_id c := category_id category]> m)
                 (criteria category) m)
    (get_categories rubric) ∅.

Definition cat_max : gmap string Z :=
  fold_left (fun m category => <[category_id category := Rubric.max_points category]> m)
    (get_categories rubric) ∅.

(** The body of the loop that clamps one entry. *)
Definition clamp_entry (cid : string) (data : ScoreData) : ScoreData :=
  let raw := default 0%Q (score data) in
  let m := default 0 (crit_max !! cid) in
  let clamped := Z.max 0 (Z.min (py_round raw) m) in
  {| score := Some (inject_Z clamped);
     confidence :=
       option_map (fun conf => inject_Z (Z.max 1 (Z.min (py_round conf) 10)))
         (confidence data);
     note := note data |}.

Definition clamp_scores (scores : gmap string ScoreData) : gmap string ScoreData :=
  map_imap (fun cid data => Some (clamp_entry cid data)) scores.

(** [categories[cat_id]["points"] += data.get('score', 0)] for the
    category of [cid], when there is one. *)
Definition add_points (cid : string) (data : ScoreData)
    (categories : gmap string CategoryResult) : gmap string CategoryResult :=
  match crit_to_cat !! cid with
  | Some cat_id =>
      alter (fun c => {| points := (points c + default 0%Q (score data))%Q;
                         max_points := Result.max_points c;
                         percentage := percentage c |})
        cat_id categories
  | None => categories
  end.

(** Clamp a category total and compute its percentage. *)
Definition clamp_category (c : CategoryResult) : CategoryResult :=
  let p := py_int (points c) in
  let m := py_int (Result.max_points c) in
  let p' := Z.max 0 (Z.min p m) in
  {| points := inject_Z p';
     max_points := Result.max_points c;
     percentage := if 0 <? m then percent (inject_Z p') (inject_Z m) else 0%Q |}.

Definition recompute_categories (scores : gmap string ScoreData)
    : gmap string CategoryResult :=
  let zero :=
    (fun m => {| points := 0%Q; max_points := inject_Z m; percentage := 0%Q |})
      <$> cat_max in
  clamp_category <$> map_fold add_points zero scores.

(** The body of the [try] on a typed answer, in exact arithmetic.  On
    such an answer, and with the numeric thresholds of a typed rubric,
    no step raises and the status is the recomputed one.  What the
    function does on the other answers (a [null] or a string where a
    number is expected, an ["overall"] that is not a dict), where the
    [except] leaves the answer half-normalized, is in [JsonNormalizer]. *)
Definition _normalize_new_format_result (result : EvalResult) : EvalResult :=
  let scores := clamp_scores (default ∅ (Result.scores result)) in
  let categories := recompute_categories scores in
  let total_points := sum_values points categories in
  let max_points := sum_values Result.max_points categories in
  let percentage :=
    if Rubric.Qltb 0 max_points then percent total_points max_points else 0%Q in
  let pass_status := status_of (get_thresholds rubric) total_points in
  let overall := default no_overall (Result.overall result) in
  {| scores := Some scores;
     overall :=
       Some {| total_points := Some (inject_Z (py_int total_points));
               overall_max_points := Some (inject_Z (py_int max_points));
               overall_percentage := Some (py_round1 percentage);
               pass_status := Some pass_status;
               weighted_score := weighted_score overall;
               method := method overall |};
     categories := Some categories;
     category := category result;
     short_summary := short_summary result |}.

End Normalize.

End Normalizer.

(** ** Doubles *)

Module Float.

(** The double nearest to [x], ties to the even significand: [float(x)]
    of a number whose exact value is [x], and the result of an
    operation on doubles whose exact result is [x], as long as it is
    finite. *)
Definition binary64 (x : Q) : Q :=
  if Qeq_bool x 0 then 0%Q
  else
    let a := Qabs x in
    let e0 := Z.log2 (Qnum a) - Z.log2 (Z.pos (Qden a)) in
    let e := if Qle_bool (Qpower 2 e0) a then e0 else e0 - 1 in
    let k := Z.max (e - 52) (-1074) in
    let m := py_round (a / Qpower 2 k) in
    let r := Qred (inject_Z m * Qpower 2 k) in
    if Qle_bool 0 x then r else Qopp r.

(** An exact result of this size or more is rounded past the largest
    double. *)
Definition overflows (x : Q) : bool :=
  Qle_bool (Qpower 2 1024 - Qpower 2 970) (Qabs x).

(** [a / b] on two [int]s, [b] not 0: the nearest double, and
    [OverflowError] ([None]) when there is none. *)
Definition true_divide (a b : Z) : option Q :=
  let x := (inject_Z a / inject_Z b)%Q in
  if overflows x then None else Some (binary64 x).

(** [(a / b) * 100] on two [int]s with [0 <= a <= b] and [0 < b]. *)
Definition float_percent (a b : Z) : Q :=
  binary64 (binary64 (inject_Z a / inject_Z b) * 100).

(** [round(x, 1)] of a double: the double nearest to the decimal
    nearest to [x]. *)
Definition round1 (x : Q) : Q := binary64 (py_round1 x).

End Float.

(** ** Answers as [json.loads] gives them *)

Module Json.

(** A JSON value as Python holds it after [json.loads], which also
    reads [NaN] and [Infinity], and numbers too large for a double such
    as [1e999] as infinities.  A number is given by its exact value,
    [int] or [float] alike; an object keeps the order of its keys. *)
#[warnings="-register-all"]
Inductive json :=
| JNull
| JBool (b : bool)
| JNum (q : Q)
| JInf (negative : bool)
| JNaN
| JStr (s : string)
| JArr (items : list json)
| JObj (fields : list (string * json)).

(** [d.get(key)] *)
Fixpoint get (key : string) (d : list (string * json)) : option json :=
  match d with
  | [] => None
  | (k, v) :: rest => if String.eqb key k then Some v else get key rest
  end.

(** [bool(x)] *)
Definition truthy (x : json) : bool :=
  match x with
  | JNull => false
  | JBool b => b
  | JNum q => negb (Qeq_bool q 0)
  | JInf _ | JNaN => true
  | JStr s => negb (String.eqb s "")
  | JArr items => match items with [] => false | _ :: _ => true end
  | JObj fields => match fields with [] => false | _ :: _ => true end
  end.

(** [int(round(x))]; [None] when it raises: [TypeError] on what is not
    a number, [OverflowError] on an infinity, [ValueError] on a NaN.
    A boolean is an [int]. *)
Definition round_int (x : json) : option Z :=
  match x with
  | JNum q => Some (py_round q)
  | JBool b => Some (if b then 1 else 0)
  | _ => None
  end.

(** [x.get(key)] of a dict, and the value under a path of keys. *)
Definition field (key : string) (x : json) : option json :=
  match x with JObj fields => get key fields | _ => None end.

Fixpoint at_path (keys : list string) (x : json) : option json :=
  match keys with
  | [] => Some x
  | key :: keys =>
      match field key x with Some y => at_path keys y | None => None end
  end.

End Json.

(** ** [_normalize_new_format_result] on any answer

    [Normalizer] above is the body of the [try] on an answer whose
    values have the types that the prompts ask for, with exact
    percentages.  This is the function as it is, on whatever
    [json.loads] returned: the entries are changed in place, and an
    exception anywhere in the body leaves the answer as it is at that
    moment. *)

Module JsonNormalizer.
Import Rubric Result Json Float.

Section Normalize.
Variable rubric : Rubric.t.
(** The thresholds of the rubric when both are numbers, which is what
    the [isinstance] test before the status asks for; [None] when one
    is not (the validator accepts what [float()] accepts, a numeric
    string for one). *)
Variable numeric_thresholds : option Thresholds.

(** One turn of the loop that clamps the entries, on [data]: [inr] with
    the entry and its score as the turn leaves them, [inl] with the
    entry as it is when an exception stops the turn. *)
Definition clamp_data (cid : string) (data : json) : json + json * Z :=
  match data with
  | JObj d =>
      match round_int (default (JNum 0) (get "score" d)) with
      | None => inl data
      | Some r =>
          let m := default 0 (Normalizer.crit_max rubric !! cid) in
          let clamped := Z.max 0 (Z.min r m) in
          let d := odict_set "score" (JNum (inject_Z clamped)) d in
          match get "confidence" d with
          | None => inr (JObj d, clamped)
          | Some conf =>
              match round_int conf with
              | None => inl (JObj d)
              | Some c =>
                  inr (JObj (odict_set "confidence"
                               (JNum (inject_Z (Z.max 1 (Z.min c 10)))) d),
                       clamped)
              end
          end
      end
  | _ => inl data
  end.

(** The loop over [list(scores.items())]: the entries as the loop
    leaves them, and the clamped scores when no turn raised. *)
Fixpoint clamp_loop (entries : list (string * json))
    : list (string * json) * option (list (string * Z)) :=
  match entries with
  | [] => ([], Some [])
  | (cid, data) :: rest =>
      match clamp_data cid data with
      | inl data => ((cid, data) :: rest, None)
      | inr (data, clamped) =>
          let '(rest, scores) := clamp_loop rest in
          ((cid, data) :: rest, option_map (cons (cid, clamped)) scores)
      end
  end.

(** [cat_max], in the order of the rubric. *)
Definition cat_max : list (string * Z) :=
  fold_left (fun acc category =>
               odict_set (category_id category) (Rubric.max_points category) acc)
    (get_categories rubric) [].

(** The points that the clamped scores add up to in a category. *)
Definition points_of (scores : list (string * Z)) (cat_id : string) : Z :=
  fold_left (fun points '(cid, score) =>
               if decide (Normalizer.crit_to_cat rubric !! cid = Some cat_id)
               then points + score else points)
    scores 0.

(** The categories with their clamped points and their maxima. *)
Definition category_points (scores : list (string * Z))
    : list (string * (Z * Z)) :=
  map (fun '(cat_id, m) =>
         (cat_id, (Z.max 0 (Z.min (points_of scores cat_id) m), m)))
    cat_max.

Definition category_block (points m : Z) : json :=
  JObj [("points"%string, JNum (inject_Z points));
        ("max_points"%string, JNum (inject_Z m));
        ("percentage"%string,
         JNum (if 0 <? m then float_percent points m else 0%Q))].

Definition total_of (blocks : list (string * (Z * Z))) : Z :=
  fold_left (fun n '(_, (points, _)) => n + points) blocks 0.

Definition max_of_blocks (blocks : list (string * (Z * Z))) : Z :=
  fold_left (fun n '(_, (_, m)) => n + m) blocks 0.

(** [round(percentage, 1)] of the overall block: [None] when the
    division raises [OverflowError]; the product by 100 does not raise
    but gives [inf], which [round] leaves as it is. *)
Definition overall_percentage (total_points max_points : Z) : option json :=
  if 0 <? max_points then
    match true_divide total_points max_points with
    | None => None
    | Some ratio =>
        Some (if overflows (ratio * 100) then JInf false
              else JNum (round1 (binary64 (ratio * 100))))
    end
  else Some (JNum 0).

(** [overall.update({...})] *)
Definition overall_update (scores : list (string * Z)) (percentage : json)
    (overall : list (string * json)) : list (string * json) :=
  let blocks := category_points scores in
  let total_points := total_of blocks in
  let max_points := max_of_blocks blocks in
  let pass_status :=
    match numeric_thresholds with
    | Some thresholds => JStr (status_of thresholds (inject_Z total_points))
    | None => default (JStr "fail") (get "pass_status" overall)
    end in
  odict_set "pass_status" pass_status
    (odict_set "percentage" percentage
       (odict_set "max_points" (JNum (inject_Z max_points))
          (odict_set "total_points" (JNum (inject_Z total_points)) overall))).

(** [result.get('scores', {}) or {}] *)
Definition scores_of (fields : list (string * json)) : json :=
  match get "scores" fields with
  | Some scores => if truthy scores then scores else JObj []
  | None => JObj []
  end.

Definition _normalize_new_format_result (result : json) : json :=
  match result with
  | JObj fields =>
      match scores_of fields with
      | JObj entries =>
          let '(entries', clamped) := clamp_loop entries in
          (* the answer after the loop: its entries were changed in place *)
          let written :=
            match entries with
            | [] => fields
            | _ :: _ => odict_set "scores" (JObj entries') fields
            end in
          match clamped with
          | None => JObj written
          | Some clamped =>
              let blocks := category_points clamped in
              match overall_percentage (total_of blocks) (max_of_blocks blocks) with
              | None => JObj written
              | Some percentage =>
                  let finish (overall : list (string * json)) :=
                    JObj (odict_set "overall"
                            (JObj (overall_update clamped percentage overall))
                            (odict_set "categories"
                               (JObj (map (fun '(cat_id, (points, m)) =>
                                             (cat_id, category_block points m))
                                        blocks))
                               (odict_set "scores" (JObj entries') fields))) in
                  match get "overall" fields with
                  | None => finish []
                  | Some (JObj overall) => finish overall
                  | Some _ => JObj written
                  end
              end
          end
      | _ => result
      end
  | _ => result
  end.

End Normalize.

(** The answers that raise nothing in the body: an object whose
    ["scores"], when it has some, is an object of objects with a number
    (or none) for ["score"] and for ["confidence"], and whose
    ["overall"], when it has one, is an object.  (The body then runs to
    its end, unless the division for the overall percentage overflows,
    which takes a category with a negative [max_points].) *)
Definition is_number (x : json) : bool :=
  match round_int x with Some _ => true | None => false end.

Definition entry_ok (data : json) : bool :=
  match data with
  | JObj d =>
      is_number (default (JNum 0) (get "score" d))
      && match get "confidence" d with
         | Some conf => is_number conf
         | None => true
         end
  | _ => false
  end.

Definition normalizable (result : json) : bool :=
  match result with
  | JObj fields =>
      match scores_of fields with
      | JObj entries => forallb (fun e => entry_ok (snd e)) entries
      | _ => false
      end
      && match get "overall" fields with
         | None | Some (JObj _) => true
         | Some _ => false
         end
  | _ => false
  end.

End JsonNormalizer.

(** ** The external scorer *)

Module Scoring.
Import Rubric Result.

(** The scoring calls that the evaluator makes, with the part of the
    transcript that goes into the prompt. *)
Inductive Call :=
| SimpleCall (excerpt : text)
| ChunkCall (chunk : text) (chunk_num total_chunks : Z)
| CategoryCall (category : Category) (excerpt : text)
| CategoryInChunkCall (category : Category) (excerpt : text)
    (chunk_num total_chunks : Z)
| OldCall (excerpt : text)
| OldChunkCall (chunk : text) (chunk_num total_chunks : Z).

(** The answer parsed by [json.loads], or [None] when the call fails. *)
Definition Scorer := Call -> option EvalResult.

(** The conservative score of a criterion: 60% of its maximum. *)
Definition conservative (c : Criterion) (conf : Q) (note : string) : ScoreData :=
  {| score := Some (inject_Z (int_06 (criterion_max_points c)));
     confidence := Some conf;
     note := Some note |}.

(** The text by which the callers tell a conservative score from a real
    one ([pages/2_Analyze_Video.py]). *)
Definition fallback_marker : string := "Auto-generated conservative score".

(** The sum of the conservative scores of a rubric. *)
Definition conservative_total (cats : list Category) : Z :=
  fold_right
    (fun category n =>
       fold_right (fun c m => int_06 (criterion_max_points c) + m) 0
         (criteria category) + n)
    0 cats.

(** [spec_conservative_total] is not in the code: it is the total that
    the specification names for an evaluation in which every call
    fails, the rounded sum of 60% of the maxima of the criteria of a
    category, clamped to the maximum of the category; kept for
    comparison with [conservative_total]. *)
Definition spec_conservative_total (cats : list Category) : Z :=
  fold_right
    (fun category n =>
       Z.min (py_round
                (Qsum (map (fun c => (6 # 10) * inject_Z (criterion_max_points c))%Q
                         (criteria category))))
         (Rubric.max_points category) + n)
    0 cats.

(** All the criterion ids of a rubric, category after category. *)
Definition all_criterion_ids (cats : list Category) : list string :=
  flat_map (fun category => map criterion_id (criteria category)) cats.

(** The prompt of a per-category call reads [criterion['desc']] of
    every criterion of the category. *)
Definition category_prompt (category : Category) : res unit :=
  if forallb (fun c => bool_decide (is_Some (desc c))) (criteria category)
  then Ok tt else Raise (KeyError "desc").

End Scoring.

(** ** The orchestrator for hierarchical rubrics *)

Module Evaluator.
Import Rubric Result Scoring.

Section Hierarchical.
Variable rubric : NewRubric.
Variable scorer : Scorer.

Definition normalize : EvalResult -> EvalResult :=
  Normalizer._normalize_new_format_result (New rubric).

(** [sum(len(cat['criteria']) for cat in self.rubric['categories'])] *)
Definition total_criteria : Z :=
  fold_left (fun n category => n + Z.of_nat (length (criteria category)))
    (Rubric.categories rubric) 0.

(** The chunks of a long transcript. *)
Definition chunks_of (transcript : text) : res (list text) :=
  match Chunker._chunk_transcript transcript 8000 200 with
  | Some chunks => Ok chunks
  | None => Raise Diverged
  end.

(** *** Conservative results *)

(** The conservative entries of one category, added to [scores], and
    their sum. *)
Definition conservative_category (conf : Q) (note : string)
    (category : Category) (scores : gmap string ScoreData)
    : gmap string ScoreData * Z :=
  fold_left (fun '(scores, category_points) c =>
               (<[criterion_id c := conservative c conf note]> scores,
                category_points + int_06 (criterion_max_points c)))
    (criteria category) (scores, 0).

(** The body shared by [_fallback_new_rubric_evaluation] and
    [_fallback_single_chunk_evaluation], which differ in the note and
    in the summary only.  Both divide by [max_points] unguarded. *)
Definition fallback_evaluation (note summary : string) : res EvalResult :=
  do st <- for_each (Rubric.categories rubric)
       (fun category '(scores, categories) =>
          let '(scores, category_points) :=
            conservative_category 3 note category scores in
          if Rubric.max_points category =? 0 then Raise ZeroDivisionError
          else Ok (scores,
                   <[category_id category :=
                       {| points := inject_Z category_points;
                          max_points := inject_Z (Rubric.max_points category);
                          percentage :=
                            percent (inject_Z category_points)
                              (inject_Z (Rubric.max_points category)) |}]>
                     categories))
       (∅, ∅);
  let '(scores, categories) := st in
  let total_points := sum_values points categories in
  let max_points := sum_values Result.max_points categories in
  if Qeq_bool max_points 0 then Raise ZeroDivisionError
  else
    Ok {| scores := Some scores;
          overall :=
            Some {| total_points := Some total_points;
                    overall_max_points := Some max_points;
                    overall_percentage :=
                      Some (py_round1 (percent total_points max_points));
                    pass_status :=
                      Some (status_of (thresholds rubric) total_points);
                    weighted_score := None; method := None |};
          categories := Some categories;
          category := None;
          short_summary := Some summary |}.

Definition _fallback_new_rubric_evaluation : res EvalResult :=
  fallback_evaluation "Auto-generated conservative score"
    "Auto-generated conservative evaluation".

Definition _fallback_single_chunk_evaluation : res EvalResult :=
  fallback_evaluation "Auto-generated conservative score for chunk"
    "Auto-generated conservative chunk evaluation".

(** *** One scoring call for the whole rubric *)

(** The body of [_evaluate_simple_rubric] for a short transcript. *)
Definition single_call_evaluation (transcript : text) : res EvalResult :=
  match scorer (SimpleCall (slice transcript 0 3000)) with
  | Some result => Ok (normalize result)
  | None => _fallback_new_rubric_evaluation
  end.

Definition _evaluate_single_chunk (chunk : text) (chunk_num total_chunks : Z)
    : res EvalResult :=
  match scorer (ChunkCall chunk chunk_num total_chunks) with
  | Some result => Ok (normalize result)
  | None => _fallback_single_chunk_evaluation
  end.

(** *** Aggregation over transcript chunks *)

(** The search for the maximum of a criterion in the aggregators:
    the first criterion with that id in each category, stopping at
    the first category where it is not zero. *)
Fixpoint find_crit_max (cats : list Category) (cid : string) (crit_max : Z) : Z :=
  match cats with
  | [] => crit_max
  | category :: rest =>
      let crit_max :=
        match find (fun c => String.eqb (criterion_id c) cid) (criteria category) with
        | Some c => criterion_max_points c
        | None => crit_max
        end in
      if crit_max =? 0 then find_crit_max rest cid crit_max else crit_max
  end.

(** [max(0, min(round(avg_score), crit_max))] *)
Definition clamped_score (cid : string) (avg_score : Q) : Z :=
  Z.max 0 (Z.min (py_round avg_score) (find_crit_max (Rubric.categories rubric) cid 0)).

(** The note of an aggregated entry. *)
Definition combined_note (notes : list string) : string :=
  "Aggregated from " +:+ str (Z.of_nat (length notes)) +:+ " chunks: "
    +:+ join " | " (List.filter (fun n => negb (String.eqb n "")) notes).

(** The entries of [criterion_id] in the chunk results that have it. *)
Definition contributions (criterion_id : string) (chunk_results : list EvalResult)
    : list ScoreData :=
  omap (fun result => Result.scores result ≫= (.!! criterion_id)) chunk_results.

Definition aggregate_criterion (chunk_results : list EvalResult)
    (criterion_id : string) : ScoreData :=
  let data := contributions criterion_id chunk_results in
  let scores_for_criterion := map (fun d => default 0%Q (score d)) data in
  let confidences_for_criterion := map (fun d => default 5%Q (confidence d)) data in
  let notes_for_criterion := map (fun d => default ""%string (note d)) data in
  match scores_for_criterion, confidences_for_criterion with
  | [], _ =>
      {| score := Some 0%Q; confidence := Some 3%Q;
         note := Some "No scores available from chunks"%string |}
  | _ :: _, confs =>
      let avg_score :=
        (Qsum scores_for_criterion
         / inject_Z (Z.of_nat (length scores_for_criterion)))%Q in
      {| score := Some (inject_Z (clamped_score criterion_id avg_score));
         confidence :=
           Some (match confs with
                 | c :: cs => max_of c cs
                 | [] => 5%Q
                 end);
         note := Some (combined_note notes_for_criterion) |}
  end.

(** The category block of an aggregated result. *)
Definition aggregate_category (aggregated_scores : gmap string ScoreData)
    (category : Category) : CategoryResult :=
  let total_max_points := inject_Z (Rubric.max_points category) in
  let category_points :=
    fold_left (fun pts c =>
                 match aggregated_scores !! criterion_id c with
                 | Some d => (pts + default 0%Q (score d))%Q
                 | None => pts
                 end)
      (criteria category) 0%Q in
  let category_points := Qmax 0 (Qmin category_points total_max_points) in
  {| points := category_points;
     max_points := total_max_points;
     percentage :=
       if Rubric.Qltb 0 total_max_points
       then percent category_points total_max_points else 0%Q |}.

(** The overall block computed from the category blocks. *)
Definition overall_of (categories : gmap string CategoryResult) : Overall :=
  let total_points := sum_values points categories in
  let max_points := sum_values Result.max_points categories in
  let percentage :=
    if Rubric.Qltb 0 max_points then percent total_points max_points else 0%Q in
  {| total_points := Some total_points;
     overall_max_points := Some max_points;
     overall_percentage := Some (py_round1 percentage);
     pass_status := Some (status_of (thresholds rubric) total_points);
     weighted_score := None; method := None |}.

Definition _aggregate_chunk_results (chunk_results : list EvalResult)
    : res EvalResult :=
  match chunk_results with
  | [] => _fallback_new_rubric_evaluation
  | _ =>
      let all_criterion_ids : gset string :=
        ⋃ (omap (fun result => dom <$> Result.scores result) chunk_results) in
      let aggregated_scores :=
        dict_from_keys (aggregate_criterion chunk_results) all_criterion_ids in
      let categories :=
        fold_left (fun cats category =>
                     <[category_id category :=
                         aggregate_category aggregated_scores category]> cats)
          (Rubric.categories rubric) ∅ in
      Ok {| scores := Some aggregated_scores;
            overall := Some (overall_of categories);
            categories := Some categories;
            category := None;
            short_summary :=
              Some ("Evaluated " +:+ str (Z.of_nat (length chunk_results))
                    +:+ " transcript chunks with "
                    +:+ str (Z.of_nat (size aggregated_scores))
                    +:+ " criteria") |}
  end.

(** The body of [_evaluate_transcript_chunked] for a rubric of at
    most ten criteria: the whole rubric on every chunk. *)
Definition chunk_only_evaluation (transcript : text) : res EvalResult :=
  do chunks <- chunks_of transcript;
  do chunk_results <-
    mapM (fun '(i, chunk) =>
            try_except
              (_evaluate_single_chunk chunk (i + 1) (Z.of_nat (length chunks)))
              (fun _ => _fallback_single_chunk_evaluation))
      (enumerate chunks);
  _aggregate_chunk_results chunk_results.

(** *** One scoring call per category *)

Definition _evaluate_single_category (category : Category) (transcript : text)
    : res EvalResult :=
  do _ <- category_prompt category;
  match scorer (CategoryCall category (slice transcript 0 2500)) with
  | Some result => Ok (normalize result)
  | None =>
      let '(scores, category_points) :=
        conservative_category 5 "Auto-generated conservative score" category ∅ in
      let max_points := inject_Z (Rubric.max_points category) in
      Ok {| scores := Some scores;
            overall := None;
            categories := None;
            category :=
              Some {| points := inject_Z category_points;
                      max_points := max_points;
                      percentage :=
                        if Rubric.Qltb 0 max_points
                        then percent (inject_Z category_points) max_points
                        else 0%Q |};
            short_summary := None |}
  end.

(** The body of [_evaluate_complex_rubric_chunked] for a short
    transcript: every category on the whole transcript.  The category
    block of the result is [category_result['category']]. *)
Definition category_only_evaluation (transcript : text) : res EvalResult :=
  do st <- for_each (Rubric.categories rubric)
       (fun category '(scores, categories) =>
          do category_result <- _evaluate_single_category category transcript;
          do category_scores <- getitem "scores" (Result.scores category_result);
          do category_block <- getitem "category" (Result.category category_result);
          Ok (category_scores ∪ scores,
              <[category_id category := category_block]> categories))
       (∅, ∅);
  let '(scores, categories) := st in
  let total_points := sum_values points categories in
  let max_points := sum_values Result.max_points categories in
  if Qeq_bool max_points 0 then Raise ZeroDivisionError
  else
    Ok {| scores := Some scores;
          overall :=
            Some {| total_points := Some total_points;
                    overall_max_points := Some max_points;
                    overall_percentage :=
                      Some (py_round1 (percent total_points max_points));
                    pass_status :=
                      Some (status_of (thresholds rubric) total_points);
                    weighted_score := None; method := None |};
          categories := Some categories;
          category := None;
          short_summary :=
            Some ("Evaluated " +:+ str (Z.of_nat (size categories))
                  +:+ " categories with " +:+ str (Z.of_nat (size scores))
                  +:+ " criteria") |}.

(** *** Every category on every chunk *)

Definition _evaluate_single_category_in_chunk (category : Category)
    (chunk : text) (chunk_num total_chunks : Z) : res EvalResult :=
  do _ <- category_prompt category;
  match scorer (CategoryInChunkCall category (slice chunk 0 3000)
                  chunk_num total_chunks) with
  | Some result => Ok (normalize result)
  | None =>
      let note :=
        "Auto-generated conservative score for category " +:+ label category
          +:+ " in chunk " +:+ str chunk_num in
      Ok {| scores :=
              Some (fst (conservative_category 3 note category ∅));
            overall := None; categories := None; category := None;
            short_summary := None |}
  end.

(** [category_scores[criterion_id].append(score_data)], creating the
    list when the key is new. *)
Definition append_score (criterion_id : string) (score_data : ScoreData)
    (category_scores : gmap string (list ScoreData))
    : gmap string (list ScoreData) :=
  <[criterion_id := default [] (category_scores !! criterion_id) ++ [score_data]]>
    category_scores.

(** One turn of the loop over the chunks, for one category. *)
Definition score_category_in_chunk (category : Category) (total_chunks : Z)
    (i : Z) (chunk : text) (category_scores : gmap string (list ScoreData))
    : gmap string (list ScoreData) :=
  match
    (do chunk_result <-
       _evaluate_single_category_in_chunk category chunk (i + 1) total_chunks;
     getitem "scores" (Result.scores chunk_result))
  with
  | Ok chunk_scores => map_fold append_score category_scores chunk_scores
  | Raise _ =>
      fold_left (fun acc c =>
                   append_score (criterion_id c)
                     (conservative c 3
                        ("Auto-generated conservative score for chunk "
                         +:+ str (i + 1)))
                     acc)
        (criteria category) category_scores
  end.

(** The aggregate of one criterion over the chunks of one category;
    the keys of the entries are indexed directly. *)
Definition aggregate_scores_list (criterion_id : string)
    (scores_list : list ScoreData) : res ScoreData :=
  do scores <- mapM (fun s => getitem "score" (score s)) scores_list;
  let avg_score :=
    (Qsum scores / inject_Z (Z.of_nat (length scores_list)))%Q in
  do confidences <- mapM (fun s => getitem "confidence" (confidence s)) scores_list;
  do notes <- mapM (fun s => getitem "note" (note s)) scores_list;
  match confidences with
  | [] => Raise ZeroDivisionError (* an empty list: the mean divides by 0 *)
  | c :: cs =>
      Ok {| score := Some (inject_Z (clamped_score criterion_id avg_score));
            confidence := Some (max_of c cs);
            note := Some (combined_note notes) |}
  end.

(** The scores and the category block of one category. *)
Definition evaluate_category_across_chunks (chunks : list text)
    (category : Category) : res (gmap string ScoreData * CategoryResult) :=
  let category_scores :=
    fold_left (fun acc '(i, chunk) =>
                 score_category_in_chunk category
                   (Z.of_nat (length chunks)) i chunk acc)
      (enumerate chunks) ∅ in
  do aggregated_category_scores <-
    map_mapM aggregate_scores_list category_scores;
  let category_points :=
    sum_values (fun d => default 0%Q (score d)) aggregated_category_scores in
  let max_points := inject_Z (Rubric.max_points category) in
  let category_points := Qmax 0 (Qmin category_points max_points) in
  Ok (aggregated_category_scores,
      {| points := category_points;
         max_points := max_points;
         percentage :=
           if Rubric.Qltb 0 max_points
           then percent category_points max_points else 0%Q |}).

Definition _evaluate_transcript_and_category_chunked (transcript : text)
    : res EvalResult :=
  do chunks <- chunks_of transcript;
  do category_results <-
    for_each (Rubric.categories rubric)
      (fun category category_results =>
         do r <- evaluate_category_across_chunks chunks category;
         Ok (odict_set (category_id category) r category_results))
      [];
  let all_scores :=
    fold_left (fun all_scores '(_, (scores, _)) => scores ∪ all_scores)
      category_results ∅ in
  let all_categories : gmap string CategoryResult :=
    fold_left (fun all_categories '(cat_id, (_, block)) =>
                 <[cat_id := block]> all_categories)
      category_results ∅ in
  Ok {| scores := Some all_scores;
        overall := Some (overall_of all_categories);
        categories := Some all_categories;
        category := None;
        short_summary :=
          Some ("Evaluated " +:+ str (Z.of_nat (size all_categories))
                +:+ " categories across " +:+ str (Z.of_nat (length chunks))
                +:+ " transcript chunks") |}.

(** *** The decomposition decision *)

Definition _evaluate_transcript_chunked (transcript : text) : res EvalResult :=
  if 10 <? total_criteria
  then _evaluate_transcript_and_category_chunked transcript
  else chunk_only_evaluation transcript.

Definition _evaluate_simple_rubric (transcript : text) : res EvalResult :=
  if 4000 <? Z.of_nat (length transcript)
  then _evaluate_transcript_chunked transcript
  else single_call_evaluation transcript.

Definition _evaluate_complex_rubric_chunked (transcript : text) : res EvalResult :=
  if 4000 <? Z.of_nat (length transcript)
  then _evaluate_transcript_chunked transcript
  else category_only_evaluation transcript.

Definition _evaluate_with_new_rubric_format (transcript : text) : res EvalResult :=
  if 10 <? total_criteria
  then _evaluate_complex_rubric_chunked transcript
  else _evaluate_simple_rubric transcript.

End Hierarchical.

(** ** The orchestrator for flat rubrics *)

Section Flat.
Variable rubric : OldRubric.
Variable scorer : Scorer.

(** Every criterion at 6, with or without a confidence. *)
Definition old_conservative_scores (conf : option Q) (note : string)
    : gmap string ScoreData :=
  fold_left (fun scores c =>
               <[old_id c := {| score := Some 6%Q; confidence := conf;
                                note := Some note |}]> scores)
    (old_criteria rubric) ∅.

(** [sum(scores[c['id']]['score'] * c.get('weight', 0) for c in criteria)] *)
Definition weighted_sum (scores : gmap string ScoreData) : res Q :=
  do terms <-
    mapM (fun c =>
            do d <- getitem (old_id c) (scores !! old_id c);
            do s <- getitem "score" (score d);
            Ok (s * old_weight c)%Q)
      (old_criteria rubric);
  Ok (Qsum terms).

Definition total_weight : Q := Qsum (map old_weight (old_criteria rubric)).

(** The conservative result of the flat format, written three times
    in the source with the same body. *)
Definition old_fallback (conf : option Q) (note : string) : res EvalResult :=
  let scores := old_conservative_scores conf note in
  do num <- weighted_sum scores;
  if Qeq_bool total_weight 0 then Raise ZeroDivisionError
  else
    let weighted := (num / total_weight)%Q in
    Ok {| scores := Some scores;
          overall :=
            Some {| total_points := None; overall_max_points := None;
                    overall_percentage := None;
                    pass_status :=
                      Some (status_of (old_thresholds rubric) weighted);
                    weighted_score := Some weighted;
                    method := Some (overall_method rubric) |};
          categories := None; category := None;
          short_summary := Some "Auto summary"%string |}.

Definition _fallback_single_chunk_old_evaluation : res EvalResult :=
  old_fallback (Some 3%Q) "Auto-generated conservative score for chunk".

(** The answer of a chunk goes through the normalizer of the
    hierarchical format; a failed call raises. *)
Definition _evaluate_single_chunk_old (chunk : text) (chunk_num total_chunks : Z)
    : res EvalResult :=
  match scorer (OldChunkCall chunk chunk_num total_chunks) with
  | Some result =>
      Ok (Normalizer._normalize_new_format_result (Old rubric) result)
  | None => Raise (RuntimeError "All API calls failed for chunk evaluation")
  end.

Definition aggregate_criterion_old (chunk_results : list EvalResult)
    (criterion_id : string) : ScoreData :=
  let data := contributions criterion_id chunk_results in
  let scores_for_criterion := map (fun d => default 0%Q (score d)) data in
  let confidences_for_criterion := map (fun d => default 5%Q (confidence d)) data in
  let notes_for_criterion := map (fun d => default ""%string (note d)) data in
  match scores_for_criterion with
  | [] =>
      {| score := Some 6%Q; confidence := Some 3%Q;
         note := Some "No scores available from chunks"%string |}
  | _ :: _ =>
      let avg_score :=
        (Qsum scores_for_criterion
         / inject_Z (Z.of_nat (length scores_for_criterion)))%Q in
      {| score := Some (py_round1 avg_score);
         confidence :=
           Some (match confidences_for_criterion with
                 | c :: cs => max_of c cs
                 | [] => 5%Q
                 end);
         note := Some (combined_note notes_for_criterion) |}
  end.

Definition _aggregate_chunk_results_old (chunk_results : list EvalResult)
    : res EvalResult :=
  match chunk_results with
  | [] => old_fallback None "Auto-generated conservative score"
  | _ =>
      let all_criterion_ids : gset string :=
        ⋃ (omap (fun result => dom <$> Result.scores result) chunk_results) in
      let aggregated_scores :=
        dict_from_keys (aggregate_criterion_old chunk_results) all_criterion_ids in
      do weighted_score <-
        (if Rubric.Qltb 0 total_weight
         then do num <- weighted_sum aggregated_scores;
              Ok (num / total_weight)%Q
         else Ok 6%Q);
      Ok {| scores := Some aggregated_scores;
            overall :=
              Some {| total_points := None; overall_max_points := None;
                      overall_percentage := None;
                      pass_status :=
                        Some (status_of (old_thresholds rubric) weighted_score);
                      weighted_score := Some (py_round1 weighted_score);
                      method := Some (overall_method rubric) |};
            categories := None; category := None;
            short_summary :=
              Some ("Evaluated " +:+ str (Z.of_nat (length chunk_results))
                    +:+ " transcript chunks with "
                    +:+ str (Z.of_nat (size aggregated_scores))
                    +:+ " criteria") |}
  end.

Definition _evaluate_old_rubric_chunked (transcript : text) : res EvalResult :=
  do chunks <-
    match Chunker._chunk_transcript transcript 8000 200 with
    | Some chunks => Ok chunks
    | None => Raise Diverged
    end;
  do chunk_results <-
    mapM (fun '(i, chunk) =>
            try_except
              (_evaluate_single_chunk_old chunk (i + 1) (Z.of_nat (length chunks)))
              (fun _ => _fallback_single_chunk_old_evaluation))
      (enumerate chunks);
  _aggregate_chunk_results_old chunk_results.

(** A successful answer to the single call is returned as received. *)
Definition _evaluate_with_old_rubric_format (transcript : text) : res EvalResult :=
  if 4000 <? Z.of_nat (length transcript)
  then _evaluate_old_rubric_chunked transcript
  else
    match scorer (OldCall (slice transcript 0 3000)) with
    | Some result => Ok result
    | None => old_fallback None "Auto-generated conservative score"
    end.

End Flat.

(** [evaluate_transcript_with_rubric]: the format is told by the
    presence of ["categories"]. *)
Definition evaluate_transcript_with_rubric (rubric : Rubric.t) (scorer : Scorer)
    (transcript : text) : res EvalResult :=
  match rubric with
  | New r => _evaluate_with_new_rubric_format r scorer transcript
  | Old r => _evaluate_with_old_rubric_format r scorer transcript
  end.

End Evaluator.

(** ** Concrete rubrics, transcripts and scorers *)

Module Examples.
Import Rubric Result Scoring.

Definition criterion (cid : string) (m : Z) : Criterion :=
  {| criterion_id := cid; criterion_label := cid; desc := Some cid;
     criterion_max_points := m |}.

(** A criterion with the three required fields only, as in
    [tests/test_comprehensive.py]. *)
Definition bare_criterion (cid : string) (m : Z) : Criterion :=
  {| criterion_id := cid; criterion_label := cid; desc := None;
     criterion_max_points := m |}.

Definition eleven_ids : list string :=
  ["c01"; "c02"; "c03"; "c04"; "c05"; "c06"; "c07"; "c08"; "c09"; "c10"; "c11"]%string.

(** One category of eleven criteria of 5 points; the scale stops at 10. *)
Definition rubric11 : NewRubric :=
  {| Rubric.categories :=
       [ {| category_id := "content"; label := "Content"; weight := 1;
            Rubric.max_points := 55;
            criteria := map (fun cid => criterion cid 5) eleven_ids |} ];
     scale := {| scale_min := 0; scale_max := 10 |};
     thresholds := {| pass := 40; revise := 30 |} |}.

(** The same rubric without descriptions. *)
Definition rubric11_bare : NewRubric :=
  {| Rubric.categories :=
       [ {| category_id := "content"; label := "Content"; weight := 1;
            Rubric.max_points := 55;
            criteria := map (fun cid => bare_criterion cid 5) eleven_ids |} ];
     scale := {| scale_min := 0; scale_max := 55 |};
     thresholds := {| pass := 40; revise := 30 |} |}.

(** Fifteen criteria, 100 points: ten of 7 points and five of 6. *)
Definition rubric15 : NewRubric :=
  {| Rubric.categories :=
       [ {| category_id := "content"; label := "Content"; weight := 35 # 100;
            Rubric.max_points := 35;
            criteria := map (fun cid => criterion cid 7)
                          ["a1"; "a2"; "a3"; "a4"; "a5"]%string |};
         {| category_id := "delivery"; label := "Delivery"; weight := 35 # 100;
            Rubric.max_points := 35;
            criteria := map (fun cid => criterion cid 7)
                          ["b1"; "b2"; "b3"; "b4"; "b5"]%string |};
         {| category_id := "value"; label := "Value"; weight := 30 # 100;
            Rubric.max_points := 30;
            criteria := map (fun cid => criterion cid 6)
                          ["v1"; "v2"; "v3"; "v4"; "v5"]%string |} ];
     scale := {| scale_min := 0; scale_max := 100 |};
     thresholds := {| pass := 70; revise := 50 |} |}.

(** Two criteria of 5 points. *)
Definition rubric2 : NewRubric :=
  {| Rubric.categories :=
       [ {| category_id := "content"; label := "Content Quality"; weight := 1;
            Rubric.max_points := 10;
            criteria := [criterion "clarity" 5; criterion "depth" 5] |} ];
     scale := {| scale_min := 0; scale_max := 10 |};
     thresholds := {| pass := 7; revise := 5 |} |}.

(** The flat rubric of [tests/integration/test_rubric_lifecycle.py]. *)
Definition flat_rubric : OldRubric :=
  {| old_criteria :=
       [ {| old_id := "clarity"; old_label := "Clarity";
            old_desc := "Clear explanation"; old_weight := 1 # 2 |};
         {| old_id := "completeness"; old_label := "Completeness";
            old_desc := "Coverage"; old_weight := 1 # 2 |} ];
     old_scale := {| scale_min := 1; scale_max := 10 |};
     overall_method := "weighted_mean";
     old_thresholds := {| pass := 13 # 2; revise := 5 |} |}.

Definition short_transcript : text := list_ascii_of_string "Welcome to the demo.".

(** 4001 and 10000 characters. *)
Definition long_transcript : text := repeat "a"%char 4001.
Definition very_long_transcript : text := repeat "a"%char (Z.to_nat 10000).

(** The scorer that is not there. *)
Definition no_scorer : Scorer := fun _ => None.

Definition entry (s c : Q) (n : string) : ScoreData :=
  {| score := Some s; confidence := Some c; note := Some n |}.

Definition answer (scores : gmap string ScoreData) (o : option Overall)
    (c : option CategoryResult) : EvalResult :=
  {| scores := Some scores; overall := o; categories := None; category := c;
     short_summary := Some "ok"%string |}.

(** A per-category answer whose scores are in range and whose category
    block claims 999 points out of 55. *)
Definition overshooting_scorer : Scorer := fun _ =>
  Some (answer (list_to_map (map (fun cid => (cid, entry 5 8 "good")) eleven_ids))
          None
          (Some {| points := 999; max_points := 55; percentage := 100 |})).

(** An answer with an entry that has no ["confidence"]. *)
Definition incomplete_scorer : Scorer := fun _ =>
  Some (answer {[ "c01"%string := {| score := Some 4%Q; confidence := None;
                                     note := Some "fine"%string |} ]}
          None None).

(** Two answers to the single call of the flat format that differ in
    ["overall"] only. *)
Definition flat_scores : gmap string ScoreData :=
  {[ "clarity"%string := entry 999 9 "great";
     "completeness"%string := entry 2 9 "thin" ]}.

Definition flat_overall (w : Q) (status : string) : Overall :=
  {| total_points := None; overall_max_points := None;
     overall_percentage := None; pass_status := Some status;
     weighted_score := Some w; method := Some "weighted_mean"%string |}.

Definition flat_scorer (w : Q) (status : string) : Scorer := fun _ =>
  Some (answer flat_scores (Some (flat_overall w status)) None).

(** Two chunk results that score ["clarity"] 2 and 3. *)
Definition chunk_result (s : Q) : EvalResult :=
  answer {[ "clarity"%string := entry s 7 "n";
            "completeness"%string := entry 6 5 "" ]} None None.

End Examples.

(** ** Sample answers *)

Module JsonExamples.
Import Rubric Json Examples.

Definition jentry (score confidence : json) (note : string) : json :=
  JObj [("score"%string, score); ("confidence"%string, confidence);
        ("note"%string, JStr note)].

(** An answer for [rubric2] that overshoots, with a score at a tie and
    an ["overall"] of its own. *)
Definition overshooting_scores : list (string * json) :=
  [("clarity"%string, jentry (JNum 999) (JNum 9) "great");
   ("depth"%string, jentry (JNum (5 # 2)) (JNum 12) "so-so")].

Definition overshooting_fields : list (string * json) :=
  [("scores"%string, JObj overshooting_scores);
   ("overall"%string,
    JObj [("total_points"%string, JNum 1000); ("pass_status"%string, JStr "pass")]);
   ("short_summary"%string, JStr "ok")].

(** An answer whose first confidence is [null]. *)
Definition null_confidence_answer : json :=
  JObj [("scores"%string,
         JObj [("clarity"%string, jentry (JNum 3) JNull "fine");
               ("depth"%string, jentry (JNum 999) (JNum 12) "great")]);
        ("overall"%string,
         JObj [("total_points"%string, JNum 1000);
               ("pass_status"%string, JStr "pass")])].

(** An answer that scores an id the rubric does not have, and the same
    after an entry whose confidence is [null]. *)
Definition scores_with_unknown_id : list (string * json) :=
  [("clarity"%string, jentry (JNum 4) (JNum 8) "clear");
   ("charisma"%string, jentry (JNum 9) (JNum 9) "not in the rubric")].

Definition fields_with_unknown_id : list (string * json) :=
  [("scores"%string, JObj scores_with_unknown_id)].

Definition unknown_id_after_null : json :=
  JObj [("scores"%string,
         JObj [("clarity"%string, jentry (JNum 4) JNull "clear");
               ("charisma"%string, jentry (JNum 9) (JNum 9) "not in the rubric")])].

(** An answer to a chunk of a flat evaluation. *)
Definition flat_chunk_scores : list (string * json) :=
  [("clarity"%string, jentry (JNum 8) (JNum 9) "clear");
   ("completeness"%string, jentry (JNum 9) (JNum 7) "complete")].

Definition flat_chunk_fields : list (string * json) :=
  [("scores"%string, JObj flat_chunk_scores);
   ("overall"%string,
    JObj [("weighted_score"%string, JNum (17 # 2));
          ("pass_status"%string, JStr "pass")])].

End JsonExamples.

(** ** Strings as Python splits and joins them *)

Module PyText.

(** [s.split()]: the maximal runs of characters that are not
    whitespace; [cur] is the run being read, last character first. *)
Fixpoint split_from (cur : text) (s : text) : list text :=
  match s with
  | [] => match cur with [] => [] | _ :: _ => [rev cur] end
  | c :: rest =>
      if isspace c
      then match cur with
           | [] => split_from [] rest
           | _ :: _ => rev cur :: split_from [] rest
           end
      else split_from (c :: cur) rest
  end.

Definition split (s : text) : list text := split_from [] s.

(** [sep.join(parts)] on texts. *)
Fixpoint join_text (sep : text) (parts : list text) : text :=
  match parts with
  | [] => []
  | [p] => p
  | p :: rest => p ++ sep ++ join_text sep rest
  end.

(** [round(x, digits)]: ties to even on the exact value. *)
Definition py_round_to (digits : nat) (x : Q) : Q :=
  Qred (py_round (x * inject_Z (10 ^ Z.of_nat digits)) # Pos.pow 10 (Pos.of_nat digits)).

(** [sorted(xs, key=key, reverse=True)]: descending, and stable: items
    with equal keys keep the order they had. *)
Fixpoint insert_desc {A} (key : A -> Q) (x : A) (l : list A) : list A :=
  match l with
  | [] => [x]
  | y :: rest =>
      if Rubric.Qltb (key x) (key y) then y :: insert_desc key x rest
      else x :: l
  end.

Definition sorted_desc {A} (key : A -> Q) (l : list A) : list A :=
  fold_right (insert_desc key) [] l.

End PyText.

(** ** Transcripts: quality, highlights and the summary *)

Module Transcript.
Import PyText.

(** A word of a Whisper segment and a segment, with the keys that the
    evaluator reads; every key is optional ([s.get(...)]). *)
Record Word := { word_confidence : option Q }.

Record Segment := {
  words : option (list Word);
  seg_text : option text;
  avg_logprob : option Q;
  compression_ratio : option Q;
  no_speech_prob : option Q
}.

Record Quality := {
  avg_confidence : Q;
  avg_compression_ratio : Q;
  speech_percentage : Q;
  quality_rating : string;
  warnings : list string;
  (** ['details']: [avg_logprob] and [num_segments] *)
  details : option (Q * Z)
}.

(** [sum(xs) / len(xs) if xs else 0.0] *)
Definition mean_or_zero (xs : list Q) : Q :=
  match xs with
  | [] => 0%Q
  | _ :: _ => (Qsum xs / inject_Z (Z.of_nat (length xs)))%Q
  end.

Definition _calculate_transcription_quality (segments : list Segment) : Quality :=
  match segments with
  | [] =>
      {| avg_confidence := 0; avg_compression_ratio := 0; speech_percentage := 0;
         quality_rating := "unknown";
         warnings := ["No segments available"%string];
         details := None |}
  | _ :: _ =>
      let logprobs := omap avg_logprob segments in
      let compression_ratios := omap compression_ratio segments in
      let no_speech_probs := omap no_speech_prob segments in
      let avg_logprob := mean_or_zero logprobs in
      let avg_compression := mean_or_zero compression_ratios in
      let avg_no_speech := mean_or_zero no_speech_probs in
      let avg_confidence :=
        Qmax 0 (Result.Qmin 100 ((avg_logprob + (15 # 10)) * (6667 # 100)))%Q in
      let speech_percentage := ((1 - avg_no_speech) * 100)%Q in
      let warnings :=
        (if Rubric.Qltb avg_confidence 50
         then ["Low transcription confidence - audio may be unclear"%string]
         else [])
        ++ (if Rubric.Qltb (25 # 10) avg_compression
            then ["High compression ratio - transcript may contain repetitions"%string]
            else [])
        ++ (if Rubric.Qltb speech_percentage 70
            then ["Low speech detection - audio may contain long silences or background noise"%string]
            else []) in
      let quality_rating :=
        if Qgeb avg_confidence 80 && Qgeb speech_percentage 85
           && Rubric.Qltb avg_compression 2
        then "high"%string
        else if Qgeb avg_confidence 60 && Qgeb speech_percentage 70
        then "medium"%string
        else "low"%string in
      {| avg_confidence := py_round_to 1 avg_confidence;
         avg_compression_ratio := py_round_to 2 avg_compression;
         speech_percentage := py_round_to 1 speech_percentage;
         quality_rating := quality_rating;
         warnings := warnings;
         details :=
           Some (py_round_to 3 avg_logprob, Z.of_nat (length segments)) |}
  end.

(** The heuristic score of [pick_highlights]: the number of words of
    low confidence plus a hundredth of the number of words of the text. *)
Definition highlight_score (s : Segment) : Q :=
  let ws := default [] (words s) in
  let low_conf :=
    length (List.filter
              (fun w => Rubric.Qltb (default 1%Q (word_confidence w)) (8 # 10)) ws) in
  (inject_Z (Z.of_nat low_conf)
   + inject_Z (Z.of_nat (length (split (default [] (seg_text s))))) / 100)%Q.

Definition pick_highlights (segments : list Segment) (top_k : Z) : list Segment :=
  slice (sorted_desc highlight_score segments) 0 top_k.

(** [summarize_transcript]: the answer of the model when there is
    one, the first 120 words otherwise. *)
Definition summarize_transcript (answer : option text) (transcript : text) : text :=
  match answer with
  | Some summary => summary
  | None =>
      join_text (list_ascii_of_string " ") (firstn 120 (split transcript))
      ++ (if (120 <? length (split transcript))%nat
          then list_ascii_of_string "..." else [])
  end.

End Transcript.

(** ** Rubric files: [list_available_rubrics] *)

Module RubricFiles.
Import Rubric.

(** Whether [validate_rubric] returns [(True, None)] on a document;
    [None] is a document that it refuses for its keys or for the types
    of its values. *)
Definition is_valid (document : option Rubric.t) : bool :=
  match document with
  | Some rubric =>
      match validate_rubric rubric with Valid => true | Invalid _ => false end
  | None => false
  end.

(** A JSON file of the rubrics directory: its stem and what
    [json.load] gives, [None] when reading it raises; of a document,
    the rubric and the keys that the listing reads. *)
Record Document := {
  document : option Rubric.t;
  status : option string;
  doc_name : option string;
  doc_description : option string
}.

Record RubricFile := {
  stem : string;
  rubric_data : option Document
}.

Record Listing := {
  filename : string;
  name : string;
  description : string
}.

(** The first loop: the valid rubrics marked as current. *)
Definition available_file (rubric_file : RubricFile) : option Listing :=
  match rubric_data rubric_file with
  | Some data =>
      if is_valid (document data)
         && bool_decide (status data = Some "current"%string)
      then Some {| filename := stem rubric_file;
                   name := default (stem rubric_file) (doc_name data);
                   description :=
                     default "No description available"%string
                       (doc_description data) |}
      else None
  | None => None
  end.

(** [while rubric['name'] in seen_names: rubric['name'] = ...] *)
Fixpoint rename_until_new (fuel : nat) (seen_names : gset string)
    (original_name filename_ name_ : string) : option string :=
  match fuel with
  | O => None
  | S fuel' =>
      if decide (name_ ∈ seen_names)
      then rename_until_new fuel' seen_names original_name filename_
             (original_name +:+ " (" +:+ filename_ +:+ ")")
      else Some name_
  end.

(** The second loop, over the listed rubrics. *)
Fixpoint dedupe_names (fuel : nat) (seen_names : gset string)
    (rubrics : list Listing) : option (list Listing) :=
  match rubrics with
  | [] => Some []
  | rubric :: rest =>
      match rename_until_new fuel seen_names (name rubric) (filename rubric)
              (name rubric) with
      | None => None
      | Some new_name =>
          option_map
            (cons {| filename := filename rubric; name := new_name;
                     description := description rubric |})
            (dedupe_names fuel ({[new_name]} ∪ seen_names) rest)
      end
  end.

Definition sample_listing : Listing :=
  {| filename := "sample-rubric"; name := "Sample Rubric";
     description := "Built-in sample rubric" |}.

(** [list_available_rubrics] on the JSON files of the directory in
    sorted order (none when the directory does not exist); [None] when
    a [while] loop does not end within [fuel] tests. *)
Definition list_available_rubrics (fuel : nat) (files : list RubricFile)
    : option (list Listing) :=
  match dedupe_names fuel ∅ (omap available_file files) with
  | None => None
  | Some available =>
      Some (if negb (existsb (fun r => String.eqb (filename r) "sample-rubric")
                       available)
            then sample_listing :: available
            else available)
  end.

End RubricFiles.

(** ** Qualitative feedback: [generate_qualitative_feedback] *)

Module Feedback.
Import Rubric Result PyText.

Record Item := { title : string; item_description : string }.

(** The answer of the model as [json.loads] gives it, and the result. *)
Record FeedbackData := {
  strengths : option (list Item);
  improvements : option (list Item);
  tone : option string
}.

Section Feedback.
(** [str.title] and the text of a number in an f-string, which are
    not modelled. *)
Variable title_case : string -> string.
Variable format_number : Q -> string.

(** [criterion_id.replace('_', ' ')] *)
Fixpoint replace_underscores (s : string) : string :=
  match s with
  | EmptyString => EmptyString
  | String c rest =>
      String (if Ascii.eqb c "_" then " "%char else c) (replace_underscores rest)
  end.

(** The map from criterion ids to labels, for both formats. *)
Definition criterion_labels (rubric : Rubric.t) : gmap string string :=
  match rubric with
  | New r =>
      fold_left (fun m category =>
                   fold_left (fun m c => <[criterion_id c := criterion_label c]> m)
                     (criteria category) m)
        (Rubric.categories r) ∅
  | Old r =>
      fold_left (fun m c => <[old_id c := old_label c]> m) (old_criteria r) ∅
  end.

Definition label_of (rubric : Rubric.t) (criterion_id : string) : string :=
  default (title_case (replace_underscores criterion_id))
    (criterion_labels rubric !! criterion_id).

(** [sorted(scores.items(), key=lambda x: x[1].get('score', 0), reverse=True)] *)
Definition sorted_scores (scores : list (string * ScoreData))
    : list (string * ScoreData) :=
  sorted_desc (fun x => default 0%Q (score (snd x))) scores.

Definition strength_of (rubric : Rubric.t) (x : string * ScoreData) : Item :=
  {| title := label_of rubric (fst x);
     item_description :=
       "You scored " +:+ format_number (default 0%Q (score (snd x))) +:+ "/10. "
       +:+ default "Good performance in this area."%string (note (snd x)) |}.

Definition improvement_of (rubric : Rubric.t) (x : string * ScoreData) : Item :=
  {| title := label_of rubric (fst x);
     item_description :=
       "You scored " +:+ format_number (default 0%Q (score (snd x)))
       +:+ "/10. Consider focusing on improving this aspect." |}.

(** [scores] is [evaluation['scores'].items()], in the order of the
    dict; [pass_status] is [evaluation['overall']['pass_status']] when
    there is one; [answer] is the parsed answer of the model, [None]
    when the call fails. *)
Definition generate_qualitative_feedback (rubric : Rubric.t)
    (scores : list (string * ScoreData)) (pass_status : option string)
    (answer : option FeedbackData) : FeedbackData :=
  let pass_status := default "fail"%string pass_status in
  let is_passing := String.eqb pass_status "pass" in
  let tone := if is_passing then "congratulatory"%string else "supportive"%string in
  match answer with
  | Some feedback_data =>
      {| strengths := strengths feedback_data;
         improvements := improvements feedback_data;
         tone := Some tone |}
  | None =>
      let sorted := sorted_scores scores in
      {| strengths := Some (map (strength_of rubric) (slice sorted 0 2));
         improvements :=
           Some (map (improvement_of rubric)
                   (slice sorted (-2) (Z.of_nat (length sorted))));
         tone := Some tone |}
  end.

End Feedback.
End Feedback.

(** ** The id of a new rubric ([pages/4_Create_Rubric.py]) *)

Module RubricId.
Import Py.

Definition dash : ascii := "-"%char.

(** [s.replace(a, b)] for single characters. *)
Definition replace_char (a b : ascii) (s : text) : text :=
  map (fun c => if Ascii.eqb c a then b else c) s.

(** ['--' in s] *)
Fixpoint has_dashes (s : text) : bool :=
  match s with
  | c1 :: ((c2 :: _) as rest) =>
      (Ascii.eqb c1 dash && Ascii.eqb c2 dash) || has_dashes rest
  | _ => false
  end.

(** [s.replace('--', '-')]: from the left, without overlap. *)
Fixpoint replace_dashes (s : text) : text :=
  match s with
  | c1 :: ((c2 :: rest) as rest1) =>
      if Ascii.eqb c1 dash && Ascii.eqb c2 dash
      then dash :: replace_dashes rest
      else c1 :: replace_dashes rest1
  | _ => s
  end.

(** [while '--' in base_id: base_id = base_id.replace('--', '-')] *)
Fixpoint collapse_dashes (fuel : nat) (base_id : text) : option text :=
  match fuel with
  | O => None
  | S fuel =>
      if has_dashes base_id then collapse_dashes fuel (replace_dashes base_id)
      else Some base_id
  end.

(** [s.strip('-')] *)
Fixpoint lstrip_dashes (s : text) : text :=
  match s with
  | [] => []
  | c :: rest => if Ascii.eqb c dash then lstrip_dashes rest else s
  end.

Definition strip_dashes (s : text) : text :=
  rev (lstrip_dashes (rev (lstrip_dashes s))).

(** [f"{base_id}-{counter}"] *)
Definition numbered (base_id : text) (counter : Z) : text :=
  base_id ++ dash :: list_ascii_of_string (str counter).

Section RubricId.
(** [str.lower] and, on one character, [str.isalnum]. *)
Variable lower : text -> text.
Variable isalnum : ascii -> bool.
(** The ids in use: the file names that [list_available_rubrics] of
    [rubric_helper] gives, without ["-rubric"] and [".json"]. *)
Variable existing_ids : list text.

(** [while rubric_id in existing_ids: ...] *)
Fixpoint first_free (fuel : nat) (base_id rubric_id : text) (counter : Z)
    : option text :=
  match fuel with
  | O => None
  | S fuel =>
      if bool_decide (rubric_id ∈ existing_ids)
      then first_free fuel base_id (numbered base_id counter) (counter + 1)
      else Some rubric_id
  end.

(** The slug of a name, before the search for a free id. *)
Definition base_id_of (fuel : nat) (name : text) : option text :=
  let base_id := replace_char "_" dash (replace_char " " dash (lower name)) in
  let base_id := List.filter (fun c => isalnum c || Ascii.eqb c dash) base_id in
  option_map strip_dashes (collapse_dashes fuel base_id).

(** [None] when a loop does not end within [fuel] turns. *)
Definition generate_rubric_id (fuel : nat) (name : text) : option text :=
  match name with
  | [] => Some []
  | _ :: _ =>
      match base_id_of fuel name with
      | Some base_id => first_free fuel base_id base_id 1
      | None => None
      end
  end.

End RubricId.
End RubricId.

(** ** More sample inputs *)

Module MoreExamples.
Import Rubric Transcript RubricFiles Examples.

(** A segment with two doubtful words and one of five plain words. *)
Definition doubtful_segment : Segment :=
  {| words := Some [ {| word_confidence := Some (5 # 10) |};
                     {| word_confidence := Some (6 # 10) |};
                     {| word_confidence := None |} ];
     seg_text := Some (list_ascii_of_string "so um yes");
     avg_logprob := Some (- (12 # 10))%Q;
     compression_ratio := Some (18 # 10);
     no_speech_prob := Some (1 # 10) |}.

Definition plain_segment : Segment :=
  {| words := None;
     seg_text := Some (list_ascii_of_string "this is the main screen");
     avg_logprob := Some (- (2 # 10))%Q;
     compression_ratio := Some (16 # 10);
     no_speech_prob := Some (1 # 100) |}.

(** A current rubric file called ["Demo"]. *)
Definition demo_file (stem_ : string) : RubricFile :=
  {| stem := stem_;
     rubric_data :=
       Some {| document := Some (New rubric2);
               status := Some "current"%string;
               doc_name := Some "Demo"%string;
               doc_description := None |} |}.

(** The results of two chunks, the second of which is the
    conservative one. *)
Definition chunk_results_with_fallback : list Result.EvalResult :=
  match Evaluator._fallback_single_chunk_evaluation rubric2 with
  | Ok fallback => [chunk_result 2; fallback]
  | Raise _ => []
  end.

End MoreExamples.

(** ** Scorers that tell what they are asked *)

Module DecompositionExamples.
Import Rubric Result Scoring Examples.

Definition transcript_3500 : text := repeat "a"%char (Z.to_nat 3500).

(** A scorer that answers the single call only, and only when the
    excerpt in the prompt has [n] characters. *)
Definition simple_scorer_on (n : nat) : Scorer := fun call =>
  match call with
  | SimpleCall excerpt =>
      if (length excerpt =? n)%nat
      then Some (answer {[ "clarity"%string := entry 4 8 "clear";
                           "depth"%string := entry 3 6 "thin" ]} None None)
      else None
  | _ => None
  end.

(** The same for the calls per category. *)
Definition category_scorer_on (n : nat) : Scorer := fun call =>
  match call with
  | CategoryCall _ excerpt =>
      if (length excerpt =? n)%nat
      then Some (answer (list_to_map (map (fun cid => (cid, entry 4 8 "good"))
                                        eleven_ids))
                   None
                   (Some {| points := 44; max_points := 55; percentage := 80 |}))
      else None
  | _ => None
  end.

(** A scorer that answers every call but the single one. *)
Definition all_but_simple : Scorer := fun call =>
  match call with
  | SimpleCall _ => None
  | _ => Some (answer {[ "clarity"%string := entry 4 8 "clear";
                         "depth"%string := entry 3 6 "thin" ]} None None)
  end.

End DecompositionExamples.

(* ================================================================= *)
(** * Properties *)


(** ** The chunker *)

Module ChunkerFacts.
Import Chunker.

Lemma lstrip_nil (s : text) : lstrip s = [] <-> forallb isspace s = true.
Proof.
  induction s as [|c s IH]; simpl; [tauto|].
  destruct (isspace c) eqn:Hc; simpl; [exact IH|].
  split; discriminate.
Qed.

Lemma lstrip_head (s : text) c r : lstrip s = c :: r -> isspace c = false.
Proof.
  induction s as [|a s IH]; simpl; [discriminate|].
  destruct (isspace a) eqn:Ha; [exact IH|].
  intros [= -> _]. exact Ha.
Qed.

Lemma forallb_rev {A} (f : A -> bool) (l : list A) :
  forallb f (rev l) = forallb f l.
Proof.
  induction l as [|a l IH]; simpl; [reflexivity|].
  rewrite forallb_app, IH. simpl. rewrite andb_true_r. apply andb_comm.
Qed.

Lemma strip_nil (s : text) : strip s = [] <-> forallb isspace s = true.
Proof.
  unfold strip, rstrip. split.
  - intros H. apply (f_equal (@rev ascii)) in H. rewrite rev_involutive in H.
    simpl in H. apply lstrip_nil in H. rewrite forallb_rev in H.
    destruct (lstrip s) as [|c r] eqn:Hs; [now apply lstrip_nil|].
    apply lstrip_head in Hs. simpl in H. rewrite Hs in H. discriminate.
  - intros H. apply lstrip_nil in H. rewrite H. reflexivity.
Qed.

Lemma truthy_strip_false (s : text) :
  truthy (strip s) = false <-> forallb isspace s = true.
Proof.
  rewrite <- strip_nil. destruct (strip s); simpl; split; congruence.
Qed.

Section Loop.
Variable transcript : text.
Variable chunk_size overlap : Z.

Abbreviation len := (len transcript).
Abbreviation window_end := (window_end transcript chunk_size).
Abbreviation chunk_loop := (chunk_loop transcript chunk_size overlap).

Lemma last_In {A} (l : list A) x : last l = Some x -> In x l.
Proof.
  intros H. apply last_Some in H as [l' ->].
  apply in_or_app. right. now left.
Qed.

Lemma range_In lo hi i : In i (range lo hi) -> lo <= i < hi.
Proof.
  unfold range. rewrite in_map_iff. intros (k & <- & Hk).
  apply in_seq in Hk. lia.
Qed.

(** Every window is at least one character wide. *)
Lemma window_end_gt start : 0 < chunk_size -> start < window_end start.
Proof.
  intros Hcs. unfold Chunker.window_end.
  destruct (start + chunk_size <? len); [|lia].
  destruct (last _) as [b|] eqn:Hb; [|lia].
  apply last_In in Hb. unfold break_candidates in Hb.
  rewrite in_map_iff in Hb. destruct Hb as (i & <- & Hi).
  apply filter_In in Hi as [Hi _]. apply range_In in Hi. lia.
Qed.

(** The loop ends by itself: the start position grows at each turn,
    so [len - start] turns are enough. *)
Lemma chunk_loop_terminates fuel start :
  (0 < fuel)%nat -> len - start <= Z.of_nat fuel ->
  exists chunks, chunk_loop fuel start = Some chunks.
Proof.
  revert start. induction fuel as [|fuel IH]; intros start Hpos Hfuel; [lia|].
  simpl. destruct (start <? len) eqn:Hlt; [|eauto].
  destruct (len <=? _) eqn:Hbrk; [eauto|].
  apply Z.ltb_lt in Hlt. apply Z.leb_gt in Hbrk.
  destruct (IH (Z.max (start + 1) (window_end start - overlap))) as [r Hr];
    [lia|lia|].
  rewrite Hr. simpl. eauto.
Qed.

Lemma slice_In {A} (s : list A) a b x : In x (slice s a b) -> In x s.
Proof.
  unfold slice. intros H. apply list_elem_of_In in H.
  apply list_elem_of_In.
  eapply subseteq_drop, subseteq_take, H.
Qed.

Lemma slice_forallb {A} (f : A -> bool) (s : list A) a b d i :
  0 <= a -> forallb f (slice s a b) = true ->
  a <= i < b -> i < Z.of_nat (length s) ->
  f (nth (Z.to_nat i) s d) = true.
Proof.
  intros Ha H Hi Hlen. unfold slice, slice_index in H.
  destruct (a <? 0) eqn:Ea; [lia|]. destruct (b <? 0) eqn:Eb; [lia|].
  rewrite forallb_forall in H. apply H.
  replace (nth (Z.to_nat i) s d)
    with (nth (Z.to_nat (i - a))
            (firstn (Z.to_nat (Z.min b (Z.of_nat (length s)) - Z.min a (Z.of_nat (length s))))
               (skipn (Z.to_nat (Z.min a (Z.of_nat (length s)))) s)) d).
  - apply nth_In. rewrite length_firstn, length_skipn. lia.
  - rewrite nth_firstn.
    destruct (Nat.ltb_spec (Z.to_nat (i - a))
                (Z.to_nat (Z.min b (Z.of_nat (length s)) - Z.min a (Z.of_nat (length s)))));
      [|lia].
    rewrite nth_skipn. f_equal. lia.
Qed.

Hypothesis chunk_size_pos : 0 < chunk_size.
Hypothesis overlap_nonneg : 0 <= overlap.

(** No chunk is produced only if everything from [start] on is
    whitespace: consecutive windows leave no gap. *)
Lemma chunk_loop_nil fuel start :
  0 <= start -> chunk_loop fuel start = Some [] ->
  forall i, start <= i < len ->
    isspace (nth (Z.to_nat i) transcript "000"%char) = true.
Proof.
  revert start. induction fuel as [|fuel IH]; intros start Hs H i Hi;
    [discriminate|].
  simpl in H. destruct (start <? len) eqn:Hlt; [|apply Z.ltb_ge in Hlt; lia].
  pose proof (window_end_gt start chunk_size_pos) as Hw.
  set (e := window_end start) in *.
  destruct (truthy (strip (slice transcript start e))) eqn:Ht.
  { destruct (len <=? _); [discriminate|].
    destruct (chunk_loop fuel _); simpl in H; discriminate. }
  apply truthy_strip_false in Ht.
  destruct (Z_lt_le_dec i e) as [Hie|Hie].
  { eapply slice_forallb; [exact Hs | exact Ht | lia | unfold Chunker.len in Hi; lia]. }
  destruct (len <=? Z.max (start + 1) (e - overlap)) eqn:Hbrk.
  { apply Z.leb_le in Hbrk. lia. }
  destruct (chunk_loop fuel (Z.max (start + 1) (e - overlap))) as [r|] eqn:Hr;
    simpl in H; [|discriminate].
  injection H as ->. eapply IH; [| exact Hr |]; lia.
Qed.

(** Conversely a text of whitespace yields no chunk at all. *)
Lemma chunk_loop_spaces fuel start chunks :
  forallb isspace transcript = true ->
  chunk_loop fuel start = Some chunks -> chunks = [].
Proof.
  intros Hsp. revert start chunks.
  induction fuel as [|fuel IH]; intros start chunks H; [discriminate|].
  simpl in H. destruct (start <? len); [|congruence].
  assert (Ht : truthy (strip (slice transcript start (window_end start))) = false).
  { apply truthy_strip_false. apply forallb_forall. intros x Hx.
    apply slice_In in Hx. rewrite forallb_forall in Hsp. auto. }
  rewrite Ht in H. destruct (len <=? _); [congruence|].
  destruct (chunk_loop fuel _) as [r|] eqn:Hr; simpl in H; [|discriminate].
  apply IH in Hr. congruence.
Qed.
End Loop.
End ChunkerFacts.

(** C7, as amended: for every text, every [chunk_size > 0] and every
    [overlap >= 0] (also [overlap >= chunk_size]) the chunker terminates
    and returns a finite list of chunks; the list is empty exactly when
    the text is longer than [chunk_size] and made of whitespace only
    (stripped chunks that are empty are dropped), and non-empty in every
    other case. *)
Theorem C7_chunker_terminates (transcript : text) (chunk_size overlap : Z) :
  0 < chunk_size -> 0 <= overlap ->
  exists chunks,
    Chunker._chunk_transcript transcript chunk_size overlap = Some chunks /\
    (chunks = [] <->
     chunk_size < Chunker.len transcript /\ forallb isspace transcript = true).
Proof.
  intros Hcs Hov. unfold Chunker._chunk_transcript.
  destruct (Chunker.len transcript <=? chunk_size) eqn:Hle.
  - apply Z.leb_le in Hle. eexists; split; [reflexivity|].
    split; [discriminate|lia].
  - apply Z.leb_gt in Hle.
    destruct (ChunkerFacts.chunk_loop_terminates transcript chunk_size overlap
                (length transcript) 0) as [chunks Hc];
      [unfold Chunker.len in Hle; lia | unfold Chunker.len; lia |].
    exists chunks; split; [exact Hc|]. split.
    + intros ->. split; [exact Hle|].
      apply forallb_forall. intros c Hin.
      destruct (In_nth _ _ "000"%char Hin) as (n & Hn & <-).
      pose proof (ChunkerFacts.chunk_loop_nil transcript chunk_size overlap
                    Hcs Hov _ 0 ltac:(lia) Hc (Z.of_nat n)) as H.
      rewrite Nat2Z.id in H. apply H. unfold Chunker.len. lia.
    + intros [_ Hsp].
      eapply ChunkerFacts.chunk_loop_spaces; eauto.
Qed.

Lemma C7_chunker_terminates_witness :
  exists chunks,
    Chunker._chunk_transcript (list_ascii_of_string "One. Two! Three") 6 9
      = Some chunks /\
    (chunks = [] <->
     6 < Chunker.len (list_ascii_of_string "One. Two! Three") /\
     forallb isspace (list_ascii_of_string "One. Two! Three") = true).
Proof.
  apply (C7_chunker_terminates (list_ascii_of_string "One. Two! Three") 6 9); lia.
Defined.

(** C7 fails as stated: a text of two blanks with [chunk_size = 1] and
    [overlap = 0] is chunked into the empty list. *)
Lemma C7_chunker_empty_counterexample :
  ~ (forall (transcript : text) (chunk_size overlap : Z),
        0 < chunk_size -> 0 <= overlap ->
        exists chunks,
          Chunker._chunk_transcript transcript chunk_size overlap = Some chunks /\
          chunks <> []).
Proof.
  intros H.
  destruct (H (list_ascii_of_string "  ") 1 0) as (chunks & Hc & Hne); [lia..|].
  vm_compute in Hc. injection Hc as <-. now apply Hne.
Qed.

(** ** Evaluations at concrete inputs *)

Import Rubric Result Scoring Evaluator Examples.

(** C1, at a failing input.  [rubric11] is accepted by the validator, has
    eleven criteria, and the transcript is short, so every category is
    scored by one call; the answer claims 999 points for a category of 55
    and the result says so: [points > max_points], and the total is 999
    out of 55. *)
Theorem C1_category_points_exceed_max :
  validate_rubric (New rubric11) = Valid /\
  exists r cats block o,
    evaluate_transcript_with_rubric (New rubric11) overshooting_scorer
      short_transcript = Ok r /\
    Result.categories r = Some cats /\
    cats !! "content"%string = Some block /\
    points block = 999%Q /\ Result.max_points block = 55%Q /\
    overall r = Some o /\
    total_points o = Some 999%Q /\ overall_max_points o = Some 55%Q.
Proof.
  split; [vm_compute; reflexivity|].
  eexists _, _, _, _.
  split; [vm_compute; reflexivity|]. split; [reflexivity|].
  split; [vm_compute; reflexivity|]. repeat split; reflexivity.
Qed.

(** C5, at two failing inputs.  With [rubric11_bare], which the validator
    accepts, and no scorer at all, the evaluation of a short transcript
    raises [KeyError]; with [rubric11] and a long transcript, an answer
    whose entry has no ["confidence"] makes the evaluation raise
    [KeyError] too. *)
Theorem C5_evaluation_raises :
  validate_rubric (New rubric11_bare) = Valid /\
  evaluate_transcript_with_rubric (New rubric11_bare) no_scorer short_transcript
    = Raise (KeyError "desc") /\
  validate_rubric (New rubric11) = Valid /\
  evaluate_transcript_with_rubric (New rubric11) incomplete_scorer long_transcript
    = Raise (KeyError "confidence").
Proof.
  split; [vm_compute; reflexivity|]. split; [vm_compute; reflexivity|].
  split; vm_compute; reflexivity.
Qed.

(** C6, at a failing input: the categories of [rubric11] sum to 55
    points, its scale stops at 10, and the validator accepts it. *)
Theorem C6_validator_ignores_scale_max :
  validate_rubric (New rubric11) = Valid /\
  fold_left (fun n c => n + Rubric.max_points c) (Rubric.categories rubric11) 0 = 55 /\
  scale_max (scale rubric11) = 10%Q.
Proof.
  split; [vm_compute; reflexivity|]. split; vm_compute; reflexivity.
Qed.

(** ** The normalizer *)

Module NormalizerFacts.
Import Normalizer.

Lemma insert_fold_lookup {A V} (key : A -> string) (val : A -> V)
    (l : list A) (m0 : gmap string V) cid v :
  fold_left (fun m c => <[key c := val c]> m) l m0 !! cid = Some v ->
  m0 !! cid = Some v \/ exists c, In c l /\ key c = cid /\ v = val c.
Proof.
  revert m0. induction l as [|a l IH]; intros m0 H; simpl in H; [now left|].
  apply IH in H as [H|(c & Hc & Hk & Hv)].
  - destruct (decide (key a = cid)) as [<-|Hne].
    + rewrite lookup_insert_eq in H. injection H as <-.
      right. exists a. split; [now left|auto].
    + rewrite lookup_insert_ne in H by exact Hne. now left.
  - right. exists c. split; [now right|auto].
Qed.

Lemma nested_insert_lookup {V} (f : Category -> Criterion -> V)
    (cats : list Category) (m0 : gmap string V) cid v :
  fold_left (fun m category =>
               fold_left (fun m c => <[criterion_id c := f category c]> m)
                 (criteria category) m) cats m0 !! cid = Some v ->
  m0 !! cid = Some v \/
  exists category c, In category cats /\ In c (criteria category) /\
                     criterion_id c = cid /\ v = f category c.
Proof.
  revert m0. induction cats as [|a cats IH]; intros m0 H; simpl in H; [now left|].
  apply IH in H as [H|(category & c & Hcat & Hc)].
  - apply (insert_fold_lookup criterion_id (f a)) in H as [H|(c & Hc & Hk & Hv)];
      [now left|].
    right. exists a, c. split; [now left|auto].
  - right. exists category, c. split; [now right|auto].
Qed.

Lemma declares_true cats category c :
  In category cats -> In c (criteria category) ->
  declares cats (criterion_id c) = true.
Proof.
  intros Hcat Hc. unfold declares. apply existsb_exists.
  exists category. split; [exact Hcat|]. apply existsb_exists.
  exists c. split; [exact Hc|]. apply String.eqb_refl.
Qed.

Lemma crit_max_declared rubric cid m :
  crit_max rubric !! cid = Some m ->
  exists category c,
    In category (get_categories rubric) /\ In c (criteria category) /\
    criterion_id c = cid /\ m = criterion_max_points c.
Proof.
  intros H.
  apply (nested_insert_lookup (fun _ c => criterion_max_points c)) in H
    as [H|H]; [|exact H].
  rewrite lookup_empty in H. discriminate.
Qed.

Lemma crit_to_cat_declared rubric cid cat_id :
  crit_to_cat rubric !! cid = Some cat_id ->
  declares (get_categories rubric) cid = true.
Proof.
  intros H.
  apply (nested_insert_lookup (fun category _ => category_id category)) in H
    as [H|(category & c & ? & ? & <- & _)].
  - rewrite lookup_empty in H. discriminate.
  - eauto using declares_true.
Qed.

Lemma Qplus_swap (p a b : Q) : (p + a + b = p + b + a)%Q.
Proof.
  destruct p as [pn pd], a as [an ad], b as [bn bd].
  unfold Qplus; simpl. f_equal; [|lia].
  rewrite !Pos2Z.inj_mul. ring.
Qed.

End NormalizerFacts.

(** ** Aggregation of chunk results *)

Module AggregationFacts.

Lemma dict_from_keys_lookup {A} (f : string -> A) (keys : gset string) k :
  dict_from_keys f keys !! k = if decide (k ∈ keys) then Some (f k) else None.
Proof.
  unfold dict_from_keys. rewrite map_lookup_imap, lookup_gset_to_gmap.
  destruct (decide (k ∈ keys)) as [Hin|Hout].
  - rewrite option_guard_True by exact Hin. reflexivity.
  - rewrite option_guard_False by exact Hout. reflexivity.
Qed.

(** The ids that are aggregated are those with a contribution. *)
Lemma all_criterion_ids_elem (chunk_results : list EvalResult) cid :
  cid ∈ ⋃ (omap (fun result => dom <$> Result.scores result) chunk_results)
  <-> contributions cid chunk_results <> [].
Proof.
  unfold contributions.
  induction chunk_results as [|r rest IH]; simpl.
  - split; [intros H; now apply elem_of_empty in H|congruence].
  - destruct (Result.scores r) as [sc|]; simpl; [|exact IH].
    rewrite elem_of_union, elem_of_dom.
    destruct (sc !! cid) as [d|] eqn:Hd; simpl.
    + split; [discriminate|]. intros _. left. eauto.
    + rewrite IH. split; [intros [[x Hx]|H]; [discriminate|exact H]|auto].
Qed.

Lemma mapM_ok {A B} (f : A -> res B) (l : list A) :
  (forall x, In x l -> exists y, f x = Ok y) -> exists ys, mapM f l = Ok ys.
Proof.
  induction l as [|a l IH]; intros H; simpl; [eauto|].
  destruct (H a) as [y Hy]; [now left|]. rewrite Hy. simpl.
  destruct IH as [ys Hys]; [intros x Hx; apply H; now right|].
  rewrite Hys. simpl. eauto.
Qed.

End AggregationFacts.




(** ** The decomposition decision *)

Import DecompositionExamples.

Lemma new_format_paths (rubric : NewRubric) (scorer : Scorer) (transcript : text) :
  _evaluate_with_new_rubric_format rubric scorer transcript =
    if (10 <? total_criteria rubric) && (4000 <? Z.of_nat (length transcript))
    then _evaluate_transcript_and_category_chunked rubric scorer transcript
    else if 10 <? total_criteria rubric
    then category_only_evaluation rubric scorer transcript
    else if 4000 <? Z.of_nat (length transcript)
    then chunk_only_evaluation rubric scorer transcript
    else single_call_evaluation rubric scorer transcript.
Proof.
  unfold _evaluate_with_new_rubric_format, _evaluate_complex_rubric_chunked,
    _evaluate_simple_rubric, _evaluate_transcript_chunked.
  destruct (10 <? total_criteria rubric), (4000 <? Z.of_nat (length transcript));
    reflexivity.
Qed.

(** *** The calls of each decomposition *)

Module DecompositionFacts.

Lemma for_each_ext_in {A S} (l : list A) (step1 step2 : A -> S -> res S) acc :
  (forall x acc, In x l -> step1 x acc = step2 x acc) ->
  for_each l step1 acc = for_each l step2 acc.
Proof.
  revert acc. induction l as [|a l IH]; intros acc H; simpl; [reflexivity|].
  rewrite H by now left. destruct (step2 a acc); simpl; [|reflexivity].
  apply IH. intros x acc' Hx. apply H. now right.
Qed.

Lemma fold_left_ext_in {A S} (l : list A) (f g : S -> A -> S) acc :
  (forall acc x, In x l -> f acc x = g acc x) ->
  fold_left f l acc = fold_left g l acc.
Proof.
  revert acc. induction l as [|a l IH]; intros acc H; simpl; [reflexivity|].
  rewrite H by now left. apply IH. intros acc' x Hx. apply H. now right.
Qed.

Lemma mapM_ext_in {A B} (f g : A -> res B) (l : list A) :
  (forall x, In x l -> f x = g x) -> mapM f l = mapM g l.
Proof.
  induction l as [|a l IH]; intros H; simpl; [reflexivity|].
  rewrite H by now left. rewrite IH by (intros x Hx; apply H; now right).
  reflexivity.
Qed.

(** [total_criteria] counts the criteria of all the categories. *)
Lemma total_criteria_length (rubric : NewRubric) :
  total_criteria rubric =
  Z.of_nat (length (flat_map criteria (Rubric.categories rubric))).
Proof.
  unfold total_criteria.
  assert (H : forall cats n,
             fold_left (fun n category => n + Z.of_nat (length (criteria category)))
               cats n = n + Z.of_nat (length (flat_map criteria cats))).
  { induction cats as [|a cats IH]; intros n; cbn [fold_left flat_map].
    - cbn [length]. lia.
    - rewrite IH, length_app. lia. }
  rewrite H. lia.
Qed.

Section Paths.
Variable rubric : NewRubric.
Variable scorer : Scorer.
Variable transcript : text.

Abbreviation nobody := (fun _ : Call => @None EvalResult).

Lemma single_call_calls :
  scorer (SimpleCall (slice transcript 0 3000)) = None ->
  single_call_evaluation rubric scorer transcript =
  single_call_evaluation rubric nobody transcript.
Proof. intros H. unfold single_call_evaluation. now rewrite H. Qed.

Lemma chunk_only_calls :
  (forall chunks i chunk,
      Chunker._chunk_transcript transcript 8000 200 = Some chunks ->
      In (i, chunk) (enumerate chunks) ->
      scorer (ChunkCall chunk (i + 1) (Z.of_nat (length chunks))) = None) ->
  chunk_only_evaluation rubric scorer transcript =
  chunk_only_evaluation rubric nobody transcript.
Proof.
  intros H. unfold chunk_only_evaluation, chunks_of.
  destruct (Chunker._chunk_transcript transcript 8000 200) as [chunks|];
    [|reflexivity].
  cbn [bind]. f_equal. apply mapM_ext_in. intros [i chunk] Hin.
  unfold _evaluate_single_chunk. now rewrite (H chunks i chunk eq_refl Hin).
Qed.

Lemma category_only_calls :
  (forall category,
      In category (Rubric.categories rubric) ->
      scorer (CategoryCall category (slice transcript 0 2500)) = None) ->
  category_only_evaluation rubric scorer transcript =
  category_only_evaluation rubric nobody transcript.
Proof.
  intros H. unfold category_only_evaluation. f_equal.
  apply for_each_ext_in. intros category [scores categories] Hin.
  unfold _evaluate_single_category. now rewrite (H category Hin).
Qed.

Lemma both_axes_calls :
  (forall chunks category i chunk,
      Chunker._chunk_transcript transcript 8000 200 = Some chunks ->
      In category (Rubric.categories rubric) ->
      In (i, chunk) (enumerate chunks) ->
      scorer (CategoryInChunkCall category (slice chunk 0 3000) (i + 1)
                (Z.of_nat (length chunks))) = None) ->
  _evaluate_transcript_and_category_chunked rubric scorer transcript =
  _evaluate_transcript_and_category_chunked rubric nobody transcript.
Proof.
  intros H. unfold _evaluate_transcript_and_category_chunked, chunks_of.
  destruct (Chunker._chunk_transcript transcript 8000 200) as [chunks|];
    [|reflexivity].
  cbn [bind]. f_equal. apply for_each_ext_in. intros category results Hcat.
  unfold evaluate_category_across_chunks. do 3 f_equal.
  apply fold_left_ext_in. intros acc [i chunk] Hin.
  unfold score_category_in_chunk, _evaluate_single_category_in_chunk.
  now rewrite (H chunks category i chunk eq_refl Hcat Hin).
Qed.

End Paths.
End DecompositionFacts.




(** ** What the validator guarantees *)

Module RubricFacts.

Definition sum_points (cs : list Criterion) : Z :=
  fold_right (fun c n => criterion_max_points c + n) 0 cs.

(** The structure of a rubric that the validator accepts. *)
Definition well_formed_category (category : Category) : Prop :=
  0 < Rubric.max_points category /\
  NoDup (map criterion_id (criteria category)) /\
  (forall c, In c (criteria category) -> 0 < criterion_max_points c) /\
  Rubric.max_points category = sum_points (criteria category).

Definition well_formed (r : NewRubric) : Prop :=
  Rubric.categories r <> [] /\
  NoDup (map category_id (Rubric.categories r)) /\
  (forall category, In category (Rubric.categories r) ->
                    well_formed_category category).

Lemma validate_criteria_inr category cs seen pts p :
  validate_criteria category cs seen pts = inr p ->
  NoDup (map criterion_id cs) /\
  (forall c, In c cs -> criterion_id c ∉ seen) /\
  (forall c, In c cs -> 0 < criterion_max_points c) /\
  p = pts + sum_points cs.
Proof.
  revert seen pts. induction cs as [|a cs IH]; intros seen pts H; simpl in H.
  - injection H as <-. simpl. repeat split; [constructor|intros ? []..|lia].
  - destruct (decide (criterion_id a ∈ seen)) as [|Hfresh]; [discriminate|].
    destruct (criterion_max_points a <=? 0) eqn:Hpos; [discriminate|].
    apply Z.leb_gt in Hpos.
    apply IH in H as (Hnd & Hseen & Hmax & ->).
    repeat split.
    + simpl. constructor; [|exact Hnd].
      intros Hin. apply list_elem_of_In, in_map_iff in Hin as (c & Hid & Hc).
      apply (Hseen c Hc). rewrite Hid.
      apply elem_of_union. left. now apply elem_of_singleton.
    + intros c [<-|Hc]; [exact Hfresh|].
      intros Hin. apply (Hseen c Hc).
      apply elem_of_union. now right.
    + intros c [<-|Hc]; auto.
    + simpl. lia.
Qed.

Lemma validate_categories_inr cats st st' :
  validate_categories cats st = inr st' ->
  NoDup (map category_id cats) /\
  (forall category, In category cats ->
                    category_id category ∉ seen_category_ids st) /\
  (forall category, In category cats -> well_formed_category category).
Proof.
  revert st. induction cats as [|a cats IH]; intros st H; simpl in H.
  - simpl. split; [constructor|]. split; intros ? [].
  - destruct (decide (category_id a ∈ seen_category_ids st)) as [|Hfresh];
      [discriminate|].
    destruct (_ || _); [discriminate|].
    destruct (Rubric.max_points a <=? 0) eqn:Hpos; [discriminate|].
    apply Z.leb_gt in Hpos.
    destruct (length (criteria a) =? 0)%nat eqn:Hcs; [discriminate H|].
    destruct (validate_criteria _ _ _ _) as [e|p] eqn:Hv; [discriminate H|].
    destruct (negb (p =? Rubric.max_points a)) eqn:Hp; [discriminate H|].
    apply negb_false_iff, Z.eqb_eq in Hp.
    apply validate_criteria_inr in Hv as (Hnd & _ & Hmax & Hsum).
    apply IH in H as (Hnd' & Hseen & Hwf). simpl in Hseen.
    assert (Hwa : well_formed_category a).
    { unfold well_formed_category.
      split; [exact Hpos|]. split; [exact Hnd|]. split; [exact Hmax|lia]. }
    split; [|split].
    + simpl. constructor; [|exact Hnd'].
      intros Hin. apply list_elem_of_In, in_map_iff in Hin as (c & Hid & Hc).
      apply (Hseen c Hc). rewrite Hid.
      apply elem_of_union. left. now apply elem_of_singleton.
    + intros c [<-|Hc]; [exact Hfresh|].
      intros Hin. apply (Hseen c Hc).
      apply elem_of_union. now right.
    + intros c [<-|Hc]; [exact Hwa|exact (Hwf _ Hc)].
Qed.

Lemma valid_well_formed (r : NewRubric) :
  validate_rubric (New r) = Valid -> well_formed r.
Proof.
  simpl. unfold _validate_new_rubric_format, well_formed.
  destruct (length (Rubric.categories r) =? 0)%nat eqn:Hcats; [discriminate|].
  destruct (validate_categories _ _) as [e|st] eqn:Hv; [discriminate|].
  intros _. apply validate_categories_inr in Hv as (Hnd & _ & Hwf).
  split; [|split; assumption].
  intros Hnil. rewrite Hnil in Hcats. discriminate.
Qed.

End RubricFacts.

(** ** The conservative score *)

Module RangeFacts.
Import RubricFacts.

Lemma int_06_range m : 0 <= m -> 0 <= int_06 m <= m.
Proof.
  intros Hm. unfold int_06. rewrite Z.quot_div_nonneg by lia.
  split; [apply Z.div_pos; lia|].
  apply Z.div_le_upper_bound; lia.
Qed.

End RangeFacts.

(** ** Rounding *)

Module RoundFacts.

Lemma py_round_tie (k : Z) :
  py_round ((2 * k + 1) # 2) = if Z.even k then k else k + 1.
Proof.
  unfold py_round. simpl.
  assert (Hd : (2 * k + 1) / 2 = k) by (Z.to_euclidean_division_equations; lia).
  assert (Hm : (2 * k + 1) mod 2 = 1) by (Z.to_euclidean_division_equations; lia).
  rewrite Hd, Hm. reflexivity.
Qed.

Lemma py_round_nearest (q : Q) :
  (inject_Z (py_round q) - (1 # 2) <= q /\ q <= inject_Z (py_round q) + (1 # 2))%Q.
Proof.
  destruct q as [n d]. unfold py_round, Qle. simpl.
  pose proof (Z.div_mod n (Z.pos d) ltac:(lia)) as Hdm.
  pose proof (Z.mod_pos_bound n (Z.pos d) ltac:(lia)) as Hb.
  set (f := n / Z.pos d) in *. set (m := n mod Z.pos d) in *.
  destruct (2 * m <? Z.pos d) eqn:H1; [apply Z.ltb_lt in H1; nia|].
  apply Z.ltb_ge in H1.
  destruct (Z.pos d <? 2 * m) eqn:H2; [apply Z.ltb_lt in H2; nia|].
  apply Z.ltb_ge in H2.
  destruct (Z.even f); nia.
Qed.

End RoundFacts.

(** ** Strings, sums and means *)

Module PyFacts.

Lemma prefix_app_r (n h t : string) :
  String.prefix n h = true -> String.prefix n (h +:+ t) = true.
Proof.
  revert h. induction n as [|a n IH]; intros h H.
  - now destruct (h +:+ t).
  - destruct h as [|b h]; simpl in *; [discriminate|].
    destruct (ascii_dec a b); [auto|discriminate].
Qed.

Lemma contains_cons (n : string) c (r : string) :
  contains n (String c r) =
  if String.prefix n (String c r) then true else contains n r.
Proof. reflexivity. Qed.

Lemma contains_prefix (n h : string) :
  String.prefix n h = true -> contains n h = true.
Proof.
  intros H. destruct h as [|c h].
  - change (contains n "") with (if String.prefix n "" then true else false).
    now rewrite H.
  - now rewrite contains_cons, H.
Qed.

Lemma contains_app_l (n p h : string) :
  contains n h = true -> contains n (p +:+ h) = true.
Proof.
  intros H. induction p as [|c p IH]; [exact H|].
  change (String c p +:+ h) with (String c (p +:+ h)).
  rewrite contains_cons, IH.
  destruct (String.prefix n (String c (p +:+ h))); reflexivity.
Qed.

Lemma contains_app_r (n h t : string) :
  contains n h = true -> contains n (h +:+ t) = true.
Proof.
  induction h as [|c h IH]; intros H.
  - change (contains n "") with (if String.prefix n "" then true else false) in H.
    destruct (String.prefix n "") eqn:Hp; [|discriminate H].
    apply contains_prefix. now apply prefix_app_r.
  - rewrite contains_cons in H.
    change (String c h +:+ t) with (String c (h +:+ t)).
    rewrite contains_cons.
    destruct (String.prefix n (String c h)) eqn:Hp.
    + change (String c (h +:+ t)) with (String c h +:+ t).
      now rewrite (prefix_app_r _ _ t Hp).
    + rewrite (IH H).
      destruct (String.prefix n (String c (h +:+ t))); reflexivity.
Qed.

(** A joined list contains what its first part contains. *)
Lemma contains_join (n sep p : string) (rest : list string) :
  contains n p = true -> contains n (join sep (p :: rest)) = true.
Proof.
  intros H. destruct rest as [|q rest]; [exact H|].
  change (join sep (p :: q :: rest)) with (p +:+ sep +:+ join sep (q :: rest)).
  now apply contains_app_r.
Qed.

Lemma inject_Z_plus_L (a b : Z) : (inject_Z a + inject_Z b)%Q = inject_Z (a + b).
Proof. unfold Qplus, inject_Z. simpl. f_equal. lia. Qed.

Lemma Qsum_repeat (v : Z) (n : nat) (a : Z) :
  fold_left Qplus (repeat (inject_Z v) n) (inject_Z a) =
  inject_Z (a + Z.of_nat n * v).
Proof.
  revert a. induction n as [|n IH]; intros a.
  - simpl. f_equal. lia.
  - cbn [repeat fold_left]. rewrite inject_Z_plus_L, IH. f_equal. lia.
Qed.

Lemma py_round_ratio (v : Z) (p : positive) :
  py_round (inject_Z (Z.pos p * v) / inject_Z (Z.pos p)) = v.
Proof.
  unfold py_round, Qdiv, Qmult, Qinv, inject_Z. cbn [Qnum Qden].
  replace (Z.pos p * v * 1) with (v * Z.pos p) by lia.
  replace (Z.pos (1 * p)) with (Z.pos p) by lia.
  rewrite Z.div_mul, Z.mod_mul by lia.
  reflexivity.
Qed.

(** The mean of [n] copies of an integer rounds to that integer. *)
Lemma py_round_mean (v : Z) (n : nat) :
  (0 < n)%nat ->
  py_round (Qsum (repeat (inject_Z v) n) / inject_Z (Z.of_nat n)) = v.
Proof.
  intros Hn. unfold Qsum. change 0%Q with (inject_Z 0). rewrite Qsum_repeat.
  destruct n as [|k]; [lia|].
  change (Z.of_nat (S k)) with (Z.pos (Pos.of_succ_nat k)).
  rewrite Z.add_0_l. apply py_round_ratio.
Qed.

Lemma mapM_all {A B} (f : A -> res B) (g : A -> B) (l : list A) :
  Forall (fun x => f x = Ok (g x)) l -> mapM f l = Ok (map g l).
Proof.
  induction 1 as [|x l Hx _ IH]; simpl; [reflexivity|].
  rewrite Hx. simpl. rewrite IH. reflexivity.
Qed.

End PyFacts.

(** ** Every call fails *)

Module FallbackFacts.
Import ChunkerFacts RubricFacts RangeFacts PyFacts NormalizerFacts.

(** *** Lists and dicts *)

Lemma NoDup_map_eq {A} (key : A -> string) (l : list A) x y :
  NoDup (map key l) -> In x l -> In y l -> key x = key y -> x = y.
Proof.
  induction l as [|a l IH]; simpl; [intros _ []|].
  intros Hnd Hx Hy Hk. apply NoDup_cons in Hnd as [Ha Hnd].
  assert (Hfresh : forall z, In z l -> key z <> key a).
  { intros z Hz Hzk. apply Ha. rewrite <- Hzk.
    apply list_elem_of_In, in_map, Hz. }
  destruct Hx as [<-|Hx], Hy as [<-|Hy]; auto.
  - symmetry in Hk. now apply Hfresh in Hk.
  - now apply Hfresh in Hk.
Qed.

Lemma find_key_In {A} (key : A -> string) (l : list A) k x :
  find (fun y => String.eqb (key y) k) l = Some x -> In x l /\ key x = k.
Proof.
  intros H. apply find_some in H as [Hin Hk]. now apply String.eqb_eq in Hk.
Qed.

Lemma find_key_Some {A} (key : A -> string) (l : list A) x :
  NoDup (map key l) -> In x l ->
  find (fun y => String.eqb (key y) (key x)) l = Some x.
Proof.
  intros Hnd Hx.
  destruct (find _ l) as [y|] eqn:Hf.
  - apply find_key_In in Hf as [Hy Hk]. f_equal.
    eapply NoDup_map_eq; eauto.
  - apply (find_none _ _ Hf) in Hx. now rewrite String.eqb_refl in Hx.
Qed.

(** A loop of [d[key(x)] = h(x, d.get(key(x)))] over items with
    distinct keys. *)
Lemma update_fold_lookup {A V} (key : A -> string) (h : A -> option V -> V)
    (l : list A) (acc : gmap string V) k :
  NoDup (map key l) ->
  fold_left (fun acc x => <[key x := h x (acc !! key x)]> acc) l acc !! k =
  match find (fun x => String.eqb (key x) k) l with
  | Some x => Some (h x (acc !! k))
  | None => acc !! k
  end.
Proof.
  revert acc. induction l as [|a l IH]; intros acc Hnd; simpl; [reflexivity|].
  apply NoDup_cons in Hnd as [Ha Hnd]. rewrite (IH _ Hnd).
  destruct (String.eqb_spec (key a) k) as [<-|Hne].
  - destruct (find _ l) as [y|] eqn:Hf.
    + apply find_key_In in Hf as [Hy Hk]. exfalso. apply Ha.
      rewrite <- Hk. apply list_elem_of_In, in_map, Hy.
    + apply lookup_insert_eq.
  - rewrite lookup_insert_ne by exact Hne. reflexivity.
Qed.

(** [for k, v in d.items(): acc[k].append(v)] *)
Lemma append_map_lookup (m : gmap string ScoreData) acc k :
  map_fold append_score acc m !! k =
  match m !! k with
  | Some d => Some (default [] (acc !! k) ++ [d])
  | None => acc !! k
  end.
Proof.
  revert k.
  apply (map_fold_weak_ind
           (fun r m => forall k, r !! k = match m !! k with
                                          | Some d => Some (default [] (acc !! k) ++ [d])
                                          | None => acc !! k
                                          end)).
  - intros k. now rewrite lookup_empty.
  - intros i x m0 r Hi IH k. unfold append_score.
    destruct (decide (i = k)) as [->|Hne].
    + rewrite !lookup_insert_eq. specialize (IH k). rewrite Hi in IH.
      now rewrite IH.
    + rewrite !lookup_insert_ne by exact Hne. apply IH.
Qed.

(** The value of a computation that does not raise. *)
Definition value_of {V} (d : V) (r : res V) : V :=
  match r with Ok v => v | Raise _ => d end.

Lemma odict_set_fresh {V} k (v : V) d :
  ~ In k (map fst d) -> odict_set k v d = d ++ [(k, v)].
Proof.
  induction d as [|[k' v'] d IH]; simpl; [reflexivity|].
  intros Hk. destruct (String.eqb_spec k k') as [->|Hne]; [tauto|].
  rewrite IH; tauto.
Qed.

Lemma for_each_odict {A V} (d : V) (key : A -> string) (f : A -> res V)
    (l : list A) (acc : list (string * V)) :
  NoDup (map key l) ->
  (forall x, In x l -> exists v, f x = Ok v) ->
  (forall x, In x l -> ~ In (key x) (map fst acc)) ->
  for_each l (fun x st => do r <- f x; Ok (odict_set (key x) r st)) acc =
  Ok (acc ++ map (fun x => (key x, value_of d (f x))) l).
Proof.
  revert acc. induction l as [|a l IH]; intros acc Hnd Hok Hfresh; simpl.
  - now rewrite app_nil_r.
  - apply NoDup_cons in Hnd as [Ha Hnd].
    destruct (Hok a) as [v Hv]; [now left|]. rewrite Hv. simpl.
    rewrite odict_set_fresh by (apply Hfresh; now left).
    rewrite IH; [now rewrite <- app_assoc|exact Hnd|intros x Hx; apply Hok; now right|].
    intros x Hx. rewrite map_app, in_app_iff. simpl.
    intros [Hin|[Hk|[]]].
    + apply (Hfresh x); [now right|exact Hin].
    + apply Ha. rewrite Hk. apply list_elem_of_In, in_map, Hx.
Qed.

Lemma map_mapM_ok {A B} (f : string -> A -> res B) (m : gmap string A) :
  (forall k a, m !! k = Some a -> exists b, f k a = Ok b) ->
  exists m', map_mapM f m = Ok m' /\
    forall k, m' !! k = m !! k ≫= fun a => match f k a with
                                           | Ok b => Some b
                                           | Raise _ => None
                                           end.
Proof.
  unfold map_mapM.
  apply (map_fold_weak_ind
           (fun r m =>
              (forall k a, m !! k = Some a -> exists b, f k a = Ok b) ->
              exists m', r = Ok m' /\
                forall k, m' !! k = m !! k ≫= fun a => match f k a with
                                                       | Ok b => Some b
                                                       | Raise _ => None
                                                       end)).
  - intros _. exists ∅. split; [reflexivity|]. intros k.
    now rewrite !lookup_empty.
  - intros i x m0 r Hi IH Hok.
    destruct IH as (m' & -> & Hm').
    { intros k a Hk. apply Hok. rewrite lookup_insert_ne; [exact Hk|].
      intros ->. congruence. }
    destruct (Hok i x) as [b Hb]; [apply lookup_insert_eq|].
    simpl. rewrite Hb. simpl. eexists. split; [reflexivity|].
    intros k. destruct (decide (i = k)) as [->|Hne].
    + rewrite !lookup_insert_eq. simpl. now rewrite Hb.
    + rewrite !lookup_insert_ne by exact Hne. apply Hm'.
Qed.

(** [sum(f(v) for v in d.values())] of a dict whose values are
    integers known item by item. *)
Lemma sum_values_items {A X} (f : A -> Q) (key : X -> string) (val : X -> Z)
    (items : list X) (m : gmap string A) :
  NoDup (map key items) ->
  (forall x, In x items -> exists a, m !! key x = Some a /\ f a = inject_Z (val x)) ->
  (forall k, is_Some (m !! k) -> exists x, In x items /\ key x = k) ->
  sum_values f m = inject_Z (fold_right (fun x n => val x + n) 0 items).
Proof.
  revert m. induction items as [|x items IH]; intros m Hnd Hval Hdom.
  - assert (m = ∅) as ->.
    { apply map_empty. intros k. destruct (m !! k) eqn:Hk; [|reflexivity].
      destruct (Hdom k) as (x & [] & _). eauto. }
    reflexivity.
  - simpl in Hnd. apply NoDup_cons in Hnd as [Hx Hnd].
    destruct (Hval x) as (a & Ha & Hfa); [now left|].
    unfold sum_values.
    rewrite (map_fold_delete_L _ _ (key x) a m);
      [|intros; apply Qplus_swap|exact Ha].
    fold (sum_values f (delete (key x) m)).
    rewrite (IH (delete (key x) m)), Hfa, inject_Z_plus_L; [simpl; f_equal; lia|exact Hnd| |].
    + intros y Hy. destruct (Hval y) as (b & Hb & Hfb); [now right|].
      exists b. split; [|exact Hfb]. rewrite lookup_delete_ne; [exact Hb|].
      intros Hk. apply Hx. rewrite Hk. apply list_elem_of_In, in_map, Hy.
    + intros k Hk. apply lookup_delete_is_Some in Hk as [Hne Hk].
      destruct (Hdom k Hk) as (y & [<-|Hy] & Hyk); [congruence|eauto].
Qed.

Lemma Qclamp_id (z m : Z) :
  0 <= z <= m -> Qmax 0 (Qmin (inject_Z z) (inject_Z m)) = inject_Z z.
Proof.
  intros H. unfold Qmax, Qmin, Qle_bool. simpl.
  rewrite !Z.mul_1_r.
  destruct (Z.leb_spec z m); [|lia].
  simpl. rewrite Z.mul_1_r. destruct (Z.leb_spec 0 z); [reflexivity|lia].
Qed.


Lemma fold_blocks_map {A S B} (key : A -> string) (g : A -> S * B)
    (l : list A) (m0 : gmap string B) :
  fold_left (fun all_categories '(cat_id, (_, block)) =>
               <[cat_id := block]> all_categories)
    (map (fun x => (key x, g x)) l) m0 =
  fold_left (fun acc x => <[key x := snd (g x)]> acc) l m0.
Proof.
  revert m0. induction l as [|a l IH]; intros m0; simpl; [reflexivity|].
  rewrite <- IH. now destruct (g a).
Qed.

Lemma fold_scores_map {A S B} (key : A -> string) (g : A -> gmap string S * B)
    (l : list A) (m0 : gmap string S) :
  fold_left (fun all_scores '(_, (scores, _)) => scores ∪ all_scores)
    (map (fun x => (key x, g x)) l) m0 =
  fold_left (fun acc x => fst (g x) ∪ acc) l m0.
Proof.
  revert m0. induction l as [|a l IH]; intros m0; simpl; [reflexivity|].
  rewrite <- IH. now destruct (g a).
Qed.

(** [all_scores.update(scores)] for every item: what is in the result
    comes from an item, and what an item has is in the result. *)
Lemma union_fold_lookup {A S} (g : A -> gmap string S) (l : list A)
    (m0 : gmap string S) k e :
  fold_left (fun acc x => g x ∪ acc) l m0 !! k = Some e ->
  m0 !! k = Some e \/ exists x, In x l /\ g x !! k = Some e.
Proof.
  revert m0. induction l as [|a l IH]; intros m0 H; simpl in H; [now left|].
  apply IH in H as [H|(x & Hx & Hk)]; [|right; exists x; split; [now right|exact Hk]].
  apply lookup_union_Some_raw in H as [H|[_ H]]; [|now left].
  right. exists a. split; [now left|exact H].
Qed.

Lemma union_fold_is_Some {A S} (g : A -> gmap string S) (l : list A)
    (m0 : gmap string S) k :
  is_Some (m0 !! k) \/ (exists x, In x l /\ is_Some (g x !! k)) ->
  is_Some (fold_left (fun acc x => g x ∪ acc) l m0 !! k).
Proof.
  revert m0. induction l as [|a l IH]; intros m0 H; simpl.
  - destruct H as [H|(x & [] & _)]. exact H.
  - apply IH. destruct H as [H|(x & [<-|Hx] & Hk)].
    + left. apply lookup_union_is_Some. now right.
    + left. apply lookup_union_is_Some. now left.
    + right. eauto.
Qed.

(** *** The rubric *)

Lemma all_criterion_ids_map cats :
  all_criterion_ids cats = map criterion_id (flat_map criteria cats).
Proof.
  unfold all_criterion_ids. induction cats as [|a cats IH]; simpl; [reflexivity|].
  now rewrite map_app, IH.
Qed.

Lemma same_id_same_criterion cats cat1 c1 cat2 c2 :
  NoDup (all_criterion_ids cats) ->
  In cat1 cats -> In c1 (criteria cat1) ->
  In cat2 cats -> In c2 (criteria cat2) ->
  criterion_id c1 = criterion_id c2 -> c1 = c2.
Proof.
  rewrite all_criterion_ids_map. intros Hnd H1 Hc1 H2 Hc2 Hid.
  eapply NoDup_map_eq; [exact Hnd| | |exact Hid]; apply in_flat_map; eauto.
Qed.

(** The search of the aggregators finds the maximum of a criterion
    whose id is declared once. *)
Lemma find_crit_max_unique cats k v :
  v <> 0 ->
  (forall category c, In category cats -> In c (criteria category) ->
                      criterion_id c = k -> criterion_max_points c = v) ->
  (exists category c, In category cats /\ In c (criteria category) /\
                      criterion_id c = k) ->
  find_crit_max cats k 0 = v.
Proof.
  intros Hv. induction cats as [|a cats IH]; intros Hall (category & c & Hcat & Hc & Hk);
    [destruct Hcat|].
  simpl. destruct (find _ (criteria a)) as [c'|] eqn:Hf.
  - apply find_key_In in Hf as [Hc' Hk'].
    rewrite (Hall a c' (or_introl eq_refl) Hc' Hk').
    destruct (Z.eqb_spec v 0); [contradiction|reflexivity].
  - simpl. apply IH.
    + intros category' c0 Hcat'. apply Hall. now right.
    + destruct Hcat as [<-|Hcat]; [|eauto 6].
      apply (find_none _ _ Hf) in Hc. rewrite Hk, String.eqb_refl in Hc.
      discriminate.
Qed.

Lemma conservative_sum_range cs :
  (forall c, In c cs -> 0 < criterion_max_points c) ->
  0 <= fold_right (fun c n => int_06 (criterion_max_points c) + n) 0 cs
    <= sum_points cs.
Proof.
  unfold sum_points.
  induction cs as [|c cs IH]; intros Hpos; cbn [fold_right]; [lia|].
  pose proof (int_06_range (criterion_max_points c)
                ltac:(specialize (Hpos c (or_introl eq_refl)); lia)).
  specialize (IH (fun c' Hc' => Hpos c' (or_intror Hc'))).
  lia.
Qed.

(** *** Conservative entries *)

(** An entry written by one of the fallbacks for criterion [c]. *)
Definition conservative_entry (c : Criterion) (d : ScoreData) : Prop :=
  score d = Some (inject_Z (int_06 (criterion_max_points c))) /\
  confidence d = Some 3%Q /\
  exists n, note d = Some n /\ contains fallback_marker n = true.

(** An entry of the result that carries the conservative score of [c]
    and the marker. *)
Definition marked_entry (c : Criterion) (e : ScoreData) : Prop :=
  score e = Some (inject_Z (int_06 (criterion_max_points c))) /\
  exists n, note e = Some n /\ contains fallback_marker n = true.

Lemma conservative_is_entry c (n : string) :
  contains fallback_marker n = true -> conservative_entry c (conservative c 3 n).
Proof. intros H. split; [reflexivity|]. split; [reflexivity|]. now exists n. Qed.

Lemma conservative_category_lookup conf note category k :
  NoDup (map criterion_id (criteria category)) ->
  fst (conservative_category conf note category ∅) !! k =
  match find (fun c => String.eqb (criterion_id c) k) (criteria category) with
  | Some c => Some (conservative c conf note)
  | None => None
  end.
Proof.
  intros Hnd. unfold conservative_category.
  assert (Hfst : forall cs (sc : gmap string ScoreData) pts,
             fst (fold_left
                    (fun '(scores, category_points) c =>
                       (<[criterion_id c := conservative c conf note]> scores,
                        category_points + int_06 (criterion_max_points c)))
                    cs (sc, pts)) =
             fold_left (fun acc c =>
                          <[criterion_id c := conservative c conf note]> acc) cs sc).
  { induction cs as [|c cs IH]; intros sc pts; simpl; [reflexivity|]. apply IH. }
  rewrite Hfst.
  rewrite (update_fold_lookup criterion_id (fun c _ => conservative c conf note))
    by exact Hnd.
  now rewrite lookup_empty.
Qed.

Lemma combined_note_marker (n : string) rest :
  contains fallback_marker n = true ->
  contains fallback_marker (combined_note (n :: rest)) = true.
Proof.
  intros H. unfold combined_note.
  do 3 apply contains_app_l.
  cbn [List.filter].
  destruct n as [|a n]; [discriminate H|].
  cbn [String.eqb negb]. now apply contains_join.
Qed.

Section AllCallsFail.
Variable rubric : NewRubric.
Variable scorer : Scorer.
Hypothesis rubric_ok : well_formed rubric.
Hypothesis distinct_ids : NoDup (all_criterion_ids (Rubric.categories rubric)).
Hypothesis no_answer : forall call, scorer call = None.

Lemma category_ok category :
  In category (Rubric.categories rubric) -> well_formed_category category.
Proof. intros H. now apply rubric_ok. Qed.

Lemma find_crit_max_declared category c :
  In category (Rubric.categories rubric) -> In c (criteria category) ->
  find_crit_max (Rubric.categories rubric) (criterion_id c) 0 =
  criterion_max_points c.
Proof.
  intros Hcat Hc. apply find_crit_max_unique.
  - destruct (category_ok _ Hcat) as (_ & _ & Hpos & _).
    specialize (Hpos c Hc). lia.
  - intros category' c' Hcat' Hc' Hid. f_equal.
    exact (same_id_same_criterion _ _ _ _ _ distinct_ids Hcat' Hc' Hcat Hc Hid).
  - eauto.
Qed.

(** One turn of the loop over the chunks appends a conservative entry
    to the list of every criterion of the category, whether or not
    the prompt can be built. *)
Lemma score_category_in_chunk_lookup category total i chunk acc :
  NoDup (map criterion_id (criteria category)) ->
  exists n : string,
    contains fallback_marker n = true /\
    forall k,
      score_category_in_chunk rubric scorer category total i chunk acc !! k =
      match find (fun c => String.eqb (criterion_id c) k) (criteria category) with
      | Some c => Some (default [] (acc !! k) ++ [conservative c 3 n])
      | None => acc !! k
      end.
Proof.
  intros Hnd.
  unfold score_category_in_chunk, _evaluate_single_category_in_chunk.
  destruct (category_prompt category) as [[]|e]; simpl.
  - rewrite no_answer. simpl. eexists. split; [|intros k].
    2:{ rewrite append_map_lookup, conservative_category_lookup by exact Hnd.
        destruct (find _ _); reflexivity. }
    apply contains_prefix.
    apply (prefix_app_r _ "Auto-generated conservative score for category ").
    reflexivity.
  - eexists. split; [|intros k].
    2:{ apply (update_fold_lookup criterion_id
                 (fun c o => default [] o ++ [conservative c 3 _])).
        exact Hnd. }
    apply contains_prefix.
    apply (prefix_app_r _ "Auto-generated conservative score for chunk ").
    reflexivity.
Qed.

(** The lists gathered over the chunks. *)
Lemma category_scores_lookup category total (l : list (Z * text)) acc k :
  NoDup (map criterion_id (criteria category)) ->
  match find (fun c => String.eqb (criterion_id c) k) (criteria category) with
  | Some c =>
      exists ds,
        Forall (conservative_entry c) ds /\ length ds = length l /\
        fold_left (fun acc '(i, chunk) =>
                     score_category_in_chunk rubric scorer category total i chunk acc)
          l acc !! k =
        match ds with
        | [] => acc !! k
        | _ :: _ => Some (default [] (acc !! k) ++ ds)
        end
  | None =>
      fold_left (fun acc '(i, chunk) =>
                   score_category_in_chunk rubric scorer category total i chunk acc)
        l acc !! k = acc !! k
  end.
Proof.
  intros Hnd. revert acc. induction l as [|[i chunk] l IH]; intros acc.
  - destruct (find _ _); [|reflexivity]. exists []. auto.
  - cbn [fold_left].
    destruct (score_category_in_chunk_lookup category total i chunk acc Hnd)
      as (n & Hn & Hstep).
    specialize (IH (score_category_in_chunk rubric scorer category total i chunk acc)).
    specialize (Hstep k).
    destruct (find _ _) as [c|].
    + destruct IH as (ds & Hds & Hlen & Hk).
      exists (conservative c 3 n :: ds).
      split; [constructor; [now apply conservative_is_entry|exact Hds]|].
      split; [simpl; now rewrite Hlen|].
      rewrite Hk, Hstep. destruct ds; [reflexivity|].
      simpl. now rewrite <- app_assoc.
    + now rewrite IH.
Qed.

(** The aggregate of a non-empty list of conservative entries. *)
Lemma aggregate_scores_list_fallback category c ds :
  In category (Rubric.categories rubric) -> In c (criteria category) ->
  ds <> [] -> Forall (conservative_entry c) ds ->
  exists e, aggregate_scores_list rubric (criterion_id c) ds = Ok e /\
            marked_entry c e.
Proof.
  intros Hcat Hc Hne Hds. unfold aggregate_scores_list.
  rewrite (mapM_all _ (fun _ => inject_Z (int_06 (criterion_max_points c))));
    [|eapply Forall_impl; [exact Hds|]; intros d (Hs & _); now rewrite Hs].
  simpl.
  rewrite (mapM_all _ (fun _ => 3%Q));
    [|eapply Forall_impl; [exact Hds|]; intros d (_ & Hcf & _); now rewrite Hcf].
  simpl.
  rewrite (mapM_all _ (fun d => default ""%string (note d)));
    [|eapply Forall_impl; [exact Hds|]; intros d (_ & _ & n & Hn & _); now rewrite Hn].
  simpl.
  destruct ds as [|d ds]; [contradiction|]. cbn [map].
  eexists. split; [reflexivity|]. split.
  - cbn [score]. do 2 f_equal. unfold clamped_score.
    change (inject_Z (int_06 (criterion_max_points c))
            :: map (fun _ => inject_Z (int_06 (criterion_max_points c))) ds)
      with (map (fun _ => inject_Z (int_06 (criterion_max_points c))) (d :: ds)).
    rewrite map_const, py_round_mean by (simpl; lia).
    rewrite (find_crit_max_declared category c Hcat Hc).
    destruct (category_ok _ Hcat) as (_ & _ & Hpos & _).
    pose proof (int_06_range (criterion_max_points c)
                  ltac:(specialize (Hpos c Hc); lia)).
    lia.
  - cbn [note]. eexists. split; [reflexivity|].
    apply combined_note_marker.
    apply Forall_inv in Hds. destruct Hds as (_ & _ & n & -> & Hn). exact Hn.
Qed.


(** One category over the chunks: every criterion of the category gets
    its conservative score, and the block has their sum. *)
Lemma across_chunks_fallback chunks category :
  chunks <> [] -> In category (Rubric.categories rubric) ->
  exists agg block,
    evaluate_category_across_chunks rubric scorer chunks category = Ok (agg, block) /\
    points block =
      inject_Z (fold_right (fun c n => int_06 (criterion_max_points c) + n) 0
                  (criteria category)) /\
    (forall c, In c (criteria category) ->
               exists e, agg !! criterion_id c = Some e /\ marked_entry c e) /\
    (forall k e, agg !! k = Some e ->
                 exists c, In c (criteria category) /\ criterion_id c = k /\
                           marked_entry c e).
Proof.
  intros Hne Hcat.
  destruct (category_ok _ Hcat) as (Hmax & Hnd & Hpos & Hsum).
  unfold evaluate_category_across_chunks.
  set (category_scores := fold_left _ (enumerate chunks) ∅).
  assert (Hlen : length (enumerate chunks) <> 0%nat).
  { unfold enumerate. rewrite length_combine, length_map, length_seq.
    destruct chunks; [contradiction|simpl; lia]. }
  assert (Hcs1 : forall c, In c (criteria category) ->
            exists ds, ds <> [] /\ Forall (conservative_entry c) ds /\
                       category_scores !! criterion_id c = Some ds).
  { intros c Hc.
    pose proof (category_scores_lookup category (Z.of_nat (length chunks))
                  (enumerate chunks) ∅ (criterion_id c) Hnd) as H.
    rewrite (find_key_Some criterion_id _ c Hnd Hc) in H.
    destruct H as (ds & Hds & Hl & Hk). exists ds.
    destruct ds as [|d ds]; [simpl in Hl; congruence|].
    split; [discriminate|]. split; [exact Hds|].
    rewrite lookup_empty in Hk. exact Hk. }
  assert (Hcs2 : forall k ds, category_scores !! k = Some ds ->
            exists c, In c (criteria category) /\ criterion_id c = k).
  { intros k ds Hk.
    pose proof (category_scores_lookup category (Z.of_nat (length chunks))
                  (enumerate chunks) ∅ k Hnd) as H.
    destruct (find _ _) as [c|] eqn:Hf.
    - exists c. eapply find_key_In, Hf.
    - fold category_scores in H. rewrite H, lookup_empty in Hk. discriminate. }
  destruct (map_mapM_ok (aggregate_scores_list rubric) category_scores)
    as (agg & Hagg & Hlook).
  { intros k ds Hk. destruct (Hcs2 k ds Hk) as (c & Hc & <-).
    destruct (Hcs1 c Hc) as (ds' & Hne' & Hds' & Hk').
    assert (ds' = ds) as -> by congruence.
    destruct (aggregate_scores_list_fallback category c ds Hcat Hc Hne' Hds')
      as (e & He & _). eauto. }
  rewrite Hagg. cbn [bind].
  assert (Hagg1 : forall c, In c (criteria category) ->
            exists e, agg !! criterion_id c = Some e /\ marked_entry c e).
  { intros c Hc. destruct (Hcs1 c Hc) as (ds & Hne' & Hds & Hk).
    destruct (aggregate_scores_list_fallback category c ds Hcat Hc Hne' Hds)
      as (e & He & Hm).
    exists e. split; [|exact Hm]. rewrite Hlook, Hk. simpl. now rewrite He. }
  assert (Hagg2 : forall k e, agg !! k = Some e ->
            exists c, In c (criteria category) /\ criterion_id c = k /\
                      marked_entry c e).
  { intros k e Hk. rewrite Hlook in Hk.
    destruct (category_scores !! k) as [ds|] eqn:Hds; [|discriminate].
    destruct (Hcs2 k ds Hds) as (c & Hc & <-).
    destruct (Hagg1 c Hc) as (e' & He' & Hm).
    rewrite Hlook, Hds in He'. exists c.
    split; [exact Hc|]. split; [reflexivity|]. congruence. }
  eexists _, _. split; [reflexivity|]. split; [|split; assumption].
  cbn [points].
  rewrite (sum_values_items _ criterion_id
             (fun c => int_06 (criterion_max_points c)) (criteria category)).
  - apply Qclamp_id. pose proof (conservative_sum_range _ Hpos). lia.
  - exact Hnd.
  - intros c Hc. destruct (Hagg1 c Hc) as (e & He & Hs & _).
    exists e. split; [exact He|]. now rewrite Hs.
  - intros k [e Hk]. destruct (Hagg2 k e Hk) as (c & Hc & Hid & _). eauto.
Qed.

Lemma chunks_of_nonblank transcript :
  forallb isspace transcript = false ->
  exists chunks, chunks_of transcript = Ok chunks /\ chunks <> [].
Proof.
  intros Hnb. unfold chunks_of, Chunker._chunk_transcript.
  destruct (Chunker.len transcript <=? 8000) eqn:Hle.
  - eexists. split; [reflexivity|discriminate].
  - apply Z.leb_gt in Hle.
    destruct (chunk_loop_terminates transcript 8000 200 (length transcript) 0)
      as [chunks Hc];
      [unfold Chunker.len in Hle; lia | unfold Chunker.len; lia |].
    rewrite Hc. exists chunks. split; [reflexivity|]. intros ->.
    assert (forallb isspace transcript = true); [|congruence].
    apply forallb_forall. intros c Hin.
    destruct (In_nth _ _ "000"%char Hin) as (n & Hn & <-).
    pose proof (chunk_loop_nil transcript 8000 200 ltac:(lia) ltac:(lia)
                  _ 0 ltac:(lia) Hc (Z.of_nat n)) as H.
    rewrite Nat2Z.id in H. apply H. unfold Chunker.len. lia.
Qed.

(** The evaluation on both axes when no call is answered. *)
Lemma both_axes_fallback transcript :
  forallb isspace transcript = false ->
  exists r o sc,
    _evaluate_transcript_and_category_chunked rubric scorer transcript = Ok r /\
    overall r = Some o /\
    total_points o =
      Some (inject_Z (conservative_total (Rubric.categories rubric))) /\
    Result.scores r = Some sc /\
    (forall category c,
        In category (Rubric.categories rubric) -> In c (criteria category) ->
        exists e, sc !! criterion_id c = Some e /\ marked_entry c e) /\
    (forall k e, sc !! k = Some e ->
                 exists n, note e = Some n /\ contains fallback_marker n = true).
Proof.
  intros Hnb. destruct (chunks_of_nonblank _ Hnb) as (chunks & Hch & Hne).
  unfold _evaluate_transcript_and_category_chunked. rewrite Hch. cbn [bind].
  destruct rubric_ok as (_ & Hcats & _).
  set (d := (∅, {| points := 0; max_points := 0; percentage := 0 |})
            : gmap string ScoreData * CategoryResult).
  rewrite (for_each_odict d category_id
             (evaluate_category_across_chunks rubric scorer chunks));
    [|exact Hcats
     |intros category Hcat;
      destruct (across_chunks_fallback chunks category Hne Hcat)
        as (agg & block & -> & _); eauto
     |intros ? _ []].
  cbn [bind app].
  set (g := fun category =>
              value_of d (evaluate_category_across_chunks rubric scorer chunks category)).
  assert (Hg : forall category, In category (Rubric.categories rubric) ->
            points (snd (g category)) =
              inject_Z (fold_right (fun c n => int_06 (criterion_max_points c) + n) 0
                          (criteria category)) /\
            (forall c, In c (criteria category) ->
               exists e, fst (g category) !! criterion_id c = Some e /\
                         marked_entry c e) /\
            (forall k e, fst (g category) !! k = Some e ->
               exists c, In c (criteria category) /\ criterion_id c = k /\
                         marked_entry c e)).
  { intros category Hcat. unfold g.
    destruct (across_chunks_fallback chunks category Hne Hcat)
      as (agg & block & -> & H). exact H. }
  eexists _, _, _. split; [reflexivity|]. split; [reflexivity|].
  rewrite fold_blocks_map, fold_scores_map. fold g.
  split; [|split; [reflexivity|split]].
  - unfold overall_of. cbn [total_points]. f_equal.
    apply (sum_values_items points category_id
             (fun category =>
                fold_right (fun c n => int_06 (criterion_max_points c) + n) 0
                  (criteria category))); [exact Hcats| |].
    + intros category Hcat. exists (snd (g category)).
      split; [|apply Hg, Hcat].
      rewrite (update_fold_lookup category_id (fun x _ => snd (g x))) by exact Hcats.
      now rewrite (find_key_Some category_id _ category Hcats Hcat).
    + intros k [b Hk].
      rewrite (update_fold_lookup category_id (fun x _ => snd (g x))) in Hk
        by exact Hcats.
      destruct (find _ _) as [category|] eqn:Hf.
      * exists category. eapply find_key_In, Hf.
      * rewrite lookup_empty in Hk. discriminate.
  - intros category c Hcat Hc.
    destruct (Hg category Hcat) as (_ & Hin & _).
    destruct (Hin c Hc) as (e0 & He0 & _).
    destruct (union_fold_is_Some (fun x => fst (g x)) (Rubric.categories rubric)
                ∅ (criterion_id c)) as [e He].
    { right. exists category. split; [exact Hcat|]. now rewrite He0. }
    exists e. split; [exact He|].
    apply union_fold_lookup in He as [He|(category' & Hcat' & He)];
      [rewrite lookup_empty in He; discriminate|].
    destruct (Hg category' Hcat') as (_ & _ & Hout).
    destruct (Hout _ _ He) as (c' & Hc' & Hid & Hm).
    now rewrite <- (same_id_same_criterion _ _ _ _ _ distinct_ids
                      Hcat' Hc' Hcat Hc Hid).
  - intros k e He.
    apply union_fold_lookup in He as [He|(category & Hcat & He)];
      [rewrite lookup_empty in He; discriminate|].
    destruct (Hg category Hcat) as (_ & _ & Hout).
    destruct (Hout _ _ He) as (c & _ & _ & _ & Hn). exact Hn.
Qed.

End AllCallsFail.
End FallbackFacts.




(* ================================================================= *)
(** * Further properties of the code *)

Module ValidatorFacts.
Import RubricFacts.

Definition accepted_tail (s : Scale) (th : Thresholds) : Prop :=
  (scale_min s < scale_max s)%Q /\ (revise th < pass th)%Q.

Definition accepted_old (r : OldRubric) : Prop :=
  old_criteria r <> [] /\
  NoDup (map old_id (old_criteria r)) /\
  Forall (fun c => (0 <= old_weight c <= 1)%Q) (old_criteria r) /\
  (99 # 100 <= Qsum (map old_weight (old_criteria r)) <= 101 # 100)%Q /\
  accepted_tail (old_scale r) (old_thresholds r).

Lemma Qle_bool_false (a b : Q) : Qle_bool a b = false <-> (b < a)%Q.
Proof.
  split.
  - intros H. apply Qnot_le_lt. intros Hle. apply Qle_bool_iff in Hle. congruence.
  - intros H. destruct (Qle_bool a b) eqn:E; [|reflexivity].
    apply Qle_bool_iff in E. exfalso. eapply Qlt_not_le; eauto.
Qed.

Lemma weight_range (w : Q) :
  Qltb w 0 || Qltb 1 w = false <-> (0 <= w <= 1)%Q.
Proof.
  unfold Qltb. rewrite orb_false_iff, !negb_false_iff, !Qle_bool_iff. tauto.
Qed.

Lemma sum_range (total : Q) :
  negb (Qle_bool (99 # 100) total && Qle_bool total (101 # 100)) = false <->
  (99 # 100 <= total <= 101 # 100)%Q.
Proof. rewrite negb_false_iff, andb_true_iff, !Qle_bool_iff. tauto. Qed.

Lemma tail_accepted s th :
  validate_scale_thresholds s th = Valid <-> accepted_tail s th.
Proof.
  unfold validate_scale_thresholds, accepted_tail.
  destruct (Qle_bool (scale_max s) (scale_min s)) eqn:Hs.
  - split; [discriminate|]. intros [H _]. apply Qle_bool_iff in Hs.
    exfalso. eapply Qlt_not_le; eauto.
  - apply Qle_bool_false in Hs.
    destruct (Qle_bool (pass th) (revise th)) eqn:Ht.
    + split; [discriminate|]. intros [_ H]. apply Qle_bool_iff in Ht.
      exfalso. eapply Qlt_not_le; eauto.
    + apply Qle_bool_false in Ht. tauto.
Qed.

Lemma nonempty_length {A} (l : list A) : (length l =? 0)%nat = false <-> l <> [].
Proof. destruct l; simpl; split; congruence. Qed.

Lemma validate_old_criteria_spec cs seen total :
  validate_old_criteria cs seen total
    = inr (fold_left Qplus (map old_weight cs) total) <->
  NoDup (map old_id cs) /\
  (forall c, In c cs -> old_id c ∉ seen) /\
  Forall (fun c => (0 <= old_weight c <= 1)%Q) cs.
Proof.
  revert seen total. induction cs as [|a cs IH]; intros seen total.
  - simpl. split; [|reflexivity].
    intros _. split; [constructor|]. split; [intros ? []|constructor].
  - cbn [validate_old_criteria map fold_left].
    destruct (decide (old_id a ∈ seen)) as [Hin|Hfresh].
    { split; [discriminate|].
      intros (_ & Hseen & _). exfalso. apply (Hseen a); [now left|exact Hin]. }
    destruct (Qltb (old_weight a) 0 || Qltb 1 (old_weight a)) eqn:Hw.
    { split; [discriminate|].
      intros (_ & _ & Hacc). apply Forall_cons in Hacc as [Hwa _].
      apply weight_range in Hwa. congruence. }
    apply weight_range in Hw. rewrite IH. split.
    + intros (Hnd' & Hseen & Hacc). split; [|split].
      * simpl. constructor; [|exact Hnd'].
        intros Hin. apply list_elem_of_In, in_map_iff in Hin as (c & Hid & Hc).
        apply (Hseen c Hc). rewrite Hid.
        apply elem_of_union. left. now apply elem_of_singleton.
      * intros c [<-|Hc]; [exact Hfresh|].
        intros Hin. apply (Hseen c Hc). apply elem_of_union. now right.
      * constructor; assumption.
    + intros (Hnd' & Hseen & Hacc). simpl in Hnd'.
      apply NoDup_cons in Hnd' as [Hna Hnd']. apply Forall_cons in Hacc as [_ Hacc].
      split; [exact Hnd'|]. split; [|exact Hacc].
      intros c Hc Hin. apply elem_of_union in Hin as [Hin|Hin].
      * apply elem_of_singleton in Hin. apply Hna. rewrite <- Hin.
        apply list_elem_of_In, in_map, Hc.
      * apply (Hseen c); [now right|exact Hin].
Qed.

Lemma validate_old_criteria_weight cs seen total t :
  validate_old_criteria cs seen total = inr t ->
  t = fold_left Qplus (map old_weight cs) total.
Proof.
  revert seen total. induction cs as [|a cs IH]; intros seen total H; simpl in H.
  - now injection H as <-.
  - destruct (decide _); [discriminate|].
    destruct (_ || _); [discriminate|].
    apply IH in H. exact H.
Qed.


Lemma old_valid_iff (r : OldRubric) :
  validate_rubric (Old r) = Valid <-> accepted_old r.
Proof.
  cbn [validate_rubric]. unfold _validate_old_rubric_format, accepted_old.
  destruct (length (old_criteria r) =? 0)%nat eqn:Hlen.
  { split; [discriminate|]. intros (Hne & _).
    apply nonempty_length in Hne. congruence. }
  apply nonempty_length in Hlen.
  pose proof (validate_old_criteria_spec (old_criteria r) ∅ 0%Q) as Hspec.
  destruct (validate_old_criteria _ _ _) as [e|t] eqn:Hv.
  - split; [discriminate|]. intros (_ & Hnd & Hacc & _).
    destruct Hspec as [_ Hspec].
    enough (Hbad : @inl ValidationError Q e =
                   inr (fold_left Qplus (map old_weight (old_criteria r)) 0%Q))
      by discriminate Hbad.
    apply Hspec. split; [exact Hnd|]. split; [|exact Hacc].
    intros c _. apply not_elem_of_empty.
  - pose proof (validate_old_criteria_weight _ _ _ _ Hv) as ->.
    destruct (proj1 Hspec eq_refl) as (Hnd & _ & Hacc).
    fold (Qsum (map old_weight (old_criteria r))).
    destruct (negb _) eqn:Hsum.
    + split; [discriminate|]. intros (_ & _ & _ & Hs & _).
      apply sum_range in Hs. congruence.
    + apply sum_range in Hsum.
      rewrite tail_accepted. tauto.
Qed.

End ValidatorFacts.

Module ChunkShapeFacts.
Import Chunker ChunkerFacts.

(** A text that does not start with whitespace. *)
Definition no_lead (s : text) : Prop :=
  match s with [] => True | c :: _ => isspace c = false end.

Lemma lstrip_no_lead s : no_lead (lstrip s).
Proof.
  destruct (lstrip s) as [|c r] eqn:H; [exact I|]. simpl.
  eapply lstrip_head, H.
Qed.

Lemma lstrip_id s : no_lead s -> lstrip s = s.
Proof. destruct s as [|c r]; simpl; [reflexivity|]. now intros ->. Qed.

Lemma lstrip_suffix s : exists ws, s = ws ++ lstrip s.
Proof.
  induction s as [|c s [ws IH]]; [now exists []|]. simpl.
  destruct (isspace c); [|now exists []].
  exists (c :: ws). simpl. now rewrite <- IH.
Qed.

Lemma rstrip_prefix s : exists ws, s = rstrip s ++ ws.
Proof.
  unfold rstrip. destruct (lstrip_suffix (rev s)) as [ws H].
  exists (rev ws). rewrite <- rev_app_distr, <- H. now rewrite rev_involutive.
Qed.

Lemma rstrip_no_lead s : no_lead s -> no_lead (rstrip s).
Proof.
  intros H. destruct (rstrip_prefix s) as [ws Hs].
  destruct (rstrip s) as [|c r]; [exact I|].
  rewrite Hs in H. exact H.
Qed.

Lemma rstrip_id s : no_lead (rev s) -> rstrip s = s.
Proof. intros H. unfold rstrip. rewrite lstrip_id by exact H. apply rev_involutive. Qed.

Lemma strip_no_lead s : no_lead (strip s).
Proof. apply rstrip_no_lead, lstrip_no_lead. Qed.

Lemma strip_no_trail s : no_lead (rev (strip s)).
Proof. unfold strip, rstrip. rewrite rev_involutive. apply lstrip_no_lead. Qed.

(** Stripping twice is stripping once. *)
Lemma strip_strip s : strip (strip s) = strip s.
Proof.
  unfold strip at 1. rewrite (lstrip_id (strip s)) by apply strip_no_lead.
  apply rstrip_id, strip_no_trail.
Qed.

Lemma lstrip_length s : (length (lstrip s) <= length s)%nat.
Proof.
  destruct (lstrip_suffix s) as [ws H]. rewrite H at 2. rewrite length_app. lia.
Qed.

Lemma strip_length s : (length (strip s) <= length s)%nat.
Proof.
  unfold strip, rstrip. rewrite length_rev.
  etransitivity; [apply lstrip_length|]. rewrite length_rev. apply lstrip_length.
Qed.

Lemma slice_length {A} (s : list A) a b :
  0 <= a <= b -> Z.of_nat (length (slice s a b)) <= b - a.
Proof.
  intros H. unfold slice, slice_index.
  destruct (Z.ltb_spec a 0); [lia|]. destruct (Z.ltb_spec b 0); [lia|].
  rewrite length_firstn. lia.
Qed.

Section Loop.
Variable transcript : text.
Variable chunk_size overlap : Z.
Hypothesis chunk_size_pos : 0 < chunk_size.
Hypothesis overlap_nonneg : 0 <= overlap.

Lemma window_end_le start :
  window_end transcript chunk_size start <= start + chunk_size.
Proof.
  unfold window_end.
  destruct (start + chunk_size <? len transcript); [|lia].
  destruct (last _) as [b|] eqn:Hb; [|lia].
  apply last_In in Hb. unfold break_candidates in Hb.
  rewrite in_map_iff in Hb. destruct Hb as (i & <- & Hi).
  apply filter_In in Hi as [Hi _]. apply range_In in Hi. lia.
Qed.

(** A chunk of a long transcript: not empty, no whitespace at either
    end, at most [chunk_size] characters. *)
Definition well_shaped (c : text) : Prop :=
  c <> [] /\ strip c = c /\ Z.of_nat (length c) <= chunk_size.

Lemma chunk_loop_shape fuel start chunks :
  0 <= start ->
  chunk_loop transcript chunk_size overlap fuel start = Some chunks ->
  Forall well_shaped chunks.
Proof.
  revert start chunks. induction fuel as [|fuel IH]; intros start chunks Hs H;
    [discriminate|].
  simpl in H. destruct (start <? len transcript); [|injection H as <-; constructor].
  pose proof (window_end_gt transcript chunk_size start chunk_size_pos) as Hgt.
  pose proof (window_end_le start) as Hle.
  set (e := window_end transcript chunk_size start) in *.
  assert (Hout : Forall well_shaped
            (if truthy (strip (slice transcript start e))
             then [strip (slice transcript start e)] else [])).
  { destruct (truthy _) eqn:Ht; [|constructor].
    constructor; [|constructor]. split; [|split].
    - intros Hnil. rewrite Hnil in Ht. discriminate.
    - apply strip_strip.
    - pose proof (strip_length (slice transcript start e)).
      pose proof (slice_length transcript start e ltac:(lia)). lia. }
  destruct (len transcript <=? _); [injection H as <-; exact Hout|].
  destruct (chunk_loop _ _ _ fuel _) as [r|] eqn:Hr; simpl in H; [|discriminate].
  injection H as <-. apply Forall_app. split; [exact Hout|].
  eapply IH; [|exact Hr]. lia.
Qed.

Lemma slice_not_all {A} (f : A -> bool) (s : list A) a b d i :
  0 <= a -> a <= i < b -> i < Z.of_nat (length s) ->
  f (nth (Z.to_nat i) s d) = false -> forallb f (slice s a b) = false.
Proof.
  intros Ha Hi Hlen Hf.
  destruct (forallb f (slice s a b)) eqn:H; [|reflexivity].
  rewrite (slice_forallb f s a b d i Ha H Hi Hlen) in Hf. discriminate.
Qed.

(** No character that is not whitespace is skipped. *)
Lemma chunk_loop_covers fuel start chunks i :
  0 <= start ->
  chunk_loop transcript chunk_size overlap fuel start = Some chunks ->
  start <= i < len transcript ->
  isspace (nth (Z.to_nat i) transcript "000"%char) = false ->
  exists a b,
    start <= a /\ a <= i < b /\ b - a <= chunk_size /\
    In (strip (slice transcript a b)) chunks.
Proof.
  revert start chunks. induction fuel as [|fuel IH]; intros start chunks Hs H Hi Hc;
    [discriminate|].
  simpl in H. destruct (Z.ltb_spec start (len transcript)); [|lia].
  pose proof (window_end_gt transcript chunk_size start chunk_size_pos) as Hgt.
  pose proof (window_end_le start) as Hle.
  set (e := window_end transcript chunk_size start) in *.
  destruct (Z_lt_le_dec i e) as [Hie|Hie].
  - exists start, e. split; [lia|]. split; [lia|]. split; [lia|].
    assert (Ht : truthy (strip (slice transcript start e)) = true).
    { destruct (truthy _) eqn:Ht; [reflexivity|].
      apply truthy_strip_false in Ht.
      rewrite (slice_not_all isspace transcript start e "000"%char i) in Ht;
        [discriminate|lia|lia|unfold len in Hi; lia|exact Hc]. }
    rewrite Ht in H.
    destruct (len transcript <=? _); [injection H as <-; now left|].
    destruct (chunk_loop _ _ _ fuel _) as [r|]; simpl in H; [|discriminate].
    injection H as <-. now left.
  - destruct (Z.leb_spec (len transcript) (Z.max (start + 1) (e - overlap))); [lia|].
    destruct (chunk_loop _ _ _ fuel _) as [r|] eqn:Hr; simpl in H; [|discriminate].
    injection H as <-.
    destruct (IH (Z.max (start + 1) (e - overlap)) r ltac:(lia) Hr ltac:(lia) Hc) as (a & b & Ha & Hab & Hw & Hin).
    exists a, b. split; [lia|]. split; [exact Hab|]. split; [exact Hw|].
    apply in_or_app. now right.
Qed.

End Loop.
End ChunkShapeFacts.

(** X3.  A transcript of at most [chunk_size] characters is returned
    whole, as the only chunk, not stripped (also when it is empty or
    blank).  Every chunk of a longer transcript is non-empty, has no
    whitespace at either end, and has at most [chunk_size] characters. *)
Theorem X3_chunks_are_well_shaped (transcript : text) (chunk_size overlap : Z)
    (chunks : list text) :
  0 < chunk_size -> 0 <= overlap ->
  Chunker._chunk_transcript transcript chunk_size overlap = Some chunks ->
  (Chunker.len transcript <= chunk_size -> chunks = [transcript]) /\
  (chunk_size < Chunker.len transcript ->
   Forall (fun c => c <> [] /\ strip c = c /\ Z.of_nat (length c) <= chunk_size)
     chunks).
Proof.
  intros Hcs Hov H. unfold Chunker._chunk_transcript in H.
  destruct (Z.leb_spec (Chunker.len transcript) chunk_size).
  - split; [intros _; congruence|lia].
  - split; [lia|]. intros _.
    exact (ChunkShapeFacts.chunk_loop_shape transcript chunk_size overlap Hcs
             _ 0 chunks ltac:(lia) H).
Qed.

Lemma X3_chunks_are_well_shaped_witness :
  (Chunker.len (list_ascii_of_string "One. Two! Three") <= 6 ->
   default [] (Chunker._chunk_transcript (list_ascii_of_string "One. Two! Three") 6 9)
   = [list_ascii_of_string "One. Two! Three"]) /\
  (6 < Chunker.len (list_ascii_of_string "One. Two! Three") ->
   Forall (fun c => c <> [] /\ strip c = c /\ Z.of_nat (length c) <= 6)
     (default []
        (Chunker._chunk_transcript (list_ascii_of_string "One. Two! Three") 6 9))).
Proof.
  apply (X3_chunks_are_well_shaped (list_ascii_of_string "One. Two! Three") 6 9);
    [lia|lia|vm_compute; reflexivity].
Defined.

(** X4.  The chunks of a transcript longer than [chunk_size] leave no gap:
    every character that is not whitespace lies in a window of at most
    [chunk_size] characters whose stripped text is one of the chunks. *)
Theorem X4_chunks_cover_the_text (transcript : text) (chunk_size overlap : Z)
    (chunks : list text) (i : Z) :
  0 < chunk_size -> 0 <= overlap ->
  chunk_size < Chunker.len transcript ->
  Chunker._chunk_transcript transcript chunk_size overlap = Some chunks ->
  0 <= i < Chunker.len transcript ->
  isspace (nth (Z.to_nat i) transcript "000"%char) = false ->
  exists a b,
    0 <= a /\ a <= i < b /\ b - a <= chunk_size /\
    In (strip (slice transcript a b)) chunks.
Proof.
  intros Hcs Hov Hlong H Hi Hc. unfold Chunker._chunk_transcript in H.
  destruct (Z.leb_spec (Chunker.len transcript) chunk_size); [lia|].
  exact (ChunkShapeFacts.chunk_loop_covers transcript chunk_size overlap Hcs Hov
           _ 0 chunks i ltac:(lia) H Hi Hc).
Qed.

Lemma X4_chunks_cover_the_text_witness :
  exists a b,
    0 <= a /\ a <= 10 < b /\ b - a <= 6 /\
    In (strip (slice (list_ascii_of_string "One. Two! Three") a b))
      (default []
         (Chunker._chunk_transcript (list_ascii_of_string "One. Two! Three") 6 9)).
Proof.
  apply (X4_chunks_cover_the_text (list_ascii_of_string "One. Two! Three") 6 9);
    [lia|lia|vm_compute; reflexivity|vm_compute; reflexivity
    |vm_compute; split; [discriminate|reflexivity]|vm_compute; reflexivity].
Defined.

(** ** The flat format *)

Module FlatFacts.
Import RubricFacts RangeFacts PyFacts NormalizerFacts AggregationFacts
  FallbackFacts ValidatorFacts.

Lemma py_round_of_int (q : Q) (z : Z) : (q == inject_Z z)%Q -> py_round q = z.
Proof.
  unfold Qeq, py_round. cbn [Qnum Qden inject_Z]. intros H.
  rewrite Z.mul_1_r in H. rewrite H.
  rewrite Z.div_mul, Z.mod_mul by lia. reflexivity.
Qed.

Lemma py_round1_of_tenths (x : Q) (z : Z) :
  (x * 10 == inject_Z z)%Q -> py_round1 x = Qred (z # 10).
Proof. intros H. unfold py_round1. now rewrite (py_round_of_int _ z H). Qed.

Lemma fold_Qplus_proper (l : list Q) (a a' : Q) :
  (a == a')%Q -> (fold_left Qplus l a == fold_left Qplus l a')%Q.
Proof.
  revert a a'. induction l as [|x l IH]; intros a a' H; simpl; [exact H|].
  apply IH. now rewrite H.
Qed.

Lemma Qsum_scale {A} (k : Q) (f : A -> Q) (l : list A) (acc : Q) :
  (fold_left Qplus (map (fun x => k * f x) l) (k * acc)
   == k * fold_left Qplus (map f l) acc)%Q.
Proof.
  revert acc. induction l as [|x l IH]; intros acc; simpl; [reflexivity|].
  rewrite <- IH. apply fold_Qplus_proper. ring.
Qed.

Lemma Qle_bool_compat (a a' b b' : Q) :
  (a == a')%Q -> (b == b')%Q -> Qle_bool a b = Qle_bool a' b'.
Proof.
  intros Ha Hb. destruct (Qle_bool a' b') eqn:H.
  - apply Qle_bool_iff. apply Qle_bool_iff in H. now rewrite Ha, Hb.
  - destruct (Qle_bool a b) eqn:H'; [|reflexivity].
    apply Qle_bool_iff in H'. rewrite Ha, Hb in H'. apply Qle_bool_iff in H'.
    congruence.
Qed.

Lemma status_of_compat th (a b : Q) :
  (a == b)%Q -> status_of th a = status_of th b.
Proof.
  intros H. unfold status_of, Qgeb.
  rewrite (Qle_bool_compat (pass th) (pass th) a b), (Qle_bool_compat (revise th) (revise th) a b);
    [reflexivity|reflexivity|exact H|reflexivity|exact H].
Qed.

Lemma mapM_inv {A B} (f : A -> res B) (l : list A) ys :
  mapM f l = Ok ys -> Forall2 (fun x y => f x = Ok y) l ys.
Proof.
  revert ys. induction l as [|a l IH]; intros ys H; simpl in H.
  - injection H as <-. constructor.
  - destruct (f a) as [y|] eqn:Hy; simpl in H; [|discriminate].
    destruct (mapM f l) as [ys'|] eqn:Hys; simpl in H; [|discriminate].
    injection H as <-. constructor; auto.
Qed.

End FlatFacts.

(** ** The flat format when no call is answered *)

Module FlatFallbackFacts.
Import RubricFacts RangeFacts PyFacts NormalizerFacts AggregationFacts
  FallbackFacts ValidatorFacts FlatFacts.

Lemma chunker_returns transcript :
  exists chunks, Chunker._chunk_transcript transcript 8000 200 = Some chunks.
Proof.
  unfold Chunker._chunk_transcript.
  destruct (Z.leb_spec (Chunker.len transcript) 8000); [eauto|].
  apply ChunkerFacts.chunk_loop_terminates; unfold Chunker.len in *; lia.
Qed.

Lemma mean_tenths (v : Z) (p : positive) :
  (inject_Z (0 + Z.pos p * v) / inject_Z (Z.pos p) * 10 == inject_Z (v * 10))%Q.
Proof.
  unfold Qeq, Qdiv, Qmult, Qinv, inject_Z. cbn [Qnum Qden].
  rewrite !Pos2Z.inj_mul. lia.
Qed.

Lemma contributions_const cid (r : EvalResult) {A} (l : list A) :
  contributions cid (map (fun _ => r) l) =
  match Result.scores r ≫= (.!! cid) with
  | Some d => repeat d (length l)
  | None => []
  end.
Proof.
  unfold contributions.
  destruct (Result.scores r ≫= (.!! cid)) as [d|] eqn:E;
    induction l as [|a l IH]; [reflexivity| |reflexivity|].
  - cbn [map length repeat]. csimpl. rewrite E. now rewrite IH.
  - cbn [map]. csimpl. rewrite E. exact IH.
Qed.

Section Flat.
Variable rubric : OldRubric.
Variable scorer : Scorer.
Hypothesis rubric_ok : accepted_old rubric.
Hypothesis no_answer : forall call, scorer call = None.

(** A conservative entry of the flat format. *)
Definition six (conf : option Q) (n : string) : ScoreData :=
  {| score := Some 6%Q; confidence := conf; note := Some n |}.

Lemma old_scores_lookup conf n k :
  old_conservative_scores rubric conf n !! k =
  match find (fun c => String.eqb (old_id c) k) (old_criteria rubric) with
  | Some _ => Some (six conf n)
  | None => None
  end.
Proof.
  unfold old_conservative_scores.
  rewrite (update_fold_lookup old_id (fun _ _ => six conf n)) by apply rubric_ok.
  now rewrite lookup_empty.
Qed.

Lemma old_scores_criterion conf n c :
  In c (old_criteria rubric) ->
  old_conservative_scores rubric conf n !! old_id c = Some (six conf n).
Proof.
  intros Hc. rewrite old_scores_lookup.
  now rewrite (find_key_Some old_id _ c) by (apply rubric_ok || exact Hc).
Qed.

Lemma weighted_sum_six (sc : gmap string ScoreData) :
  (forall c, In c (old_criteria rubric) ->
             exists d, sc !! old_id c = Some d /\ score d = Some 6%Q) ->
  weighted_sum rubric sc =
  Ok (Qsum (map (fun c => 6 * old_weight c)%Q (old_criteria rubric))).
Proof.
  intros H. unfold weighted_sum.
  rewrite (mapM_all _ (fun c => 6 * old_weight c)%Q); [reflexivity|].
  apply Forall_forall. intros c Hc. apply list_elem_of_In in Hc.
  destruct (H c Hc) as (d & -> & Hs). simpl. rewrite Hs. reflexivity.
Qed.

Lemma total_weight_pos : (0 < total_weight rubric)%Q.
Proof.
  destruct rubric_ok as (_ & _ & _ & [Hsum _] & _).
  unfold total_weight. eapply Qlt_le_trans; [|exact Hsum]. reflexivity.
Qed.

Lemma six_ratio :
  (Qsum (map (fun c => 6 * old_weight c)%Q (old_criteria rubric))
   / total_weight rubric == 6)%Q.
Proof.
  unfold Qsum.
  rewrite (fold_Qplus_proper _ 0%Q (6 * 0)%Q) by ring.
  rewrite (Qsum_scale 6 old_weight). fold (Qsum (map old_weight (old_criteria rubric))).
  fold (total_weight rubric).
  pose proof total_weight_pos as Hpos. field.
  intros H0. rewrite H0 in Hpos. now apply Qlt_irrefl in Hpos.
Qed.

Lemma total_weight_nonzero : Qeq_bool (total_weight rubric) 0 = false.
Proof.
  destruct (Qeq_bool _ 0) eqn:H; [|reflexivity].
  apply Qeq_bool_iff in H. pose proof total_weight_pos as Hpos.
  rewrite H in Hpos. now apply Qlt_irrefl in Hpos.
Qed.

Lemma marker_prefix (n : string) :
  contains fallback_marker (fallback_marker +:+ n) = true.
Proof. apply contains_prefix. apply prefix_app_r. reflexivity. Qed.

(** What the result is in each of the cases. *)
Definition conservative_result (r : EvalResult) : Prop :=
  exists sc o w,
    Result.scores r = Some sc /\
    (forall c, In c (old_criteria rubric) ->
       exists e n, sc !! old_id c = Some e /\ score e = Some 6%Q /\
                   note e = Some n /\ contains fallback_marker n = true) /\
    (forall cid e, sc !! cid = Some e ->
                   exists c, In c (old_criteria rubric) /\ old_id c = cid) /\
    overall r = Some o /\
    weighted_score o = Some w /\ (w == 6)%Q /\
    pass_status o = Some (status_of (old_thresholds rubric) 6%Q).

Lemma old_fallback_value conf (n : string) :
  contains fallback_marker n = true ->
  exists r, old_fallback rubric conf n = Ok r /\ conservative_result r /\
            Result.scores r = Some (old_conservative_scores rubric conf n).
Proof.
  intros Hn. unfold old_fallback. cbv zeta.
  rewrite weighted_sum_six.
  2:{ intros c Hc. exists (six conf n). split; [now apply old_scores_criterion|reflexivity]. }
  cbn [bind]. rewrite total_weight_nonzero.
  eexists. split; [reflexivity|]. split; [|reflexivity].
  eexists _, _, _. split; [reflexivity|]. split; [|split; [|split; [reflexivity|]]].
  - intros c Hc. exists (six conf n), n.
    split; [now apply old_scores_criterion|]. auto.
  - intros cid e He. rewrite old_scores_lookup in He.
    destruct (find _ _) as [c|] eqn:Hf; [|discriminate].
    exists c. eapply find_key_In, Hf.
  - cbn [weighted_score pass_status].
    split; [reflexivity|]. split; [apply six_ratio|].
    f_equal. apply status_of_compat, six_ratio.
Qed.

Lemma aggregate_fallbacks (r0 : EvalResult) {A} (x : A) (l : list A) (n : string) :
  contains fallback_marker n = true ->
  Result.scores r0 = Some (old_conservative_scores rubric (Some 3%Q) n) ->
  exists r, _aggregate_chunk_results_old rubric (map (fun _ => r0) (x :: l)) = Ok r /\
            conservative_result r.
Proof.
  intros Hn Hsc. unfold _aggregate_chunk_results_old.
  cbn [map]. change (r0 :: map (fun _ => r0) l) with (map (fun _ : A => r0) (x :: l)).
  set (results := map (fun _ : A => r0) (x :: l)).
  set (agg := dict_from_keys (aggregate_criterion_old results) _).
  assert (Hagg : forall cid,
            agg !! cid =
            match find (fun c => String.eqb (old_id c) cid) (old_criteria rubric) with
            | Some _ => Some (aggregate_criterion_old results cid)
            | None => None
            end).
  { intros cid. unfold agg. rewrite dict_from_keys_lookup.
    pose proof (all_criterion_ids_elem results cid) as Hin.
    unfold results in Hin at 2. rewrite contributions_const, Hsc in Hin.
    cbn [mbind option_bind] in Hin. rewrite old_scores_lookup in Hin.
    destruct (find _ _) as [c|].
    - rewrite decide_True; [reflexivity|]. apply Hin. discriminate.
    - rewrite decide_False; [reflexivity|]. intros H. now apply Hin in H. }
  assert (Hentry : forall c, In c (old_criteria rubric) ->
            exists e m, agg !! old_id c = Some e /\ score e = Some 6%Q /\
                        note e = Some m /\ contains fallback_marker m = true).
  { intros c Hc. rewrite Hagg.
    rewrite (find_key_Some old_id _ c) by (apply rubric_ok || exact Hc).
    eexists _, _. split; [reflexivity|].
    unfold aggregate_criterion_old, results.
    rewrite contributions_const, Hsc. cbn [mbind option_bind].
    rewrite (old_scores_criterion _ _ c Hc). cbn [length repeat map].
    cbn [score note six default]. split; [|split; [reflexivity|]].
    - f_equal. rewrite map_repeat. cbn [score six default]. unfold id.
      rewrite repeat_length.
      change (6%Q :: repeat 6%Q (length l)) with (repeat (inject_Z 6) (S (length l))).
      unfold Qsum. change 0%Q with (inject_Z 0). rewrite Qsum_repeat.
      change (Z.of_nat (S (length l))) with (Z.pos (Pos.of_succ_nat (length l))).
      rewrite (py_round1_of_tenths _ (6 * 10)) by apply mean_tenths. reflexivity.
    - apply combined_note_marker. exact Hn. }
  assert (Hpos : Rubric.Qltb 0 (total_weight rubric) = true).
  { unfold Rubric.Qltb. apply negb_true_iff, Qle_bool_false, total_weight_pos. }
  rewrite Hpos.
  rewrite (weighted_sum_six agg).
  2:{ intros c Hc. destruct (Hentry c Hc) as (e & m & He & Hs & _). eauto. }
  cbn [bind]. eexists. split; [reflexivity|].
  eexists _, _, _. split; [reflexivity|]. split; [exact Hentry|].
  split; [|split; [reflexivity|]].
  - intros cid e He. rewrite Hagg in He.
    destruct (find _ _) as [c|] eqn:Hf; [|discriminate].
    exists c. eapply find_key_In, Hf.
  - cbn [weighted_score pass_status].
    split; [reflexivity|].
    assert (Hten : (Qsum (map (fun c => 6 * old_weight c) (old_criteria rubric))
                    / total_weight rubric * 10 == inject_Z 60)%Q).
    { rewrite six_ratio. reflexivity. }
    rewrite (py_round1_of_tenths _ 60 Hten).
    split; [reflexivity|]. f_equal. apply status_of_compat, six_ratio.
Qed.

Lemma flat_fallback transcript :
  exists r, _evaluate_with_old_rubric_format rubric scorer transcript = Ok r /\
            conservative_result r.
Proof.
  unfold _evaluate_with_old_rubric_format.
  destruct (4000 <? Z.of_nat (length transcript)).
  - unfold _evaluate_old_rubric_chunked.
    destruct (chunker_returns transcript) as [chunks ->]. cbn [bind].
    destruct (old_fallback_value (Some 3%Q)
                "Auto-generated conservative score for chunk")
      as (r0 & Hr0 & _ & Hsc0); [apply (marker_prefix " for chunk")|].
    rewrite (mapM_all _ (fun _ => r0)).
    2:{ apply Forall_forall. intros [i chunk] _.
        unfold _evaluate_single_chunk_old. rewrite no_answer. exact Hr0. }
    cbn [bind]. destruct (enumerate chunks) as [|x l].
    + destruct (old_fallback_value None "Auto-generated conservative score")
        as (r & Hr & Hcons & _); [reflexivity|]. eauto.
    + eapply aggregate_fallbacks; [|exact Hsc0]. apply (marker_prefix " for chunk").
  - rewrite no_answer.
    destruct (old_fallback_value None "Auto-generated conservative score")
      as (r & Hr & Hcons & _); [reflexivity|]. eauto.
Qed.

End Flat.
End FlatFallbackFacts.



(** ** Splitting and joining *)

Module PyTextFacts.
Import PyText.

(** A text without whitespace. *)
Definition spaceless (w : text) : Prop := Forall (fun c => isspace c = false) w.

Lemma split_from_app cur w s :
  spaceless w -> split_from cur (w ++ s) = split_from (rev w ++ cur) s.
Proof.
  intros Hw. revert cur. induction Hw as [|c w Hc _ IH]; intros cur; [reflexivity|].
  simpl. rewrite Hc, IH. now rewrite <- app_assoc.
Qed.

Lemma split_from_spaceless cur s :
  spaceless cur ->
  Forall (fun w => w <> [] /\ spaceless w) (split_from cur s).
Proof.
  revert cur. induction s as [|c s IH]; intros cur Hcur; simpl.
  - destruct cur as [|a cur]; [constructor|].
    constructor; [|constructor]. split.
    + intros H. apply (f_equal (@length ascii)) in H.
      rewrite length_rev in H. discriminate.
    + apply Forall_rev. exact Hcur.
  - destruct (isspace c) eqn:Hc.
    + destruct cur as [|a cur]; [apply IH; constructor|].
      constructor; [|apply IH; constructor]. split.
      * intros H. apply (f_equal (@length ascii)) in H.
        rewrite length_rev in H. discriminate.
      * apply Forall_rev. exact Hcur.
    + apply IH. constructor; assumption.
Qed.

Lemma split_words s : Forall (fun w => w <> [] /\ spaceless w) (split s).
Proof. apply split_from_spaceless. constructor. Qed.

(** Joining words with one blank and splitting again gives the words. *)
Lemma split_join ws :
  Forall (fun w => w <> [] /\ spaceless w) ws ->
  split (join_text (list_ascii_of_string " ") ws) = ws.
Proof.
  unfold split. induction 1 as [|w ws [Hne Hw] Hws IH]; [reflexivity|].
  destruct ws as [|w' ws].
  - cbn [join_text]. rewrite <- (app_nil_r w) at 1.
    rewrite split_from_app by exact Hw. rewrite app_nil_r. cbn [split_from].
    destruct (rev w) eqn:Hr; [|now rewrite <- Hr, rev_involutive].
    apply (f_equal (@length ascii)) in Hr. rewrite length_rev in Hr.
    destruct w; [contradiction|discriminate].
  - change (join_text (list_ascii_of_string " ") (w :: w' :: ws))
      with (w ++ " "%char :: join_text (list_ascii_of_string " ") (w' :: ws)).
    rewrite split_from_app by exact Hw. rewrite app_nil_r.
    cbn [split_from]. change (isspace " ") with true. cbv iota.
    rewrite IH.
    destruct (rev w) eqn:Hr; [|now rewrite <- Hr, rev_involutive].
    apply (f_equal (@length ascii)) in Hr. rewrite length_rev in Hr.
    destruct w; [contradiction|discriminate].
Qed.

(** The same with a suffix without whitespace glued to the last word. *)
Lemma split_join_suffix ws (sfx : text) :
  Forall (fun w => w <> [] /\ spaceless w) ws -> ws <> [] -> spaceless sfx ->
  length (split (join_text (list_ascii_of_string " ") ws ++ sfx)) = length ws.
Proof.
  unfold split. intros Hws Hne Hs.
  induction Hws as [|w ws [Hwne Hw] Hws IH]; [contradiction|].
  destruct ws as [|w' ws].
  - cbn [join_text]. rewrite <- (app_nil_r (w ++ sfx)).
    rewrite split_from_app by (apply Forall_app; split; assumption).
    cbn [split_from]. destruct (rev (w ++ sfx) ++ []) eqn:Hr; [|reflexivity].
    apply (f_equal (@length ascii)) in Hr.
    rewrite app_nil_r, length_rev, length_app in Hr.
    destruct w; [contradiction|discriminate].
  - change (join_text (list_ascii_of_string " ") (w :: w' :: ws))
      with (w ++ " "%char :: join_text (list_ascii_of_string " ") (w' :: ws)).
    rewrite <- app_assoc. cbn [app].
    rewrite split_from_app by exact Hw. rewrite app_nil_r.
    cbn [split_from]. change (isspace " ") with true. cbv iota.
    destruct (rev w) eqn:Hr.
    { apply (f_equal (@length ascii)) in Hr. rewrite length_rev in Hr.
      destruct w; [contradiction|discriminate]. }
    cbn [length]. rewrite IH; [reflexivity|discriminate].
Qed.

End PyTextFacts.

(** X9.  Without a model answer the summary is made of the first 120
    words of the transcript joined by single blanks, with ["..."] glued
    to the last one when words were dropped.  It never has more than
    120 words; for a transcript of at most 120 words it has exactly the
    words of the transcript, and summarising it again returns it
    unchanged; for a longer transcript it has exactly 120 words. *)
Theorem X9_summary_without_model (transcript : text) :
  let ws := PyText.split transcript in
  let s := Transcript.summarize_transcript None transcript in
  (length (PyText.split s) <= 120)%nat /\
  ((length ws <= 120)%nat ->
   PyText.split s = ws /\ Transcript.summarize_transcript None s = s) /\
  ((120 < length ws)%nat -> length (PyText.split s) = 120%nat).
Proof.
  intros ws s. subst s. unfold Transcript.summarize_transcript. fold ws.
  pose proof (PyTextFacts.split_words transcript) as Hws. fold ws in Hws.
  destruct (Nat.ltb_spec 120 (length ws)) as [Hlong|Hshort].
  - assert (Hlen : length (PyText.split
                     (PyText.join_text (list_ascii_of_string " ") (firstn 120 ws)
                      ++ list_ascii_of_string "...")) = 120%nat).
    { rewrite PyTextFacts.split_join_suffix.
      - rewrite length_firstn. lia.
      - apply Forall_take. exact Hws.
      - destruct ws; [simpl in Hlong; lia|discriminate].
      - repeat constructor. }
    split; [lia|]. split; [lia|]. intros _. exact Hlen.
  - rewrite app_nil_r, firstn_all2 by lia.
    rewrite PyTextFacts.split_join by exact Hws.
    split; [exact Hshort|]. split; [|lia]. intros _.
    split; [reflexivity|].
    destruct (Nat.ltb_spec 120 (length ws)); [lia|].
    now rewrite app_nil_r, firstn_all2 by lia.
Qed.

(** ** Transcription quality and highlights *)

Module TranscriptFacts.
Import PyText Transcript.

Lemma py_round_bounds (q : Q) (a b : Z) :
  (inject_Z a <= q <= inject_Z b)%Q -> a <= py_round q <= b.
Proof.
  intros [Ha Hb]. destruct (RoundFacts.py_round_nearest q) as [Hlo Hhi].
  pose proof (Qle_trans _ _ _ Hlo Hb) as H1.
  pose proof (Qle_trans _ _ _ Ha Hhi) as H2.
  unfold Qle, Qminus, Qplus, Qopp, inject_Z in H1, H2. cbn in H1, H2. lia.
Qed.

Lemma py_round_to_1_bounds (q : Q) (a b : Z) :
  (inject_Z a <= q <= inject_Z b)%Q ->
  (inject_Z a <= py_round_to 1 q <= inject_Z b)%Q.
Proof.
  intros [Ha Hb]. unfold py_round_to. rewrite Qred_correct.
  change (Pos.pow 10 (Pos.of_nat 1)) with 10%positive.
  change (inject_Z (10 ^ Z.of_nat 1)) with 10%Q.
  destruct (py_round_bounds (q * 10) (a * 10) (b * 10)) as [Hlo Hhi].
  { rewrite !inject_Z_mult. split; apply Qmult_le_compat_r; auto; discriminate. }
  unfold Qle, inject_Z. cbn [Qnum Qden]. lia.
Qed.

Lemma Qmax_ge (a b : Q) : (a <= Qmax a b)%Q.
Proof.
  unfold Qmax. destruct (Qle_bool a b) eqn:H; [now apply Qle_bool_iff|apply Qle_refl].
Qed.

Lemma Qclamp_le (a b x : Q) : (a <= b)%Q -> (Qmax a (Qmin b x) <= b)%Q.
Proof.
  intros Hab. unfold Qmax, Qmin.
  destruct (Qle_bool b x) eqn:H1.
  - destruct (Qle_bool a b); [apply Qle_refl|exact Hab].
  - apply ValidatorFacts.Qle_bool_false in H1.
    destruct (Qle_bool a x); [now apply Qlt_le_weak|exact Hab].
Qed.

Lemma Qltb_true (a b : Q) : Rubric.Qltb a b = true <-> (a < b)%Q.
Proof.
  unfold Rubric.Qltb. rewrite negb_true_iff. apply ValidatorFacts.Qle_bool_false.
Qed.

Lemma Qgeb_true (a b : Q) : Qgeb a b = true <-> (b <= a)%Q.
Proof. apply Qle_bool_iff. Qed.

(** Sorting. *)
Definition desc {A} (key : A -> Q) (a b : A) : Prop := (key b <= key a)%Q.

Lemma insert_desc_perm {A} (key : A -> Q) x l :
  Permutation (insert_desc key x l) (x :: l).
Proof.
  induction l as [|y l IH]; simpl; [reflexivity|].
  destruct (Rubric.Qltb (key x) (key y)); [|reflexivity].
  rewrite IH. apply perm_swap.
Qed.

Lemma sorted_desc_perm {A} (key : A -> Q) l : Permutation (sorted_desc key l) l.
Proof.
  induction l as [|x l IH]; simpl; [reflexivity|].
  rewrite insert_desc_perm. now constructor.
Qed.

Lemma insert_desc_sorted {A} (key : A -> Q) x l :
  StronglySorted (desc key) l -> StronglySorted (desc key) (insert_desc key x l).
Proof.
  induction 1 as [|y l Hl IH Hy]; simpl; [repeat constructor|].
  destruct (Rubric.Qltb (key x) (key y)) eqn:Hxy.
  - constructor; [exact IH|].
    apply Qltb_true in Hxy.
    eapply Permutation_Forall; [symmetry; apply insert_desc_perm|].
    constructor; [now apply Qlt_le_weak|exact Hy].
  - assert (Hle : (key y <= key x)%Q).
    { apply Qnot_lt_le. intros H. apply Qltb_true in H. congruence. }
    constructor; [constructor; assumption|].
    constructor; [exact Hle|].
    eapply Forall_impl; [exact Hy|]. intros z Hz. unfold desc in *.
    eapply Qle_trans; eassumption.
Qed.

Lemma sorted_desc_sorted {A} (key : A -> Q) l :
  StronglySorted (desc key) (sorted_desc key l).
Proof.
  induction l as [|x l IH]; simpl; [constructor|]. now apply insert_desc_sorted.
Qed.

Lemma sorted_split {A} (R : A -> A -> Prop) (l1 l2 : list A) :
  StronglySorted R (l1 ++ l2) ->
  StronglySorted R l1 /\ forall a b, In a l1 -> In b l2 -> R a b.
Proof.
  induction l1 as [|x l1 IH]; simpl; intros H.
  - split; [constructor|intros ? ? []].
  - apply StronglySorted_inv in H as [Hs Hx]. destruct (IH Hs) as [Hs1 Hr].
    apply Forall_app in Hx as [Hx1 Hx2].
    split; [constructor; assumption|].
    intros a b [<-|Ha] Hb; [|auto].
    rewrite Forall_forall in Hx2. apply Hx2. now apply list_elem_of_In.
Qed.

Lemma slice_prefix {A} (l : list A) (k : Z) :
  0 <= k -> slice l 0 k = firstn (Z.to_nat k) l.
Proof.
  intros Hk. unfold slice, slice_index.
  destruct (Z.ltb_spec 0 0); [lia|]. destruct (Z.ltb_spec k 0); [lia|].
  replace (Z.to_nat (Z.min 0 (Z.of_nat (length l)))) with 0%nat by lia.
  cbn [skipn].
  destruct (Z.le_ge_cases k (Z.of_nat (length l))).
  - f_equal. lia.
  - transitivity l; [apply firstn_all2; lia|symmetry; apply firstn_all2; lia].
Qed.

Lemma omap_none {A B} (f : A -> option B) (l : list A) :
  Forall (fun x => f x = None) l -> omap f l = [].
Proof.
  induction 1 as [|x l Hx _ IH]; [reflexivity|]. csimpl. rewrite Hx. exact IH.
Qed.

End TranscriptFacts.

(** X10.  The transcription quality: the confidence that is reported
    lies between 0 and 100; a rating of ["high"] comes with no warning,
    and a rating of ["medium"] with no warning but, possibly, the one
    about the compression ratio.  Segments that carry none of the three
    metrics are rated ["high"], with a confidence and a speech
    percentage of 100. *)
Theorem X10_quality_rating_is_consistent (segments : list Transcript.Segment) :
  let q := Transcript._calculate_transcription_quality segments in
  (0 <= Transcript.avg_confidence q <= 100)%Q /\
  (Transcript.quality_rating q = "high"%string -> Transcript.warnings q = []) /\
  (Transcript.quality_rating q = "medium"%string ->
   forall w, In w (Transcript.warnings q) ->
             w = "High compression ratio - transcript may contain repetitions"%string) /\
  (segments <> [] ->
   Forall (fun s => Transcript.avg_logprob s = None /\
                    Transcript.compression_ratio s = None /\
                    Transcript.no_speech_prob s = None) segments ->
   Transcript.quality_rating q = "high"%string /\
   Transcript.avg_confidence q = 100%Q /\
   Transcript.speech_percentage q = 100%Q).
Proof.
  intros q. subst q. unfold Transcript._calculate_transcription_quality.
  destruct segments as [|s0 rest].
  { cbn. split; [split; discriminate|]. split; [discriminate|].
    split; [discriminate|]. intros H. contradiction. }
  set (segments := s0 :: rest).
  set (lp := Transcript.mean_or_zero (omap Transcript.avg_logprob segments)).
  set (cr := Transcript.mean_or_zero (omap Transcript.compression_ratio segments)).
  set (ns := Transcript.mean_or_zero (omap Transcript.no_speech_prob segments)).
  cbv zeta.
  set (conf := Qmax 0 (Qmin 100 ((lp + (15 # 10)) * (6667 # 100)))).
  set (speech := ((1 - ns) * 100)%Q).
  cbn [Transcript.avg_confidence Transcript.quality_rating Transcript.warnings
       Transcript.speech_percentage].
  split; [|split; [|split]].
  - apply (TranscriptFacts.py_round_to_1_bounds conf 0 100). split.
    + apply TranscriptFacts.Qmax_ge.
    + apply TranscriptFacts.Qclamp_le. discriminate.
  - destruct (Qgeb conf 80 && Qgeb speech 85 && Rubric.Qltb cr 2) eqn:Hhigh.
    + intros _. apply andb_true_iff in Hhigh as [Hh Hcr].
      apply andb_true_iff in Hh as [Hc Hs].
      apply TranscriptFacts.Qgeb_true in Hc, Hs.
      apply TranscriptFacts.Qltb_true in Hcr.
      destruct (Rubric.Qltb conf 50) eqn:H1.
      { apply TranscriptFacts.Qltb_true in H1. exfalso.
        apply (Qlt_irrefl 80). eapply Qle_lt_trans; [exact Hc|].
        eapply Qlt_trans; [exact H1|reflexivity]. }
      destruct (Rubric.Qltb (25 # 10) cr) eqn:H2.
      { apply TranscriptFacts.Qltb_true in H2. exfalso.
        apply (Qlt_irrefl cr). eapply Qlt_trans; [exact Hcr|].
        eapply Qlt_trans; [|exact H2]. reflexivity. }
      destruct (Rubric.Qltb speech 70) eqn:H3; [|reflexivity].
      apply TranscriptFacts.Qltb_true in H3. exfalso.
      apply (Qlt_irrefl 85). eapply Qle_lt_trans; [exact Hs|].
      eapply Qlt_trans; [exact H3|reflexivity].
    + destruct (Qgeb conf 60 && Qgeb speech 70); discriminate.
  - destruct (Qgeb conf 80 && Qgeb speech 85 && Rubric.Qltb cr 2); [discriminate|].
    destruct (Qgeb conf 60 && Qgeb speech 70) eqn:Hmed; [|discriminate].
    intros _ w Hw. apply andb_true_iff in Hmed as [Hc Hs].
    apply TranscriptFacts.Qgeb_true in Hc, Hs.
    destruct (Rubric.Qltb conf 50) eqn:H1.
    { apply TranscriptFacts.Qltb_true in H1. exfalso.
      apply (Qlt_irrefl 60). eapply Qle_lt_trans; [exact Hc|].
      eapply Qlt_trans; [exact H1|reflexivity]. }
    destruct (Rubric.Qltb speech 70) eqn:H3.
    { apply TranscriptFacts.Qltb_true in H3. exfalso.
      apply (Qlt_irrefl 70). eapply Qle_lt_trans; [exact Hs|exact H3]. }
    rewrite app_nil_r in Hw. cbn [app] in Hw.
    destruct (Rubric.Qltb (25 # 10) cr);
      [destruct Hw as [<-|[]]; reflexivity|destruct Hw].
  - intros _ Hnone.
    assert (Hlp : omap Transcript.avg_logprob segments = []).
    { apply TranscriptFacts.omap_none.
      eapply Forall_impl; [exact Hnone|]. now intros s (H & _). }
    assert (Hcr : omap Transcript.compression_ratio segments = []).
    { apply TranscriptFacts.omap_none.
      eapply Forall_impl; [exact Hnone|]. now intros s (_ & H & _). }
    assert (Hns : omap Transcript.no_speech_prob segments = []).
    { apply TranscriptFacts.omap_none.
      eapply Forall_impl; [exact Hnone|]. now intros s (_ & _ & H). }
    subst conf speech lp cr ns. rewrite Hlp, Hcr, Hns.
    split; [|split]; vm_compute; reflexivity.
Qed.

(** X11.  For [top_k >= 0], [pick_highlights] returns [min(top_k, n)] of
    the [n] segments, in descending order of their heuristic score, and
    no segment that is left out scores more than one that is returned. *)
Theorem X11_pick_highlights_takes_the_top (segments : list Transcript.Segment)
    (top_k : Z) :
  0 <= top_k ->
  let picked := Transcript.pick_highlights segments top_k in
  exists rest,
    Permutation (picked ++ rest) segments /\
    Z.of_nat (length picked) = Z.min top_k (Z.of_nat (length segments)) /\
    StronglySorted
      (fun a b => (Transcript.highlight_score b <= Transcript.highlight_score a)%Q)
      picked /\
    (forall a b, In a picked -> In b rest ->
       (Transcript.highlight_score b <= Transcript.highlight_score a)%Q).
Proof.
  intros Hk picked. subst picked. unfold Transcript.pick_highlights.
  rewrite TranscriptFacts.slice_prefix by exact Hk.
  set (sorted := PyText.sorted_desc Transcript.highlight_score segments).
  exists (skipn (Z.to_nat top_k) sorted).
  pose proof (TranscriptFacts.sorted_desc_perm Transcript.highlight_score segments)
    as Hperm. fold sorted in Hperm.
  pose proof (TranscriptFacts.sorted_desc_sorted Transcript.highlight_score segments)
    as Hsorted. fold sorted in Hsorted.
  rewrite <- (firstn_skipn (Z.to_nat top_k) sorted) in Hsorted.
  apply TranscriptFacts.sorted_split in Hsorted as [Hs Hr].
  split; [now rewrite firstn_skipn|]. split; [|split; [exact Hs|exact Hr]].
  rewrite length_firstn, (Permutation_length Hperm). lia.
Qed.

Lemma X11_pick_highlights_takes_the_top_witness :
  let picked :=
    Transcript.pick_highlights
      [MoreExamples.plain_segment; MoreExamples.doubtful_segment] 1 in
  exists rest,
    Permutation (picked ++ rest)
      [MoreExamples.plain_segment; MoreExamples.doubtful_segment] /\
    Z.of_nat (length picked) = Z.min 1 (Z.of_nat 2) /\
    StronglySorted
      (fun a b => (Transcript.highlight_score b <= Transcript.highlight_score a)%Q)
      picked /\
    (forall a b, In a picked -> In b rest ->
       (Transcript.highlight_score b <= Transcript.highlight_score a)%Q).
Proof.
  apply (X11_pick_highlights_takes_the_top
           [MoreExamples.plain_segment; MoreExamples.doubtful_segment] 1).
  lia.
Defined.

(** ** Rubric files *)

Module RubricFilesFacts.
Import Rubric RubricFiles.

Definition renamed (original_name filename_ : string) : string :=
  original_name +:+ " (" +:+ filename_ +:+ ")".

(** The loop ends at once or after one renaming, or not at all. *)
Lemma rename_stuck fuel seen original filename_ n :
  renamed original filename_ ∈ seen -> n ∈ seen ->
  rename_until_new fuel seen original filename_ n = None.
Proof.
  intros Hr. revert n. induction fuel as [|fuel IH]; intros n Hn; [reflexivity|].
  simpl. rewrite decide_True by exact Hn. apply IH. exact Hr.
Qed.

Lemma rename_result fuel seen original filename_ n :
  rename_until_new fuel seen original filename_ original = Some n ->
  (n ∉ seen) /\
  (((original ∉ seen) /\ n = original) \/
   ((original ∈ seen) /\ n = renamed original filename_)).
Proof.
  destruct fuel as [|fuel]; [discriminate|]. simpl.
  destruct (decide (original ∈ seen)) as [Hin|Hout].
  - destruct fuel as [|fuel]; [discriminate|]. simpl.
    destruct (decide (_ ∈ seen)) as [Hin'|Hout'].
    + rewrite rename_stuck by assumption. discriminate.
    + intros [= <-]. split; [exact Hout'|]. right. split; [exact Hin|reflexivity].
  - intros [= <-]. split; [exact Hout|]. left. split; [exact Hout|reflexivity].
Qed.

Lemma dedupe_names_spec fuel seen rubrics out :
  dedupe_names fuel seen rubrics = Some out ->
  map filename out = map filename rubrics /\
  map description out = map description rubrics /\
  NoDup (map name out) /\
  (forall r, In r out -> name r ∉ seen) /\
  Forall2 (fun r r' => name r' = name r \/
                       name r' = renamed (name r) (filename r)) rubrics out.
Proof.
  revert seen out. induction rubrics as [|r rest IH]; intros seen out H; simpl in H.
  - injection H as <-. simpl. repeat split; try constructor. intros ? [].
  - destruct (rename_until_new _ _ _ _ _) as [n|] eqn:Hn; [|discriminate].
    destruct (dedupe_names fuel _ rest) as [out'|] eqn:Hout; [|discriminate].
    injection H as <-.
    apply rename_result in Hn as [Hfresh Hcases].
    destruct (IH _ _ Hout) as (Hf & Hd & Hnd & Hseen & Hall).
    simpl. split; [now rewrite Hf|]. split; [now rewrite Hd|].
    split; [|split].
    + constructor; [|exact Hnd].
      intros Hin. apply list_elem_of_In, in_map_iff in Hin as (r' & Hr' & Hin).
      apply (Hseen r' Hin). rewrite Hr'.
      apply elem_of_union. left. now apply elem_of_singleton.
    + intros r' [<-|Hin]; [exact Hfresh|].
      intros Hs. apply (Hseen r' Hin). apply elem_of_union. now right.
    + constructor; [|exact Hall]. simpl.
      destruct Hcases as [[_ ->]|[_ ->]]; auto.
Qed.

(** Three listed rubrics with the same name and the same file stem. *)
Definition same_rubric (n f : string) (r : Listing) : bool :=
  String.eqb (name r) n && String.eqb (filename r) f.

Definition taken (n f : string) (seen : gset string) : nat :=
  if decide (n ∈ seen) then
    if decide (renamed n f ∈ seen) then 2 else 1
  else 0.

Lemma dedupe_names_diverges fuel n f seen rubrics :
  (3 <= taken n f seen + length (List.filter (same_rubric n f) rubrics))%nat ->
  dedupe_names fuel seen rubrics = None.
Proof.
  revert seen. induction rubrics as [|r rest IH]; intros seen H.
  - simpl in H. unfold taken in H. repeat destruct (decide _); simpl in H; lia.
  - cbn [dedupe_names].
    destruct (rename_until_new _ _ _ _ _) as [m|] eqn:Hm; [|reflexivity].
    rewrite IH; [reflexivity|].
    apply rename_result in Hm as [Hfresh Hcases].
    assert (Hsub : seen ⊆ {[m]} ∪ seen) by (intros x Hx; apply elem_of_union; now right).
    assert (Hm_in : m ∈ ({[m]} ∪ seen : gset string))
      by (apply elem_of_union; left; now apply elem_of_singleton).
    cbn [List.filter] in H.
    destruct (same_rubric n f r) eqn:Hsame.
    + apply andb_true_iff in Hsame as [Hn Hf].
      apply String.eqb_eq in Hn, Hf. rewrite Hn, Hf in Hcases.
      cbn [length] in H. unfold taken in *.
      destruct Hcases as [[Hout ->]|[Hin ->]].
      * rewrite decide_False in H by exact Hout.
        rewrite decide_True by exact Hm_in. destruct (decide _); lia.
      * rewrite decide_True in H by exact Hin.
        rewrite decide_False in H by exact Hfresh.
        rewrite decide_True by (apply Hsub; exact Hin).
        rewrite decide_True by exact Hm_in. lia.
    + unfold taken in *. destruct (decide (n ∈ seen)) as [Hn|Hn].
      * rewrite decide_True by (apply Hsub; exact Hn).
        destruct (decide (renamed n f ∈ seen)) as [Hr|Hr].
        { rewrite decide_True by (apply Hsub; exact Hr). lia. }
        destruct (decide _); lia.
      * destruct (decide _); [destruct (decide _)|]; lia.
Qed.

End RubricFilesFacts.

(** X13.  When [list_available_rubrics] returns, the list is never
    empty: it has an entry for ["sample-rubric"], the built-in one put
    in front if no file has that stem.  The other entries are the valid
    rubrics marked as current, in the order of the files, and their
    names are pairwise distinct. *)
Theorem X13_listing_has_the_sample_and_distinct_names (fuel : nat)
    (files : list RubricFiles.RubricFile) (listing : list RubricFiles.Listing) :
  RubricFiles.list_available_rubrics fuel files = Some listing ->
  existsb (fun r => String.eqb (RubricFiles.filename r) "sample-rubric") listing
    = true /\
  exists available,
    (listing = available \/ listing = RubricFiles.sample_listing :: available) /\
    map RubricFiles.filename available =
      map RubricFiles.filename (omap RubricFiles.available_file files) /\
    NoDup (map RubricFiles.name available).
Proof.
  unfold RubricFiles.list_available_rubrics.
  destruct (RubricFiles.dedupe_names fuel ∅ _) as [available|] eqn:Hd; [|discriminate].
  intros [= <-].
  apply RubricFilesFacts.dedupe_names_spec in Hd as (Hf & _ & Hnd & _).
  destruct (existsb _ available) eqn:He; cbn [negb].
  - split; [exact He|]. exists available. auto.
  - split; [reflexivity|]. exists available. auto.
Qed.

Lemma X13_listing_has_the_sample_and_distinct_names_witness :
  existsb (fun r => String.eqb (RubricFiles.filename r) "sample-rubric")
    (default [] (RubricFiles.list_available_rubrics 2
                   [MoreExamples.demo_file "a"; MoreExamples.demo_file "b"]))
    = true /\
  exists available,
    (default [] (RubricFiles.list_available_rubrics 2
                   [MoreExamples.demo_file "a"; MoreExamples.demo_file "b"])
       = available \/
     default [] (RubricFiles.list_available_rubrics 2
                   [MoreExamples.demo_file "a"; MoreExamples.demo_file "b"])
       = RubricFiles.sample_listing :: available) /\
    map RubricFiles.filename available =
      map RubricFiles.filename
        (omap RubricFiles.available_file
           [MoreExamples.demo_file "a"; MoreExamples.demo_file "b"]) /\
    NoDup (map RubricFiles.name available).
Proof.
  apply (X13_listing_has_the_sample_and_distinct_names 2
           [MoreExamples.demo_file "a"; MoreExamples.demo_file "b"]).
  vm_compute. reflexivity.
Defined.

(** X14.  Three valid, current rubric files with the same name and the
    same file stem (in different sub-directories) make the loop that
    renames duplicates run for ever: the second renaming gives the name
    that the first gave, which is taken.  Whatever the fuel,
    [list_available_rubrics] does not return. *)
Theorem X14_listing_loops_on_three_namesakes (fuel : nat)
    (files : list RubricFiles.RubricFile) (n f : string) :
  (3 <= length (List.filter (RubricFilesFacts.same_rubric n f)
                  (omap RubricFiles.available_file files)))%nat ->
  RubricFiles.list_available_rubrics fuel files = None.
Proof.
  intros H. unfold RubricFiles.list_available_rubrics.
  rewrite (RubricFilesFacts.dedupe_names_diverges fuel n f); [reflexivity|].
  unfold RubricFilesFacts.taken. rewrite decide_False by apply not_elem_of_empty.
  exact H.
Qed.

Lemma X14_listing_loops_on_three_namesakes_witness :
  RubricFiles.list_available_rubrics 1000
    [MoreExamples.demo_file "a"; MoreExamples.demo_file "a";
     MoreExamples.demo_file "a"] = None.
Proof.
  apply (X14_listing_loops_on_three_namesakes 1000
           [MoreExamples.demo_file "a"; MoreExamples.demo_file "a";
            MoreExamples.demo_file "a"] "Demo" "a").
  vm_compute. lia.
Defined.

(** ** Feedback *)

Module FeedbackFacts.
Import Feedback.

Lemma slice_suffix {A} (l : list A) (p : positive) :
  slice l (Z.neg p) (Z.of_nat (length l)) =
  skipn (Z.to_nat (Z.of_nat (length l) - Z.pos p)) l.
Proof.
  unfold slice, slice_index.
  destruct (Z.ltb_spec (Z.neg p) 0); [|lia].
  destruct (Z.ltb_spec (Z.of_nat (length l)) 0); [lia|].
  rewrite Z.min_id.
  replace (Z.to_nat (Z.max 0 (Z.of_nat (length l) + Z.neg p)))
    with (Z.to_nat (Z.of_nat (length l) - Z.pos p)) by lia.
  apply firstn_all2. rewrite length_skipn. lia.
Qed.

End FeedbackFacts.


(** ** The points of a conservative category *)

Module CategoryRangeFacts.
Import RubricFacts RangeFacts NormalizerFacts FallbackFacts TranscriptFacts.

Lemma conservative_category_points conf note category sc :
  snd (conservative_category conf note category sc) =
  fold_right (fun c n => int_06 (criterion_max_points c) + n) 0 (criteria category).
Proof.
  unfold conservative_category.
  assert (Hgen : forall cs (s0 : gmap string ScoreData) p,
             snd (fold_left
                    (fun '(scores, category_points) c =>
                       (<[criterion_id c := conservative c conf note]> scores,
                        category_points + int_06 (criterion_max_points c)))
                    cs (s0, p)) =
             p + fold_right (fun c n => int_06 (criterion_max_points c) + n) 0 cs).
  { induction cs as [|c cs IH]; intros s0 p; simpl; [lia|].
    rewrite IH. lia. }
  rewrite Hgen. lia.
Qed.

Section Range.
Variable rubric : NewRubric.
Hypothesis rubric_ok : well_formed rubric.

Lemma category_max_pos category :
  In category (Rubric.categories rubric) -> 0 < Rubric.max_points category.
Proof. intros H. now apply rubric_ok. Qed.

End Range.
End CategoryRangeFacts.

(** ** A hierarchical rubric of at most ten criteria when no call is
    answered *)

Module SmallFallbackFacts.
Import RubricFacts RangeFacts PyFacts NormalizerFacts AggregationFacts
  FallbackFacts FlatFacts FlatFallbackFacts CategoryRangeFacts.

Lemma fold_flat_map {A B S} (f : S -> B -> S) (g : A -> list B) (l : list A) (s : S) :
  fold_left (fun m x => fold_left f (g x) m) l s = fold_left f (flat_map g l) s.
Proof.
  revert s. induction l as [|x l IH]; intros s; simpl; [reflexivity|].
  now rewrite fold_left_app, IH.
Qed.

Lemma conservative_category_scores conf note category (sc : gmap string ScoreData) :
  fst (conservative_category conf note category sc) =
  fold_left (fun m c => <[criterion_id c := conservative c conf note]> m)
    (criteria category) sc.
Proof.
  unfold conservative_category.
  assert (Hgen : forall cs (s0 : gmap string ScoreData) p,
             fst (fold_left
                    (fun '(scores, category_points) c =>
                       (<[criterion_id c := conservative c conf note]> scores,
                        category_points + int_06 (criterion_max_points c)))
                    cs (s0, p)) =
             fold_left (fun m c => <[criterion_id c := conservative c conf note]> m)
               cs s0).
  { induction cs as [|c cs IH]; intros s0 p; simpl; [reflexivity|]. apply IH. }
  apply Hgen.
Qed.

Lemma max_of_repeat (c : Q) (n : nat) : max_of c (repeat c n) = c.
Proof.
  unfold max_of. induction n as [|n IH]; simpl; [reflexivity|].
  unfold Qmax at 2. now rewrite (proj2 (Qle_bool_iff c c) (Qle_refl c)).
Qed.

Lemma Qeq_bool_inject_Z (z : Z) : z <> 0 -> Qeq_bool (inject_Z z) 0 = false.
Proof.
  intros H. unfold Qeq_bool, inject_Z. cbn [Qnum Qden].
  destruct (Z.eqb_spec (z * 1) (0 * 1)); [lia|reflexivity].
Qed.

Lemma Qltb_inject_Z (z : Z) : 0 < z -> Rubric.Qltb 0 (inject_Z z) = true.
Proof.
  intros H. apply TranscriptFacts.Qltb_true.
  unfold Qlt, inject_Z. cbn [Qnum Qden]. lia.
Qed.

Lemma insert_fold_union {A V} (key : A -> string) (h : A -> V) (l : list A)
    (m0 m : gmap string V) :
  fold_left (fun acc x => <[key x := h x]> acc) l m0 ∪ m =
  fold_left (fun acc x => <[key x := h x]> acc) l (m0 ∪ m).
Proof.
  revert m0. induction l as [|a l IH]; intros m0; simpl; [reflexivity|].
  now rewrite IH, insert_union_l.
Qed.

Section AllCallsFail.
Variable rubric : NewRubric.
Variable scorer : Scorer.
Hypothesis rubric_ok : well_formed rubric.
Hypothesis distinct_ids : NoDup (all_criterion_ids (Rubric.categories rubric)).
Hypothesis no_answer : forall call, scorer call = None.

Abbreviation cats := (Rubric.categories rubric).
Abbreviation all_criteria := (flat_map criteria (Rubric.categories rubric)).

Definition conservative_sum (category : Category) : Z :=
  fold_right (fun c n => int_06 (criterion_max_points c) + n) 0 (criteria category).

(** The scores and the blocks that the conservative evaluations build. *)
Definition conservative_scores (conf : Q) (note : string)
    : gmap string ScoreData :=
  fold_left (fun m c => <[criterion_id c := conservative c conf note]> m)
    all_criteria ∅.

Definition conservative_block (category : Category) : CategoryResult :=
  {| points := inject_Z (conservative_sum category);
     max_points := inject_Z (Rubric.max_points category);
     percentage :=
       percent (inject_Z (conservative_sum category))
         (inject_Z (Rubric.max_points category)) |}.

Lemma distinct_criteria : NoDup (map criterion_id all_criteria).
Proof. rewrite <- all_criterion_ids_map. exact distinct_ids. Qed.

Lemma in_all_criteria c :
  In c all_criteria <->
  exists category, In category cats /\ In c (criteria category).
Proof. apply in_flat_map. Qed.

Lemma conservative_scores_lookup conf note k :
  conservative_scores conf note !! k =
  match find (fun c => String.eqb (criterion_id c) k) all_criteria with
  | Some c => Some (conservative c conf note)
  | None => None
  end.
Proof.
  unfold conservative_scores.
  rewrite (update_fold_lookup criterion_id (fun c _ => conservative c conf note))
    by apply distinct_criteria.
  now rewrite lookup_empty.
Qed.

Lemma conservative_scores_criterion conf note category c :
  In category cats -> In c (criteria category) ->
  conservative_scores conf note !! criterion_id c = Some (conservative c conf note).
Proof.
  intros Hcat Hc. rewrite conservative_scores_lookup.
  rewrite (find_key_Some criterion_id _ c); [reflexivity|apply distinct_criteria|].
  apply in_all_criteria. eauto.
Qed.

Lemma fallback_loop note cats' (sc : gmap string ScoreData)
    (cm : gmap string CategoryResult) :
  (forall category, In category cats' -> In category cats) ->
  for_each cats'
    (fun category '(scores, categories) =>
       let '(scores, category_points) :=
         conservative_category 3 note category scores in
       if Rubric.max_points category =? 0 then Raise ZeroDivisionError
       else Ok (scores,
                <[category_id category :=
                    {| points := inject_Z category_points;
                       max_points := inject_Z (Rubric.max_points category);
                       percentage :=
                         percent (inject_Z category_points)
                           (inject_Z (Rubric.max_points category)) |}]>
                  categories))
    (sc, cm) =
  Ok (fold_left (fun m c => <[criterion_id c := conservative c 3 note]> m)
        (flat_map criteria cats') sc,
      fold_left (fun m category =>
                   <[category_id category := conservative_block category]> m)
        cats' cm).
Proof.
  revert sc cm. induction cats' as [|a cats' IH]; intros sc cm Hsub; [reflexivity|].
  cbn [for_each flat_map fold_left].
  pose proof (conservative_category_scores 3 note a sc) as Hfst.
  pose proof (conservative_category_points 3 note a sc) as Hsnd.
  destruct (conservative_category 3 note a sc) as [s1 pts].
  cbn [fst snd] in Hfst, Hsnd. subst s1 pts.
  pose proof (category_max_pos rubric rubric_ok a (Hsub a (or_introl eq_refl))).
  destruct (Z.eqb_spec (Rubric.max_points a) 0); [lia|].
  cbn [bind]. rewrite IH by (intros c Hc; apply Hsub; now right).
  now rewrite fold_left_app.
Qed.

Lemma blocks_lookup k :
  fold_left (fun m category =>
               <[category_id category := conservative_block category]> m)
    cats (∅ : gmap string CategoryResult) !! k =
  match find (fun category => String.eqb (category_id category) k) cats with
  | Some category => Some (conservative_block category)
  | None => None
  end.
Proof.
  rewrite (update_fold_lookup category_id (fun category _ => conservative_block category))
    by apply rubric_ok.
  now rewrite lookup_empty.
Qed.

Lemma blocks_total (m : gmap string CategoryResult) :
  (forall k,
     m !! k =
     match find (fun category => String.eqb (category_id category) k) cats with
     | Some category => Some (conservative_block category)
     | None => None
     end) ->
  sum_values points m = inject_Z (conservative_total cats) /\
  sum_values Result.max_points m =
    inject_Z (fold_right (fun category n => Rubric.max_points category + n) 0 cats).
Proof.
  intros Hm. destruct rubric_ok as (_ & Hnd & _). split.
  - apply (sum_values_items points category_id conservative_sum); [exact Hnd| |].
    + intros category Hcat. exists (conservative_block category).
      rewrite Hm, (find_key_Some category_id _ category Hnd Hcat). auto.
    + intros k [b Hk]. rewrite Hm in Hk.
      destruct (find _ _) as [category|] eqn:Hf; [|discriminate].
      exists category. eapply find_key_In, Hf.
  - apply (sum_values_items Result.max_points category_id Rubric.max_points);
      [exact Hnd| |].
    + intros category Hcat. exists (conservative_block category).
      rewrite Hm, (find_key_Some category_id _ category Hnd Hcat). auto.
    + intros k [b Hk]. rewrite Hm in Hk.
      destruct (find _ _) as [category|] eqn:Hf; [|discriminate].
      exists category. eapply find_key_In, Hf.
Qed.

Lemma max_total_pos :
  0 < fold_right (fun category n => Rubric.max_points category + n) 0 cats.
Proof.
  destruct rubric_ok as (Hne & _ & Hwf).
  assert (Hgen : forall l, (forall c, In c l -> 0 < Rubric.max_points c) ->
                           0 <= fold_right (fun c n => Rubric.max_points c + n) 0 l).
  { induction l as [|c l IH]; intros H; simpl; [lia|].
    pose proof (H c (or_introl eq_refl)) as Hc.
    specialize (IH (fun c' Hc' => H c' (or_intror Hc'))). lia. }
  destruct (Rubric.categories rubric) as [|c l]; [contradiction|]. simpl.
  pose proof (proj1 (Hwf c (or_introl eq_refl))) as Hc.
  specialize (Hgen l (fun c' Hc' => proj1 (Hwf c' (or_intror Hc')))). lia.
Qed.

(** What the result is in each of the cases. *)
Definition conservative_result (conf : Q) (r : EvalResult) : Prop :=
  exists o sc,
    overall r = Some o /\
    total_points o = Some (inject_Z (conservative_total cats)) /\
    Result.scores r = Some sc /\
    (forall category c,
        In category cats -> In c (criteria category) ->
        exists e n,
          sc !! criterion_id c = Some e /\
          score e = Some (inject_Z (int_06 (criterion_max_points c))) /\
          confidence e = Some conf /\
          note e = Some n /\ contains fallback_marker n = true) /\
    (forall k e, sc !! k = Some e ->
                 exists category c,
                   In category cats /\ In c (criteria category) /\
                   criterion_id c = k).

Lemma conservative_scores_result conf (n : string) r o :
  contains fallback_marker n = true ->
  overall r = Some o ->
  total_points o = Some (inject_Z (conservative_total cats)) ->
  Result.scores r = Some (conservative_scores conf n) ->
  conservative_result conf r.
Proof.
  intros Hn Ho Htotal Hsc. exists o, (conservative_scores conf n).
  split; [exact Ho|]. split; [exact Htotal|]. split; [exact Hsc|]. split.
  - intros category c Hcat Hc. exists (conservative c conf n), n.
    split; [now apply (conservative_scores_criterion conf n category)|]. auto.
  - intros k e He. rewrite conservative_scores_lookup in He.
    destruct (find _ _) as [c|] eqn:Hf; [|discriminate].
    apply find_key_In in Hf as [Hc Hk].
    apply in_all_criteria in Hc as (category & Hcat & Hc). eauto.
Qed.

Lemma fallback_value (n summary : string) :
  contains fallback_marker n = true ->
  exists r, fallback_evaluation rubric n summary = Ok r /\
            conservative_result 3 r /\
            Result.scores r = Some (conservative_scores 3 n).
Proof.
  intros Hn. unfold fallback_evaluation.
  rewrite fallback_loop by auto. cbn [bind].
  destruct (blocks_total _ blocks_lookup) as [Htotal Hmax].
  rewrite Hmax, Htotal.
  rewrite Qeq_bool_inject_Z by (pose proof max_total_pos; lia).
  eexists. split; [reflexivity|]. split; [|reflexivity].
  eapply (conservative_scores_result 3 n); [exact Hn| | |]; reflexivity.
Qed.

Lemma aggregated_points (agg : gmap string ScoreData) cs (a : Z) :
  (forall c, In c cs ->
     exists e, agg !! criterion_id c = Some e /\
               score e = Some (inject_Z (int_06 (criterion_max_points c)))) ->
  fold_left (fun pts c =>
               match agg !! criterion_id c with
               | Some d => (pts + default 0%Q (score d))%Q
               | None => pts
               end) cs (inject_Z a) =
  inject_Z (a + fold_right (fun c n => int_06 (criterion_max_points c) + n) 0 cs).
Proof.
  revert a. induction cs as [|c cs IH]; intros a H; simpl.
  - f_equal. lia.
  - destruct (H c (or_introl eq_refl)) as (e & -> & ->). cbn [default]. unfold id.
    rewrite inject_Z_plus_L, IH by (intros c' Hc'; apply H; now right).
    f_equal. lia.
Qed.

Lemma aggregate_conservative_chunks (r0 : EvalResult) {A} (x : A) (l : list A) (n : string) :
  contains fallback_marker n = true ->
  Result.scores r0 = Some (conservative_scores 3 n) ->
  exists r, _aggregate_chunk_results rubric (map (fun _ => r0) (x :: l)) = Ok r /\
            conservative_result 3 r.
Proof.
  intros Hn Hsc. unfold _aggregate_chunk_results.
  cbn [map]. change (r0 :: map (fun _ => r0) l) with (map (fun _ : A => r0) (x :: l)).
  set (results := map (fun _ : A => r0) (x :: l)).
  set (agg := dict_from_keys (aggregate_criterion rubric results) _).
  assert (Hagg : forall cid,
            agg !! cid =
            match find (fun c => String.eqb (criterion_id c) cid) all_criteria with
            | Some _ => Some (aggregate_criterion rubric results cid)
            | None => None
            end).
  { intros cid. unfold agg. rewrite dict_from_keys_lookup.
    pose proof (all_criterion_ids_elem results cid) as Hin.
    unfold results in Hin at 2. rewrite contributions_const, Hsc in Hin.
    cbn [mbind option_bind] in Hin. rewrite conservative_scores_lookup in Hin.
    destruct (find _ _) as [c|].
    - rewrite decide_True; [reflexivity|]. apply Hin. discriminate.
    - rewrite decide_False; [reflexivity|]. intros H. now apply Hin in H. }
  assert (Hentry : forall category c,
            In category cats -> In c (criteria category) ->
            exists e m,
              agg !! criterion_id c = Some e /\
              score e = Some (inject_Z (int_06 (criterion_max_points c))) /\
              confidence e = Some 3%Q /\
              note e = Some m /\ contains fallback_marker m = true).
  { intros category c Hcat Hc. rewrite Hagg.
    rewrite (find_key_Some criterion_id _ c);
      [|apply distinct_criteria|apply in_all_criteria; eauto].
    eexists _, _. split; [reflexivity|].
    unfold aggregate_criterion, results.
    rewrite contributions_const, Hsc. cbn [mbind option_bind].
    rewrite (conservative_scores_criterion 3 n category c Hcat Hc).
    cbn [length repeat map]. cbn [score confidence note conservative default].
    unfold id. split; [|split; [|split; [reflexivity|]]].
    - do 2 f_equal. rewrite map_repeat. cbn [score conservative default]. unfold id.
      cbn [length]. rewrite repeat_length.
      change (inject_Z (int_06 (criterion_max_points c))
              :: repeat (inject_Z (int_06 (criterion_max_points c))) (length l))
        with (repeat (inject_Z (int_06 (criterion_max_points c))) (S (length l))).
      unfold clamped_score. rewrite py_round_mean by lia.
      rewrite (find_crit_max_declared rubric rubric_ok distinct_ids category c Hcat Hc).
      destruct (category_ok rubric rubric_ok _ Hcat) as (_ & _ & Hpos & _).
      pose proof (int_06_range (criterion_max_points c)
                    ltac:(specialize (Hpos c Hc); lia)).
      lia.
    - f_equal. rewrite map_repeat. cbn [confidence conservative default]. unfold id.
      apply max_of_repeat.
    - apply combined_note_marker. exact Hn. }
  assert (Hblock : forall category, In category cats ->
            aggregate_category agg category = conservative_block category).
  { intros category Hcat. unfold aggregate_category, conservative_block. cbv zeta.
    destruct (category_ok rubric rubric_ok _ Hcat) as (Hmax & _ & Hpos & Hsum).
    assert (Hpts := aggregated_points agg (criteria category) 0).
    change (inject_Z 0) with 0%Q in Hpts. rewrite Hpts.
    2:{ intros c Hc. destruct (Hentry category c Hcat Hc) as (e & m & He & Hs & _).
        eauto. }
    rewrite Z.add_0_l. fold (conservative_sum category).
    rewrite Qclamp_id.
    2:{ pose proof (conservative_sum_range _ Hpos). unfold conservative_sum. lia. }
    rewrite Qltb_inject_Z by exact Hmax. reflexivity. }
  set (categories := fold_left _ cats ∅).
  assert (Hcats : forall k,
            categories !! k =
            match find (fun category => String.eqb (category_id category) k) cats with
            | Some category => Some (conservative_block category)
            | None => None
            end).
  { intros k. unfold categories.
    rewrite (update_fold_lookup category_id
               (fun category _ => aggregate_category agg category))
      by apply rubric_ok.
    rewrite lookup_empty.
    destruct (find _ _) as [category|] eqn:Hf; [|reflexivity].
    f_equal. apply Hblock. eapply find_key_In, Hf. }
  destruct (blocks_total _ Hcats) as [Htotal _].
  eexists. split; [reflexivity|].
  eexists _, _. split; [reflexivity|]. split.
  { unfold overall_of. cbn [total_points]. now rewrite Htotal. }
  split; [reflexivity|]. split; [exact Hentry|].
  intros k e He. rewrite Hagg in He.
  destruct (find _ _) as [c|] eqn:Hf; [|discriminate].
  apply find_key_In in Hf as [Hc Hk].
  apply in_all_criteria in Hc as (category & Hcat & Hc). eauto.
Qed.

Lemma small_fallback transcript :
  total_criteria rubric <= 10 ->
  exists r, _evaluate_with_new_rubric_format rubric scorer transcript = Ok r /\
            conservative_result 3 r.
Proof.
  intros Hfew. rewrite new_format_paths.
  destruct (Z.ltb_spec 10 (total_criteria rubric)); [lia|]. cbn [andb].
  destruct (4000 <? Z.of_nat (length transcript)).
  - unfold chunk_only_evaluation, chunks_of.
    destruct (chunker_returns transcript) as [chunks ->]. cbn [bind].
    destruct (fallback_value "Auto-generated conservative score for chunk"
                "Auto-generated conservative chunk evaluation")
      as (r0 & Hr0 & _ & Hsc0); [apply (marker_prefix " for chunk")|].
    rewrite (mapM_all _ (fun _ => r0)).
    2:{ apply Forall_forall. intros [i chunk] _.
        unfold _evaluate_single_chunk. rewrite no_answer.
        unfold _fallback_single_chunk_evaluation. rewrite Hr0. reflexivity. }
    cbn [bind]. destruct (enumerate chunks) as [|x l].
    + destruct (fallback_value "Auto-generated conservative score"
                  "Auto-generated conservative evaluation")
        as (r & Hr & Hcons & _); [reflexivity|]. eauto.
    + eapply aggregate_conservative_chunks; [|exact Hsc0]. apply (marker_prefix " for chunk").
  - unfold single_call_evaluation. rewrite no_answer.
    destruct (fallback_value "Auto-generated conservative score"
                "Auto-generated conservative evaluation")
      as (r & Hr & Hcons & _); [reflexivity|]. eauto.
Qed.

(** *** One call per category *)

Lemma prompt_ok category :
  (forall c, In c (criteria category) -> is_Some (desc c)) ->
  category_prompt category = Ok tt.
Proof.
  intros H. unfold category_prompt.
  rewrite (proj2 (forallb_forall _ _)); [reflexivity|].
  intros c Hc. apply bool_decide_eq_true_2. auto.
Qed.

Lemma category_only_loop transcript cats' (sc : gmap string ScoreData)
    (cm : gmap string CategoryResult) :
  (forall category, In category cats' -> In category cats) ->
  (forall category c, In category cats' -> In c (criteria category) ->
                      is_Some (desc c)) ->
  for_each cats'
    (fun category '(scores, categories) =>
       do category_result <- _evaluate_single_category rubric scorer category transcript;
       do category_scores <- getitem "scores" (Result.scores category_result);
       do category_block <- getitem "category" (Result.category category_result);
       Ok (category_scores ∪ scores,
           <[category_id category := category_block]> categories))
    (sc, cm) =
  Ok (fold_left (fun m c =>
                   <[criterion_id c := conservative c 5 fallback_marker]> m)
        (flat_map criteria cats') sc,
      fold_left (fun m category =>
                   <[category_id category := conservative_block category]> m)
        cats' cm).
Proof.
  revert sc cm. induction cats' as [|a cats' IH]; intros sc cm Hsub Hdesc;
    [reflexivity|].
  cbn [for_each flat_map fold_left].
  unfold _evaluate_single_category.
  rewrite prompt_ok by (intros c Hc; apply (Hdesc a); [now left|exact Hc]).
  rewrite no_answer. cbn [bind].
  change "Auto-generated conservative score"%string with fallback_marker.
  pose proof (conservative_category_scores 5 fallback_marker a ∅) as Hfst.
  pose proof (conservative_category_points 5 fallback_marker a ∅) as Hsnd.
  destruct (conservative_category 5 fallback_marker a ∅) as [s1 pts].
  cbn [fst snd] in Hfst, Hsnd. subst s1 pts.
  cbn [bind getitem Result.scores Result.category].
  rewrite Qltb_inject_Z
    by exact (category_max_pos rubric rubric_ok a (Hsub a (or_introl eq_refl))).
  rewrite IH;
    [|intros c Hc; apply Hsub; now right
     |intros category c Hcat; apply Hdesc; now right].
  rewrite fold_left_app.
  rewrite (insert_fold_union criterion_id
             (fun c => conservative c 5 fallback_marker)).
  now rewrite (left_id_L ∅ (∪)).
Qed.

Lemma category_only_fallback transcript :
  (forall category c, In category cats -> In c (criteria category) ->
                      is_Some (desc c)) ->
  exists r, category_only_evaluation rubric scorer transcript = Ok r /\
            exists o, overall r = Some o /\
              total_points o = Some (inject_Z (conservative_total cats)) /\
              Result.scores r = Some (conservative_scores 5 fallback_marker).
Proof.
  intros Hdesc. unfold category_only_evaluation.
  rewrite category_only_loop by auto. cbn [bind].
  destruct (blocks_total _ blocks_lookup) as [Htotal Hmax].
  rewrite Hmax, Htotal.
  rewrite Qeq_bool_inject_Z by (pose proof max_total_pos; lia).
  eexists. split; [reflexivity|].
  eexists. split; [reflexivity|]. split; reflexivity.
Qed.

End AllCallsFail.
End SmallFallbackFacts.





(** ** The id of a new rubric *)

Module RubricIdFacts.
Import RubricId.

(** *** Strings *)

Lemma str_inj (a b : Z) : str a = str b -> a = b.
Proof.
  unfold str. intros H.
  assert (Hnil : forall z, Z.to_int z <> Decimal.Pos Decimal.Nil /\
                           Z.to_int z <> Decimal.Neg Decimal.Nil).
  { intros [|p|p]; simpl; split; try discriminate;
      intros [= Hp]; now apply (DecimalPos.Unsigned.to_uint_nonnil p). }
  assert (Hint : Some (Z.to_int a) = Some (Z.to_int b)).
  { rewrite <- (NilZero.isi (Z.to_int a)) by apply Hnil.
    rewrite <- (NilZero.isi (Z.to_int b)) by apply Hnil.
    now rewrite H. }
  injection Hint as Hint.
  rewrite <- (DecimalZ.of_to a), <- (DecimalZ.of_to b). now rewrite Hint.
Qed.

Lemma numbered_inj base_id (a b : Z) :
  numbered base_id a = numbered base_id b -> a = b.
Proof.
  unfold numbered. intros H. apply app_inv_head in H. injection H as H.
  apply str_inj.
  rewrite <- (string_of_list_ascii_of_string (str a)),
          <- (string_of_list_ascii_of_string (str b)).
  now rewrite H.
Qed.

Lemma numbered_not_base base_id (a : Z) : numbered base_id a <> base_id.
Proof.
  unfold numbered. intros H.
  apply (f_equal (@length ascii)) in H. rewrite length_app in H. simpl in H. lia.
Qed.

(** *** Runs of dashes *)

Lemma two_step_ind (P : list ascii -> Prop) :
  P [] -> (forall c, P [c]) ->
  (forall c1 c2 rest, P rest -> P (c2 :: rest) -> P (c1 :: c2 :: rest)) ->
  forall s, P s.
Proof.
  intros H0 H1 H2 s.
  enough (H : P s /\ forall c, P (c :: s)) by apply H.
  induction s as [|c s [IH1 IH2]]; [split; auto|].
  split; [apply IH2|]. intros c'. apply H2; [exact IH1|apply IH2].
Qed.

Lemma has_dashes_iff s :
  has_dashes s = true <-> exists p q, s = p ++ dash :: dash :: q.
Proof.
  induction s as [|c1 [|c2 rest] IH]; cbn [has_dashes].
  - split; [discriminate|]. intros ([|? ?] & q & H); discriminate H.
  - split; [discriminate|]. intros ([|? [|? ?]] & q & H); discriminate H.
  - rewrite orb_true_iff, andb_true_iff, IH. split.
    + intros [[H1 H2]|(p & q & H)].
      * apply Ascii.eqb_eq in H1, H2. subst. now exists [], rest.
      * exists (c1 :: p), q. now rewrite H.
    + intros ([|c p] & q & H).
      * injection H as -> -> _. left. now rewrite !Ascii.eqb_refl.
      * injection H as _ H. right. eauto.
Qed.

Lemma has_dashes_infix a s b :
  has_dashes (a ++ s ++ b) = false -> has_dashes s = false.
Proof.
  intros H. destruct (has_dashes s) eqn:Hs; [|reflexivity].
  apply has_dashes_iff in Hs as (p & q & ->).
  enough (Ht : has_dashes (a ++ (p ++ dash :: dash :: q) ++ b) = true)
    by congruence.
  apply has_dashes_iff. exists (a ++ p), (q ++ b).
  now rewrite <- !app_assoc.
Qed.

Lemma replace_dashes_cons c1 c2 rest :
  replace_dashes (c1 :: c2 :: rest) =
  if Ascii.eqb c1 dash && Ascii.eqb c2 dash
  then dash :: replace_dashes rest
  else c1 :: replace_dashes (c2 :: rest).
Proof. reflexivity. Qed.

Lemma has_dashes_cons c1 c2 rest :
  has_dashes (c1 :: c2 :: rest) =
  (Ascii.eqb c1 dash && Ascii.eqb c2 dash) || has_dashes (c2 :: rest).
Proof. reflexivity. Qed.

Lemma replace_dashes_length s :
  (length (replace_dashes s) <= length s)%nat /\
  (has_dashes s = true -> (length (replace_dashes s) < length s)%nat).
Proof.
  induction s as [| |c1 c2 rest [IH1 IH2] [IH3 IH4]] using two_step_ind.
  - split; [reflexivity|discriminate].
  - split; [reflexivity|discriminate].
  - rewrite replace_dashes_cons, has_dashes_cons.
    destruct (Ascii.eqb c1 dash && Ascii.eqb c2 dash); cbn [orb].
    + cbn [length]. split; intros; lia.
    + change (length (c1 :: replace_dashes (c2 :: rest)))
        with (S (length (replace_dashes (c2 :: rest)))).
      change (length (c1 :: c2 :: rest)) with (S (length (c2 :: rest))).
      split; [lia|]. intros H. specialize (IH4 H). lia.
Qed.

Lemma replace_dashes_Forall (P : ascii -> Prop) s :
  Forall P s -> Forall P (replace_dashes s).
Proof.
  induction s as [| |c1 c2 rest IH1 IH2] using two_step_ind; intros H;
    [exact H|exact H|].
  rewrite replace_dashes_cons.
  apply Forall_cons in H as [H1 H]. pose proof H as H'.
  apply Forall_cons in H' as [H2 H'].
  destruct (Ascii.eqb c1 dash && Ascii.eqb c2 dash) eqn:Hd.
  - apply andb_true_iff in Hd as [Hd _]. apply Ascii.eqb_eq in Hd. subst c1.
    apply Forall_cons. auto.
  - apply Forall_cons. auto.
Qed.

Lemma collapse_dashes_ends fuel s :
  (length s < fuel)%nat ->
  exists t, collapse_dashes fuel s = Some t /\ has_dashes t = false /\
            forall P : ascii -> Prop, Forall P s -> Forall P t.
Proof.
  revert s. induction fuel as [|fuel IH]; intros s Hlen; [lia|].
  cbn [collapse_dashes]. destruct (has_dashes s) eqn:Hd.
  - destruct (IH (replace_dashes s)) as (t & Ht & Hnd & HP).
    { pose proof (proj2 (replace_dashes_length s) Hd). lia. }
    exists t. split; [exact Ht|]. split; [exact Hnd|].
    intros P HPs. apply HP, replace_dashes_Forall, HPs.
  - exists s. auto.
Qed.

Lemma collapse_dashes_more fuel extra s t :
  collapse_dashes fuel s = Some t -> collapse_dashes (fuel + extra) s = Some t.
Proof.
  revert s. induction fuel as [|fuel IH]; intros s H; [discriminate|].
  cbn [collapse_dashes Nat.add] in *. destruct (has_dashes s); [auto|exact H].
Qed.

(** *** Dashes at the ends *)

Definition no_lead (s : text) : Prop :=
  match s with [] => True | c :: _ => c <> dash end.

Lemma lstrip_dashes_no_lead s : no_lead (lstrip_dashes s).
Proof.
  induction s as [|c s IH]; simpl; [exact I|].
  destruct (Ascii.eqb_spec c dash); [exact IH|assumption].
Qed.

Lemma lstrip_dashes_suffix s : exists p, s = p ++ lstrip_dashes s.
Proof.
  induction s as [|c s [p IH]]; simpl; [now exists []|].
  destruct (Ascii.eqb c dash); [|now exists []].
  exists (c :: p). simpl. now f_equal.
Qed.

Lemma no_lead_suffix p s : no_lead (rev (p ++ s)) -> no_lead (rev s).
Proof.
  rewrite rev_app_distr. destruct (rev s); [intros; exact I|auto].
Qed.

Lemma strip_dashes_infix s : exists a b, s = a ++ strip_dashes s ++ b.
Proof.
  unfold strip_dashes.
  destruct (lstrip_dashes_suffix s) as [a Ha].
  destruct (lstrip_dashes_suffix (rev (lstrip_dashes s))) as [b Hb].
  exists a, (rev b). rewrite <- rev_app_distr, <- Hb, rev_involutive. exact Ha.
Qed.

Lemma strip_dashes_ends s :
  no_lead (strip_dashes s) /\ no_lead (rev (strip_dashes s)).
Proof.
  unfold strip_dashes. rewrite rev_involutive. split; [|apply lstrip_dashes_no_lead].
  destruct (lstrip_dashes_suffix (rev (lstrip_dashes s))) as [p Hp].
  apply (no_lead_suffix p). rewrite <- Hp, rev_involutive.
  apply lstrip_dashes_no_lead.
Qed.

(** *** The search for a free id *)

Section Search.
Variable existing_ids : list text.
Variable base_id : text.

(** The ids that the loop tries, in order. *)
Definition candidate (i : nat) : text :=
  match i with
  | O => base_id
  | S _ => numbered base_id (Z.of_nat i)
  end.

Lemma candidate_inj : Inj eq eq candidate.
Proof.
  intros [|i] [|j] H; cbn [candidate] in H.
  - reflexivity.
  - symmetry in H. now apply numbered_not_base in H.
  - now apply numbered_not_base in H.
  - apply numbered_inj in H. lia.
Qed.

Lemma first_free_run m fuel i :
  (forall j, (i <= j < i + m)%nat -> candidate j ∈ existing_ids) ->
  candidate (i + m) ∉ existing_ids ->
  (m < fuel)%nat ->
  first_free existing_ids fuel base_id (candidate i) (Z.of_nat i + 1) =
  Some (candidate (i + m)).
Proof.
  revert fuel i. induction m as [|m IH]; intros fuel i Hin Hout Hfuel;
    (destruct fuel as [|fuel]; [lia|]); cbn [first_free].
  - rewrite Nat.add_0_r in *. now rewrite bool_decide_eq_false_2.
  - rewrite bool_decide_eq_true_2 by (apply Hin; lia).
    replace (numbered base_id (Z.of_nat i + 1)) with (candidate (S i))
      by (cbn [candidate]; f_equal; lia).
    replace (Z.of_nat i + 1 + 1) with (Z.of_nat (S i) + 1) by lia.
    rewrite (IH fuel (S i)); [f_equal; f_equal; lia| | |lia].
    + intros j Hj. apply Hin. lia.
    + now replace (S i + m)%nat with (i + S m)%nat by lia.
Qed.

Lemma first_tried n :
  (exists m, (m <= n)%nat /\ (candidate m ∉ existing_ids) /\
             forall j, (j < m)%nat -> candidate j ∈ existing_ids) \/
  (forall j, (j <= n)%nat -> candidate j ∈ existing_ids).
Proof.
  induction n as [|n [(m & Hm & Hout & Hin)|Hall]].
  - destruct (decide (candidate 0%nat ∈ existing_ids)) as [H|H].
    + right. intros j Hj. now replace j with 0%nat by lia.
    + left. exists 0%nat. split; [lia|]. split; [exact H|]. intros j Hj. lia.
  - left. exists m. split; [lia|auto].
  - destruct (decide (candidate (S n) ∈ existing_ids)) as [H|H].
    + right. intros j Hj. destruct (decide (j = S n)) as [->|]; [exact H|].
      apply Hall. lia.
    + left. exists (S n). split; [lia|]. split; [exact H|].
      intros j Hj. apply Hall. lia.
Qed.

(** One of the first [len(existing_ids) + 1] candidates is free. *)
Lemma free_candidate :
  exists m, (m <= length existing_ids)%nat /\ (candidate m ∉ existing_ids) /\
            forall j, (j < m)%nat -> candidate j ∈ existing_ids.
Proof.
  destruct (first_tried (length existing_ids)) as [H|Hall]; [exact H|].
  exfalso.
  assert (Hnd : NoDup (candidate <$> seq 0 (S (length existing_ids)))).
  { apply (@NoDup_fmap_2 _ _ candidate candidate_inj), NoDup_seq. }
  assert (Hsub : candidate <$> seq 0 (S (length existing_ids)) ⊆+ existing_ids).
  { apply NoDup_submseteq; [exact Hnd|].
    intros x Hx. apply list_elem_of_fmap in Hx as (j & -> & Hj).
    apply elem_of_seq in Hj. apply Hall. lia. }
  apply submseteq_length in Hsub. rewrite length_fmap, length_seq in Hsub. lia.
Qed.

Lemma first_free_ends extra :
  exists m, (m <= length existing_ids)%nat /\ (candidate m ∉ existing_ids) /\
    first_free existing_ids (length existing_ids + 1 + extra) base_id base_id 1 =
    Some (candidate m).
Proof.
  destruct free_candidate as (m & Hm & Hout & Hin).
  exists m. split; [exact Hm|]. split; [exact Hout|].
  apply (first_free_run m _ 0%nat); [intros j Hj; apply Hin; lia|exact Hout|lia].
Qed.

End Search.

Section Slug.
Variable lower : text -> text.
Variable isalnum : ascii -> bool.

(** A slug: letters, digits and single dashes, none at the ends. *)
Definition slug (s : text) : Prop :=
  Forall (fun c => isalnum c = true \/ c = dash) s /\
  has_dashes s = false /\ no_lead s /\ no_lead (rev s).

Lemma base_id_ends name extra :
  exists base_id, slug base_id /\
    forall more,
      base_id_of lower isalnum (length (lower name) + 1 + extra + more) name =
      Some base_id.
Proof.
  unfold base_id_of.
  set (s := List.filter _ _).
  assert (Hlen : (length s <= length (lower name))%nat).
  { unfold s, replace_char.
    etransitivity; [apply List.filter_length_le|]. now rewrite !length_map. }
  destruct (collapse_dashes_ends (length (lower name) + 1 + extra) s)
    as (t & Ht & Hnd & HP); [lia|].
  exists (strip_dashes t). split.
  - destruct (strip_dashes_infix t) as (a & b & Hab).
    split; [|split; [|apply strip_dashes_ends]].
    + assert (Hall : Forall (fun c => isalnum c = true \/ c = dash) t).
      { apply HP. unfold s. apply List.Forall_forall. intros c Hc.
        apply List.filter_In in Hc as [_ Hc].
        apply orb_true_iff in Hc as [Hc|Hc]; [now left|].
        right. now apply Ascii.eqb_eq. }
      rewrite Hab in Hall.
      apply Forall_app in Hall as [_ Hall]. now apply Forall_app in Hall as [Hall _].
    + apply (has_dashes_infix a _ b). now rewrite <- Hab.
  - intros more. now rewrite (collapse_dashes_more _ more _ _ Ht).
Qed.

End Slug.
End RubricIdFacts.

(** X20.  [generate_rubric_id] ends, whatever [str.lower] and
    [str.isalnum] do and whatever ids exist: with enough turns for its
    two loops it returns an id; for a name that is not empty that id is
    not one of the existing ids, and it is the slug of the name or the
    slug followed by a dash and a number between 1 and the number of
    existing ids.  The empty name gives the empty id. *)
Theorem X20_generate_rubric_id_is_free (lower : text -> text)
    (isalnum : ascii -> bool) (existing_ids : list text) (name : text) :
  exists rubric_id,
    (forall extra,
        RubricId.generate_rubric_id lower isalnum existing_ids
          (length (lower name) + length existing_ids + 1 + extra) name =
        Some rubric_id) /\
    ((name = [] /\ rubric_id = []) \/
     ((rubric_id ∉ existing_ids) /\
      exists base_id,
        (forall extra,
            RubricId.base_id_of lower isalnum
              (length (lower name) + length existing_ids + 1 + extra) name =
            Some base_id) /\
        (rubric_id = base_id \/
         exists counter,
           1 <= counter <= Z.of_nat (length existing_ids) /\
           rubric_id = RubricId.numbered base_id counter))).
Proof.
  destruct name as [|c name]; [exists []; split; [reflexivity|now left]|].
  set (nm := c :: name).
  destruct (RubricIdFacts.base_id_ends lower isalnum nm 0%nat)
    as (base_id & _ & Hbase).
  destruct (RubricIdFacts.free_candidate existing_ids base_id)
    as (m & Hm & Hout & Hin).
  assert (Hfuel : forall extra,
            (length (lower nm) + length existing_ids + 1 + extra =
             length (lower nm) + 1 + 0 + (length existing_ids + extra))%nat)
    by (intros; lia).
  exists (RubricIdFacts.candidate base_id m). split.
  - intros extra. unfold RubricId.generate_rubric_id, nm. fold nm.
    rewrite Hfuel, Hbase.
    apply (RubricIdFacts.first_free_run existing_ids base_id m _ 0%nat);
      [intros j Hj; apply Hin; lia|exact Hout|lia].
  - right. split; [exact Hout|]. exists base_id. split.
    + intros extra. rewrite Hfuel. apply Hbase.
    + destruct m as [|m]; [now left|]. right. exists (Z.of_nat (S m)).
      split; [lia|reflexivity].
Qed.

(** X21.  The id that [generate_rubric_id] builds on: for every name the
    loop that collapses the runs of dashes ends, and the base id it
    leaves holds only characters that [isalnum] accepts and dashes, has
    no two dashes in a row, and neither starts nor ends with a dash. *)
Theorem X21_base_id_is_a_slug (lower : text -> text) (isalnum : ascii -> bool)
    (name : text) :
  exists base_id,
    (forall extra,
        RubricId.base_id_of lower isalnum (length (lower name) + 1 + extra) name =
        Some base_id) /\
    Forall (fun c => isalnum c = true \/ c = RubricId.dash) base_id /\
    RubricId.has_dashes base_id = false /\
    head base_id <> Some RubricId.dash /\
    last base_id <> Some RubricId.dash.
Proof.
  destruct (RubricIdFacts.base_id_ends lower isalnum name 0%nat)
    as (base_id & (Hall & Hnd & Hlead & Htrail) & Hbase).
  exists base_id. split.
  - intros extra.
    replace (length (lower name) + 1 + extra)%nat
      with (length (lower name) + 1 + 0 + extra)%nat by lia.
    apply Hbase.
  - split; [exact Hall|]. split; [exact Hnd|]. split.
    + destruct base_id as [|c s]; [discriminate|].
      intros [= ->]. now apply Hlead.
    + rewrite <- (rev_involutive base_id).
      destruct (rev base_id) as [|c s]; [discriminate|].
      cbn [rev]. rewrite last_snoc. intros [= ->]. now apply Htrail.
Qed.

(** ** A chunk that falls back shows in the aggregate *)

Module PartialFallbackFacts.
Import RubricFacts PyFacts AggregationFacts FallbackFacts FlatFallbackFacts
  SmallFallbackFacts.

Lemma contains_nonempty (n h : string) :
  n <> ""%string -> contains n h = true -> h <> ""%string.
Proof.
  intros Hn H ->. destruct n as [|a n]; [contradiction|]. discriminate H.
Qed.

Lemma contains_join_In (n sep p : string) (parts : list string) :
  In p parts -> contains n p = true -> contains n (join sep parts) = true.
Proof.
  intros Hin Hp. induction parts as [|q parts IH]; [destruct Hin|].
  destruct Hin as [->|Hin]; [now apply contains_join|].
  destruct parts as [|q' parts]; [destruct Hin|].
  change (join sep (q :: q' :: parts)) with (q +:+ sep +:+ join sep (q' :: parts)).
  do 2 apply contains_app_l. now apply IH.
Qed.

(** The note of an aggregate carries the marker of any of its parts. *)
Lemma combined_note_marker_In (n : string) notes :
  In n notes -> contains fallback_marker n = true ->
  contains fallback_marker (combined_note notes) = true.
Proof.
  intros Hin Hn. unfold combined_note. do 3 apply contains_app_l.
  apply (contains_join_In _ _ n); [|exact Hn].
  apply List.filter_In. split; [exact Hin|].
  apply negb_true_iff, String.eqb_neq.
  now apply (contains_nonempty fallback_marker).
Qed.

Lemma contributions_In cid (r : EvalResult) rs sc d :
  In r rs -> Result.scores r = Some sc -> sc !! cid = Some d ->
  In d (contributions cid rs).
Proof.
  intros Hin Hsc Hd. unfold contributions.
  induction rs as [|r' rs IH]; [destruct Hin|]. cbn [omap list_omap].
  destruct Hin as [->|Hin].
  - rewrite Hsc. cbn [mbind option_bind]. rewrite Hd. now left.
  - destruct (Result.scores r' ≫= _); [right|]; now apply IH.
Qed.

Section OneChunkFails.
Variable rubric : NewRubric.
Hypothesis rubric_ok : well_formed rubric.
Hypothesis distinct_ids : NoDup (all_criterion_ids (Rubric.categories rubric)).

(** The aggregate of chunk results one of which is conservative. *)
Lemma aggregate_marks (r0 : EvalResult) rs (n : string) :
  In r0 rs ->
  Result.scores r0 = Some (conservative_scores rubric 3 n) ->
  contains fallback_marker n = true ->
  exists r sc,
    _aggregate_chunk_results rubric rs = Ok r /\
    Result.scores r = Some sc /\
    forall category c,
      In category (Rubric.categories rubric) -> In c (criteria category) ->
      exists e m,
        sc !! criterion_id c = Some e /\ note e = Some m /\
        contains fallback_marker m = true.
Proof.
  intros Hin Hsc Hn. unfold _aggregate_chunk_results.
  destruct rs as [|r1 rs]; [destruct Hin|].
  set (results := r1 :: rs) in *.
  eexists _, _. split; [reflexivity|]. split; [reflexivity|].
  intros category c Hcat Hc.
  pose proof (conservative_scores_criterion rubric distinct_ids 3 n category c
                Hcat Hc) as Hentry.
  pose proof (contributions_In (criterion_id c) r0 results _ _ Hin Hsc Hentry)
    as Hd.
  rewrite dict_from_keys_lookup.
  rewrite decide_True
    by (apply all_criterion_ids_elem; intros Hnil; rewrite Hnil in Hd;
        destruct Hd).
  assert (Hagg : exists m,
            note (aggregate_criterion rubric results (criterion_id c)) = Some m /\
            contains fallback_marker m = true).
  { unfold aggregate_criterion.
    destruct (contributions (criterion_id c) results) as [|d ds] eqn:Hdata;
      [destruct Hd|].
    cbn [map]. eexists. split; [reflexivity|].
    apply (combined_note_marker_In n); [|exact Hn].
    change (In n (map (fun d => default ""%string (note d)) (d :: ds))).
    apply in_map_iff. exists (conservative c 3 n). split; [reflexivity|exact Hd]. }
  destruct Hagg as (m & Hm & Hmark).
  exists (aggregate_criterion rubric results (criterion_id c)), m. auto.
Qed.

End OneChunkFails.
End PartialFallbackFacts.



(* ================================================================= *)
(** * The normalizer on the answers as they come *)

Import Json Float JsonNormalizer JsonExamples.

(** ** Dicts in the order of their keys *)

Module JsonFacts.
Import Json.

Lemma get_odict_set_eq k (v : json) d : get k (odict_set k v d) = Some v.
Proof.
  induction d as [|[k' v'] d IH]; simpl; [now rewrite String.eqb_refl|].
  destruct (String.eqb k k') eqn:E; simpl; [now rewrite String.eqb_refl|].
  now rewrite E.
Qed.

Lemma get_odict_set_ne k k' (v : json) d :
  k <> k' -> get k (odict_set k' v d) = get k d.
Proof.
  intros Hne. induction d as [|[k0 v0] d IH]; simpl.
  - destruct (String.eqb_spec k k'); [contradiction|reflexivity].
  - destruct (String.eqb_spec k' k0) as [<-|Hk]; simpl.
    + destruct (String.eqb_spec k k'); [contradiction|reflexivity].
    + destruct (String.eqb k k0); [reflexivity|exact IH].
Qed.

(** Writing the value that is there changes nothing. *)
Lemma odict_set_same k (v : json) d : get k d = Some v -> odict_set k v d = d.
Proof.
  induction d as [|[k' v'] d IH]; simpl; [discriminate|].
  destruct (String.eqb_spec k k') as [<-|Hk].
  - now intros [= ->].
  - intros H. f_equal. exact (IH H).
Qed.

Lemma odict_set_twice k (v : json) d :
  odict_set k v (odict_set k v d) = odict_set k v d.
Proof. apply odict_set_same, get_odict_set_eq. Qed.

Lemma round_int_Z z : round_int (JNum (inject_Z z)) = Some z.
Proof.
  unfold round_int, py_round, inject_Z. cbn [Qnum Qden].
  now rewrite Z.div_1_r, Z.mod_1_r.
Qed.

Lemma odict_set_elem {A} k (v : A) d x :
  In x (odict_set k v d) -> x = (k, v) \/ In x d.
Proof.
  induction d as [|[k' v'] d IH]; simpl.
  - intros [<-|[]]. now left.
  - destruct (String.eqb k k').
    + intros [<-|H]; [now left|right; now right].
    + intros [<-|H]; [right; now left|].
      destruct (IH H) as [->|H']; [now left|right; now right].
Qed.

End JsonFacts.

(** ** The loop, the exceptions and the totals *)

Module JsonNormalizerFacts.
Import Rubric Result Json Float JsonNormalizer JsonFacts.

Section Normalize.
Variable rubric : Rubric.t.
Variable numeric_thresholds : option Thresholds.

Abbreviation normalize := (_normalize_new_format_result rubric numeric_thresholds).
Abbreviation crit_max_of cid := (default 0 (Normalizer.crit_max rubric !! cid)).

(** *** One entry *)

(** What a turn that ends makes of an entry. *)
Lemma clamp_data_inr cid data data' z :
  clamp_data rubric cid data = inr (data', z) ->
  exists d r d',
    data = JObj d /\ data' = JObj d' /\
    round_int (default (JNum 0) (get "score" d)) = Some r /\
    z = Z.max 0 (Z.min r (crit_max_of cid)) /\
    get "score" d' = Some (JNum (inject_Z z)) /\
    (forall k, k <> "score"%string -> k <> "confidence"%string ->
               get k d' = get k d) /\
    match get "confidence" d with
    | None => get "confidence" d' = None
    | Some conf =>
        exists c, round_int conf = Some c /\
                  get "confidence" d' = Some (JNum (inject_Z (Z.max 1 (Z.min c 10))))
    end.
Proof.
  unfold clamp_data. destruct data as [| | | | | | |d]; try discriminate.
  destruct (round_int _) as [r|] eqn:Hr; [|discriminate].
  set (z0 := Z.max 0 (Z.min r (crit_max_of cid))).
  rewrite get_odict_set_ne by discriminate.
  destruct (get "confidence" d) as [conf|] eqn:Hconf.
  - destruct (round_int conf) as [c|] eqn:Hc; [|discriminate].
    intros [= <- <-]. eexists d, r, _. split; [reflexivity|]. split; [reflexivity|].
    split; [exact Hr|]. split; [reflexivity|]. split; [|split].
    + rewrite get_odict_set_ne by discriminate. apply get_odict_set_eq.
    + intros k Hs Hc'. now rewrite !get_odict_set_ne by auto.
    + rewrite Hconf. exists c. split; [exact Hc|]. apply get_odict_set_eq.
  - intros [= <- <-]. eexists d, r, _. split; [reflexivity|]. split; [reflexivity|].
    split; [exact Hr|]. split; [reflexivity|]. split; [|split].
    + apply get_odict_set_eq.
    + intros k Hs Hc'. now rewrite get_odict_set_ne by auto.
    + rewrite Hconf. now rewrite get_odict_set_ne by discriminate.
Qed.

(** What a turn that raises leaves of an entry. *)
Lemma clamp_data_inl cid data data' :
  clamp_data rubric cid data = inl data' ->
  (data' = data /\ entry_ok data = false) \/
  exists d r conf,
    data = JObj d /\
    round_int (default (JNum 0) (get "score" d)) = Some r /\
    get "confidence" d = Some conf /\ round_int conf = None /\
    data' = JObj (odict_set "score"
                    (JNum (inject_Z (Z.max 0 (Z.min r (crit_max_of cid))))) d).
Proof.
  unfold clamp_data, entry_ok, is_number.
  destruct data as [| | | | | | |d]; try (intros [= <-]; now left).
  destruct (round_int _) as [r|] eqn:Hr; [|intros [= <-]; now left].
  rewrite get_odict_set_ne by discriminate.
  destruct (get "confidence" d) as [conf|] eqn:Hconf; [|discriminate].
  destruct (round_int conf) as [c|] eqn:Hc; [discriminate|].
  intros [= <-]. right. eauto 8.
Qed.

Lemma clamp_data_ok cid data :
  entry_ok data = true -> exists data' z, clamp_data rubric cid data = inr (data', z).
Proof.
  unfold clamp_data, entry_ok, is_number.
  destruct data as [| | | | | | |d]; try discriminate.
  destruct (round_int _) as [r|]; [|discriminate]. cbn [andb].
  rewrite get_odict_set_ne by discriminate.
  destruct (get "confidence" d) as [conf|]; [|eauto].
  destruct (round_int conf); [eauto|discriminate].
Qed.

Lemma clamp_again z m : Z.max 0 (Z.min (Z.max 0 (Z.min z m)) m) = Z.max 0 (Z.min z m).
Proof. lia. Qed.

Lemma clamp_conf_again c : Z.max 1 (Z.min (Z.max 1 (Z.min c 10)) 10) = Z.max 1 (Z.min c 10).
Proof. lia. Qed.

(** A second turn on an entry does what the first did. *)
Lemma clamp_data_again cid data :
  match clamp_data rubric cid data with
  | inr (data', z) => clamp_data rubric cid data' = inr (data', z)
  | inl data' => clamp_data rubric cid data' = inl data'
  end.
Proof.
  unfold clamp_data at 1.
  destruct data as [| | | | | | |d]; try reflexivity.
  destruct (round_int (default (JNum 0) (get "score" d))) as [r|] eqn:Hr.
  2:{ unfold clamp_data. now rewrite Hr. }
  set (z := Z.max 0 (Z.min r (crit_max_of cid))).
  set (d1 := odict_set "score" (JNum (inject_Z z)) d).
  assert (Hscore : get "score" d1 = Some (JNum (inject_Z z)))
    by apply get_odict_set_eq.
  assert (Hd1 : odict_set "score"
                  (JNum (inject_Z (Z.max 0 (Z.min z (crit_max_of cid))))) d1 = d1).
  { unfold z at 1. rewrite clamp_again. apply odict_set_same, Hscore. }
  destruct (get "confidence" d1) as [conf|] eqn:Hconf.
  - destruct (round_int conf) as [c|] eqn:Hc.
    + set (d2 := odict_set "confidence" (JNum (inject_Z (Z.max 1 (Z.min c 10)))) d1).
      unfold clamp_data.
      assert (Hs2 : get "score" d2 = Some (JNum (inject_Z z))).
      { unfold d2. now rewrite get_odict_set_ne by discriminate. }
      rewrite Hs2. change (default (JNum 0) (Some (JNum (inject_Z z)))) with (JNum (inject_Z z)). rewrite round_int_Z.
      assert (Hc2 : get "confidence" d2 =
                    Some (JNum (inject_Z (Z.max 1 (Z.min c 10)))))
        by apply get_odict_set_eq.
      assert (Hd2 : odict_set "score"
                      (JNum (inject_Z (Z.max 0 (Z.min z (crit_max_of cid))))) d2 = d2).
      { unfold z at 1. rewrite clamp_again. apply odict_set_same, Hs2. }
      rewrite Hd2, Hc2, round_int_Z, clamp_conf_again.
      rewrite (odict_set_same _ _ _ Hc2). unfold z at 1. now rewrite clamp_again.
    + unfold clamp_data. rewrite Hscore. change (default (JNum 0) (Some (JNum (inject_Z z)))) with (JNum (inject_Z z)).
      rewrite round_int_Z, Hd1, Hconf, Hc. reflexivity.
  - unfold clamp_data. rewrite Hscore. change (default (JNum 0) (Some (JNum (inject_Z z)))) with (JNum (inject_Z z)).
    rewrite round_int_Z, Hd1, Hconf. unfold z at 1. now rewrite clamp_again.
Qed.

(** *** The loop *)

Lemma clamp_loop_again entries :
  clamp_loop rubric (fst (clamp_loop rubric entries)) = clamp_loop rubric entries.
Proof.
  induction entries as [|[cid data] rest IH]; [reflexivity|].
  cbn [clamp_loop]. pose proof (clamp_data_again cid data) as Hagain.
  destruct (clamp_data rubric cid data) as [data'|[data' z]].
  - cbn [fst clamp_loop]. now rewrite Hagain.
  - destruct (clamp_loop rubric rest) as [rest' scores] eqn:Hrest.
    cbn [fst] in *. cbn [clamp_loop]. now rewrite Hagain, IH.
Qed.

Lemma clamp_loop_length entries :
  length (fst (clamp_loop rubric entries)) = length entries.
Proof.
  induction entries as [|[cid data] rest IH]; [reflexivity|].
  cbn [clamp_loop]. destruct (clamp_data rubric cid data) as [data'|[data' z]];
    [reflexivity|].
  destruct (clamp_loop rubric rest) as [rest' scores]. cbn [fst length] in *.
  now rewrite IH.
Qed.

(** The loop on entries that are all in order. *)
Lemma clamp_loop_ok entries :
  forallb (fun e => entry_ok (snd e)) entries = true ->
  exists entries' clamped,
    clamp_loop rubric entries = (entries', Some clamped) /\
    Forall2 (fun e '(cid, z) =>
               cid = fst e /\
               exists data', clamp_data rubric (fst e) (snd e) = inr (data', z))
      entries clamped /\
    Forall2 (fun e e' =>
               fst e' = fst e /\
               exists z, clamp_data rubric (fst e) (snd e) = inr (snd e', z))
      entries entries'.
Proof.
  induction entries as [|[cid data] rest IH]; intros Hok.
  - exists [], []. repeat split; constructor.
  - cbn [forallb snd] in Hok. apply andb_true_iff in Hok as [Hdata Hrest].
    destruct (IH Hrest) as (rest' & clamped & Hloop & Hz & He).
    destruct (clamp_data_ok cid data Hdata) as (data' & z & Hc).
    exists ((cid, data') :: rest'), ((cid, z) :: clamped).
    cbn [clamp_loop]. rewrite Hc, Hloop. cbn [option_map].
    split; [reflexivity|]. split; constructor; cbn [fst snd]; eauto.
Qed.

(** The entries keep their ids, their order and what is not a score or
    a confidence, whether the loop ends or not. *)
Definition kept (e e' : string * json) : Prop :=
  fst e' = fst e /\
  match snd e with
  | JObj d =>
      exists d', snd e' = JObj d' /\
                 forall k, k <> "score"%string -> k <> "confidence"%string ->
                           get k d' = get k d
  | data => snd e' = data
  end.

Lemma kept_refl e : kept e e.
Proof. split; [reflexivity|]. destruct (snd e); eauto. Qed.

Lemma clamp_loop_kept entries :
  Forall2 kept entries (fst (clamp_loop rubric entries)).
Proof.
  induction entries as [|[cid data] rest IH]; [constructor|].
  cbn [clamp_loop].
  destruct (clamp_data rubric cid data) as [data'|[data' z]] eqn:Hc.
  - cbn [fst]. constructor.
    + split; [reflexivity|]. cbn [snd].
      apply clamp_data_inl in Hc as [[-> _]|(d & r & conf & -> & _ & _ & _ & ->)].
      * destruct data; eauto.
      * eexists. split; [reflexivity|]. intros k Hs _.
        now rewrite get_odict_set_ne.
    + clear. induction rest as [|e rest IH]; constructor; [apply kept_refl|exact IH].
  - destruct (clamp_loop rubric rest) as [rest' scores]. cbn [fst] in *.
    constructor; [|exact IH]. split; [reflexivity|]. cbn [snd].
    apply clamp_data_inr in Hc as (d & r & d' & -> & -> & _ & _ & _ & Hk & _).
    eauto.
Qed.

(** *** The answer *)

Lemma scores_of_obj fields entries :
  get "scores" fields = Some (JObj entries) -> scores_of fields = JObj entries.
Proof. unfold scores_of. intros ->. destruct entries; reflexivity. Qed.

Lemma overall_update_again clamped percentage overall :
  overall_update rubric numeric_thresholds clamped percentage
    (overall_update rubric numeric_thresholds clamped percentage overall) =
  overall_update rubric numeric_thresholds clamped percentage overall.
Proof.
  unfold overall_update at 1. cbv zeta.
  set (o := overall_update rubric numeric_thresholds clamped percentage overall).
  assert (Hps : match numeric_thresholds with
                | Some thresholds =>
                    JStr (status_of thresholds
                            (inject_Z (total_of (category_points rubric clamped))))
                | None => default (JStr "fail") (get "pass_status" o)
                end =
                match numeric_thresholds with
                | Some thresholds =>
                    JStr (status_of thresholds
                            (inject_Z (total_of (category_points rubric clamped))))
                | None => default (JStr "fail") (get "pass_status" overall)
                end).
  { destruct numeric_thresholds; [reflexivity|].
    unfold o, overall_update. cbv zeta. now rewrite get_odict_set_eq. }
  rewrite Hps.
  assert (Htotal : get "total_points" o =
                   Some (JNum (inject_Z (total_of (category_points rubric clamped))))).
  { unfold o, overall_update. cbv zeta.
    rewrite !get_odict_set_ne by discriminate. apply get_odict_set_eq. }
  rewrite (odict_set_same _ _ _ Htotal).
  assert (Hmax : get "max_points" o =
                 Some (JNum (inject_Z (max_of_blocks (category_points rubric clamped))))).
  { unfold o, overall_update. cbv zeta.
    rewrite !get_odict_set_ne by discriminate. apply get_odict_set_eq. }
  rewrite (odict_set_same _ _ _ Hmax).
  assert (Hpct : get "percentage" o = Some percentage).
  { unfold o, overall_update. cbv zeta.
    rewrite !get_odict_set_ne by discriminate. apply get_odict_set_eq. }
  rewrite (odict_set_same _ _ _ Hpct).
  unfold o, overall_update. cbv zeta. apply odict_set_twice.
Qed.

(** The answer that the body leaves when it runs to its end. *)
Definition finished (fields entries' : list (string * json))
    (clamped : list (string * Z)) (percentage : json)
    (overall : list (string * json)) : list (string * json) :=
  odict_set "overall"
    (JObj (overall_update rubric numeric_thresholds clamped percentage overall))
    (odict_set "categories"
       (JObj (map (fun '(cat_id, (points, m)) => (cat_id, category_block points m))
                (category_points rubric clamped)))
       (odict_set "scores" (JObj entries') fields)).

(** The answer that an exception leaves. *)
Definition stopped (fields entries entries' : list (string * json))
    : list (string * json) :=
  match entries with
  | [] => fields
  | _ :: _ => odict_set "scores" (JObj entries') fields
  end.

(** The two ways in which the normalizer ends on a dict whose
    ["scores"] can be read. *)
Lemma normalize_cases fields entries :
  scores_of fields = JObj entries ->
  let entries' := fst (clamp_loop rubric entries) in
  normalize (JObj fields) = JObj (stopped fields entries entries') \/
  exists clamped percentage overall,
    clamp_loop rubric entries = (entries', Some clamped) /\
    overall_percentage (total_of (category_points rubric clamped))
      (max_of_blocks (category_points rubric clamped)) = Some percentage /\
    (get "overall" fields = None /\ overall = [] \/
     get "overall" fields = Some (JObj overall)) /\
    normalize (JObj fields) =
      JObj (finished fields entries' clamped percentage overall).
Proof.
  intros Hscores entries'. unfold _normalize_new_format_result. rewrite Hscores.
  subst entries'. destruct (clamp_loop rubric entries) as [entries' clamped].
  cbn [fst]. fold (stopped fields entries entries').
  destruct clamped as [clamped|]; [|now left].
  destruct (overall_percentage _ _) as [percentage|] eqn:Hp; [|now left].
  destruct (get "overall" fields) as [overall|] eqn:Ho.
  - destruct overall; try (now left).
    right. eexists _, _, _. split; [reflexivity|]. split; [exact Hp|].
    split; [right; reflexivity|reflexivity].
  - right. eexists _, _, _. split; [reflexivity|]. split; [exact Hp|].
    split; [left; split; reflexivity|reflexivity].
Qed.

Lemma get_finished fields entries' clamped percentage overall :
  get "scores" (finished fields entries' clamped percentage overall)
    = Some (JObj entries') /\
  get "categories" (finished fields entries' clamped percentage overall)
    = Some (JObj (map (fun '(cat_id, (points, m)) =>
                         (cat_id, category_block points m))
                    (category_points rubric clamped))) /\
  get "overall" (finished fields entries' clamped percentage overall)
    = Some (JObj (overall_update rubric numeric_thresholds clamped percentage
                    overall)).
Proof.
  unfold finished. split; [|split].
  - rewrite !get_odict_set_ne by discriminate. apply get_odict_set_eq.
  - rewrite get_odict_set_ne by discriminate. apply get_odict_set_eq.
  - apply get_odict_set_eq.
Qed.

Lemma get_finished_other fields entries' clamped percentage overall k :
  k <> "scores"%string -> k <> "categories"%string -> k <> "overall"%string ->
  get k (finished fields entries' clamped percentage overall) = get k fields.
Proof. intros. unfold finished. now rewrite !get_odict_set_ne. Qed.

Lemma get_stopped fields entries entries' :
  get "scores" fields = Some (JObj entries) ->
  length entries' = length entries ->
  get "scores" (stopped fields entries entries') = Some (JObj entries').
Proof.
  intros Hs Hlen. unfold stopped. destruct entries.
  - destruct entries'; [exact Hs|discriminate].
  - apply get_odict_set_eq.
Qed.

Lemma get_stopped_other fields entries entries' k :
  k <> "scores"%string -> get k (stopped fields entries entries') = get k fields.
Proof.
  intros. unfold stopped. destruct entries; [reflexivity|].
  now rewrite get_odict_set_ne.
Qed.

(** Whatever the answer, its ["scores"] are what the loop left, and the
    keys that the body does not write are as they were. *)
Lemma normalize_scores fields entries :
  get "scores" fields = Some (JObj entries) ->
  exists fields',
    normalize (JObj fields) = JObj fields' /\
    get "scores" fields' = Some (JObj (fst (clamp_loop rubric entries))) /\
    forall k, k <> "scores"%string -> k <> "categories"%string ->
              k <> "overall"%string -> get k fields' = get k fields.
Proof.
  intros Hs.
  destruct (normalize_cases fields entries (scores_of_obj _ _ Hs))
    as [->|(clamped & percentage & overall & _ & _ & _ & ->)].
  - eexists. split; [reflexivity|]. split.
    + apply get_stopped; [exact Hs|apply clamp_loop_length].
    + intros k Hk _ _. now apply get_stopped_other.
  - eexists. split; [reflexivity|]. split.
    + apply get_finished.
    + intros k. apply get_finished_other.
Qed.

(** X5's lemma: a second normalization changes nothing, whatever the
    answer and wherever the first one stopped. *)
Lemma normalize_again result : normalize (normalize result) = normalize result.
Proof.
  destruct result as [| | | | | | |fields]; try reflexivity.
  unfold _normalize_new_format_result at 2 3.
  destruct (scores_of fields) as [| | | | | | |entries] eqn:Hscores;
    try (unfold _normalize_new_format_result; now rewrite Hscores).
  pose proof (clamp_loop_again entries) as Hagain.
  pose proof (clamp_loop_length entries) as Hlen.
  destruct (clamp_loop rubric entries) as [entries' clamped] eqn:Hloop.
  cbn [fst] in Hagain, Hlen.
  fold (stopped fields entries entries').
  (* the answer that an exception leaves is left as it is again *)
  assert (Hwritten :
            (forall c, clamped = Some c ->
               overall_percentage (total_of (category_points rubric c))
                 (max_of_blocks (category_points rubric c)) = None \/
               exists bad, get "overall" fields = Some bad /\
                           forall o, bad <> JObj o) ->
            normalize (JObj (stopped fields entries entries')) =
            JObj (stopped fields entries entries')).
  { intros Hstop. unfold stopped. destruct entries as [|e entries].
    - (* nothing was written: the same answer *)
      unfold _normalize_new_format_result. rewrite Hscores, Hloop.
      destruct clamped as [c|]; [|reflexivity].
      destruct (Hstop c eq_refl) as [->|(bad & Hbad & Hno)]; [reflexivity|].
      destruct (overall_percentage _ _); [|reflexivity]. rewrite Hbad.
      destruct bad; try reflexivity. now destruct (Hno fields0).
    - unfold _normalize_new_format_result, scores_of.
      rewrite get_odict_set_eq.
      destruct entries' as [|e' entries']; [discriminate Hlen|].
      cbn [truthy]. rewrite Hagain, odict_set_twice.
      destruct clamped as [c|]; [|reflexivity].
      destruct (Hstop c eq_refl) as [->|(bad & Hbad & Hno)]; [reflexivity|].
      destruct (overall_percentage _ _); [|reflexivity].
      rewrite get_odict_set_ne by discriminate. rewrite Hbad.
      destruct bad; try reflexivity. now destruct (Hno fields0). }
  destruct clamped as [clamped|]; [|apply Hwritten; discriminate].
  destruct (overall_percentage _ _) as [percentage|] eqn:Hp;
    [|apply Hwritten; intros c [= <-]; now left].
  (* the answer that the body finished is finished the same way *)
  assert (Hfinish : forall overall,
            normalize (JObj (finished fields entries' clamped percentage overall)) =
            JObj (finished fields entries' clamped percentage overall)).
  { intros overall.
    destruct (get_finished fields entries' clamped percentage overall)
      as (Hs & Hc & Ho).
    set (fields' := finished fields entries' clamped percentage overall) in *.
    assert (Hloop' : clamp_loop rubric entries' = (entries', Some clamped)).
    { destruct entries' as [|e' entries']; [|exact Hagain].
      destruct entries; [|discriminate Hlen]. exact Hloop. }
    unfold _normalize_new_format_result.
    rewrite (scores_of_obj _ _ Hs), Hloop', Hp, Ho, overall_update_again.
    rewrite (odict_set_same _ _ _ Hs), (odict_set_same _ _ _ Hc),
      (odict_set_same _ _ _ Ho). reflexivity. }
  destruct (get "overall" fields) as [overall|] eqn:Hoverall; [|apply Hfinish].
  destruct overall;
    try (apply Hwritten; intros c _; right; eexists; split;
         [reflexivity|discriminate]).
  apply Hfinish.
Qed.

(** *** The maxima of the rubric *)

Lemma fold_insert_other {A V} (key : A -> string) (val : A -> V)
    (l : list A) (m0 : gmap string V) k :
  ~ In k (map key l) ->
  fold_left (fun m c => <[key c := val c]> m) l m0 !! k = m0 !! k.
Proof.
  revert m0. induction l as [|a l IH]; intros m0 Hk; [reflexivity|].
  cbn [fold_left]. rewrite IH by (intros H; apply Hk; now right).
  apply lookup_insert_ne. intros E. apply Hk. now left.
Qed.

Lemma fold_insert_NoDup {A V} (key : A -> string) (val : A -> V)
    (l : list A) (m0 : gmap string V) c :
  NoDup (map key l) -> In c l ->
  fold_left (fun m c => <[key c := val c]> m) l m0 !! key c = Some (val c).
Proof.
  revert m0. induction l as [|a l IH]; intros m0 Hnd Hc; [destruct Hc|].
  cbn [map] in Hnd. apply NoDup_cons in Hnd as [Ha Hnd]. cbn [fold_left].
  destruct Hc as [->|Hc]; [|now apply IH].
  rewrite fold_insert_other by (rewrite <- list_elem_of_In; exact Ha).
  apply lookup_insert_eq.
Qed.

Lemma nested_fold_flat {V} (f : Criterion -> V) (cats : list Category)
    (m0 : gmap string V) :
  fold_left (fun m category =>
               fold_left (fun m c => <[criterion_id c := f c]> m)
                 (criteria category) m) cats m0 =
  fold_left (fun m c => <[criterion_id c := f c]> m) (flat_map criteria cats) m0.
Proof.
  revert m0. induction cats as [|a cats IH]; intros m0; [reflexivity|].
  cbn [fold_left flat_map]. now rewrite fold_left_app, IH.
Qed.

Lemma all_criterion_ids_flat cats :
  Scoring.all_criterion_ids cats = map criterion_id (flat_map criteria cats).
Proof.
  unfold Scoring.all_criterion_ids.
  induction cats as [|a cats IH]; [reflexivity|].
  cbn [flat_map]. now rewrite map_app, IH.
Qed.

(** With distinct criterion ids, [crit_max] holds the [max_points] of
    every criterion of the rubric. *)
Lemma crit_max_criterion category c :
  NoDup (Scoring.all_criterion_ids (get_categories rubric)) ->
  In category (get_categories rubric) -> In c (criteria category) ->
  Normalizer.crit_max rubric !! criterion_id c = Some (criterion_max_points c).
Proof.
  intros Hnd Hcat Hc. unfold Normalizer.crit_max.
  rewrite (nested_fold_flat criterion_max_points).
  apply (fold_insert_NoDup criterion_id criterion_max_points).
  - now rewrite <- all_criterion_ids_flat.
  - apply in_flat_map. eauto.
Qed.

Lemma crit_max_unknown cid :
  declares (get_categories rubric) cid = false ->
  Normalizer.crit_max rubric !! cid = None.
Proof.
  intros Hun. destruct (Normalizer.crit_max rubric !! cid) eqn:E; [|reflexivity].
  apply NormalizerFacts.crit_max_declared in E as (category & c & ? & ? & <- & _).
  erewrite NormalizerFacts.declares_true in Hun by eauto. discriminate.
Qed.

Lemma crit_to_cat_unknown cid :
  declares (get_categories rubric) cid = false ->
  Normalizer.crit_to_cat rubric !! cid = None.
Proof.
  intros Hun. destruct (Normalizer.crit_to_cat rubric !! cid) eqn:E; [|reflexivity].
  apply NormalizerFacts.crit_to_cat_declared in E. congruence.
Qed.

(** *** The scores after the loop *)

(** What the loop makes of an entry when no turn raises. *)
Definition clamped_entry (e e' : string * json) : Prop :=
  fst e' = fst e /\
  exists d d' r,
    snd e = JObj d /\ snd e' = JObj d' /\
    round_int (default (JNum 0) (get "score" d)) = Some r /\
    get "score" d' =
      Some (JNum (inject_Z (Z.max 0 (Z.min r (crit_max_of (fst e)))))).

Lemma clamp_loop_clamped entries :
  forallb (fun e => entry_ok (snd e)) entries = true ->
  Forall2 clamped_entry entries (fst (clamp_loop rubric entries)).
Proof.
  intros Hok. destruct (clamp_loop_ok entries Hok) as (entries' & clamped & -> & _ & He).
  cbn [fst]. clear Hok.
  induction He as [|e e' l l' [Hid [z Hc]] _ IH]; [constructor|].
  constructor; [|exact IH]. split; [exact Hid|].
  apply clamp_data_inr in Hc as (d & r & d' & Hd & Hd' & Hr & -> & Hs & _).
  eauto 8.
Qed.

(** *** An entry that the categories do not count *)

Lemma clamp_loop_filter (p : string -> bool) entries entries' clamped :
  clamp_loop rubric entries = (entries', Some clamped) ->
  clamp_loop rubric (List.filter (fun e => p (fst e)) entries) =
    (List.filter (fun e => p (fst e)) entries',
     Some (List.filter (fun e => p (fst e)) clamped)).
Proof.
  revert entries' clamped.
  induction entries as [|[cid data] rest IH]; intros entries' clamped.
  - intros [= <- <-]. reflexivity.
  - cbn [clamp_loop].
    destruct (clamp_data rubric cid data) as [data'|[data' z]] eqn:Hc; [discriminate|].
    destruct (clamp_loop rubric rest) as [rest' [scores|]]; [|discriminate].
    intros [= <- <-]. cbn [List.filter fst].
    destruct (p cid); [|now apply IH].
    cbn [clamp_loop]. rewrite Hc, (IH rest' scores eq_refl). reflexivity.
Qed.

Lemma points_of_filter cid (clamped : list (string * Z)) cat_id :
  Normalizer.crit_to_cat rubric !! cid = None ->
  points_of rubric
    (List.filter (fun e => negb (String.eqb (fst e) cid)) clamped) cat_id =
  points_of rubric clamped cat_id.
Proof.
  intros Hnone. unfold points_of. generalize 0.
  induction clamped as [|[k z] rest IH]; intros acc; [reflexivity|].
  cbn [List.filter fst fold_left].
  destruct (String.eqb_spec k cid) as [->|Hne]; cbn [negb fold_left].
  - rewrite IH. rewrite Hnone.
    destruct (decide (None = Some cat_id)); [discriminate|reflexivity].
  - apply IH.
Qed.

Lemma category_points_filter cid (clamped : list (string * Z)) :
  Normalizer.crit_to_cat rubric !! cid = None ->
  category_points rubric
    (List.filter (fun e => negb (String.eqb (fst e) cid)) clamped) =
  category_points rubric clamped.
Proof.
  intros Hnone. unfold category_points. apply map_ext. intros [cat_id m].
  now rewrite points_of_filter.
Qed.

(** *** The categories and the totals *)

Lemma cat_max_In cat_id m :
  In (cat_id, m) (cat_max rubric) ->
  exists category, In category (get_categories rubric) /\
                   category_id category = cat_id /\
                   Rubric.max_points category = m.
Proof.
  unfold cat_max.
  assert (H : forall cats acc,
             In (cat_id, m)
               (fold_left (fun acc category =>
                             odict_set (category_id category)
                               (Rubric.max_points category) acc) cats acc) ->
             In (cat_id, m) acc \/
             exists category, In category cats /\
                              category_id category = cat_id /\
                              Rubric.max_points category = m).
  { induction cats as [|a cats IH]; intros acc Hin; [now left|].
    cbn [fold_left] in Hin. apply IH in Hin as [Hin|(category & ? & ? & ?)].
    - apply odict_set_elem in Hin as [[= -> ->]|Hin]; [|now left].
      right. exists a. split; [now left|auto].
    - right. exists category. split; [now right|auto]. }
  intros Hin. apply H in Hin as [[]|Hin]. exact Hin.
Qed.

Lemma odict_set_keys {A} k (v : A) d k' :
  In k' (map fst (odict_set k v d)) <-> k' = k \/ In k' (map fst d).
Proof.
  induction d as [|[k0 v0] d IH]; cbn [odict_set map fst In].
  - intuition.
  - destruct (String.eqb_spec k k0) as [<-|Hne]; cbn [map fst In].
    + intuition.
    + rewrite IH. intuition.
Qed.

Lemma cat_max_has category :
  In category (get_categories rubric) ->
  In (category_id category) (map fst (cat_max rubric)).
Proof.
  unfold cat_max.
  assert (H : forall cats acc,
             In category cats \/ In (category_id category) (map fst acc) ->
             In (category_id category)
               (map fst (fold_left (fun acc category =>
                                      odict_set (category_id category)
                                        (Rubric.max_points category) acc)
                           cats acc))).
  { induction cats as [|a cats IH]; intros acc [Hin|Hin]; try (now destruct Hin).
    - exact Hin.
    - cbn [fold_left]. apply IH. destruct Hin as [->|Hin]; [right|now left].
      apply odict_set_keys. now left.
    - cbn [fold_left]. apply IH. right. apply odict_set_keys. now right. }
  intros Hin. apply H. now left.
Qed.

(** The blocks: one per category id, with the [max_points] of a
    category of that id, and points between 0 and that maximum when it
    is not negative. *)
Lemma category_points_blocks clamped :
  Forall (fun '(cat_id, (points, m)) =>
            (exists category, In category (get_categories rubric) /\
                              category_id category = cat_id /\
                              Rubric.max_points category = m) /\
            0 <= points /\ (0 <= m -> points <= m))
    (category_points rubric clamped).
Proof.
  unfold category_points. apply List.Forall_forall. intros [cat_id [points m]] Hin.
  apply in_map_iff in Hin as ([cat_id' m'] & [= <- <- <-] & Hin).
  split; [now apply cat_max_In|]. lia.
Qed.

Lemma category_points_ids clamped :
  map fst (category_points rubric clamped) = map fst (cat_max rubric).
Proof.
  unfold category_points. rewrite map_map. apply map_ext. now intros [cat_id m].
Qed.

Lemma totals_shift (blocks : list (string * (Z * Z))) a b :
  fold_left (fun n '(_, (points, _)) => n + points) blocks a = a + total_of blocks /\
  fold_left (fun n '(_, (_, m)) => n + m) blocks b = b + max_of_blocks blocks.
Proof.
  unfold total_of, max_of_blocks. revert a b.
  induction blocks as [|[cat_id [points m]] blocks IH]; intros a b; cbn [fold_left].
  - lia.
  - destruct (IH (a + points) (b + m)) as [-> ->].
    destruct (IH (0 + points) (0 + m)) as [-> ->]. lia.
Qed.

Lemma totals_in_range (blocks : list (string * (Z * Z))) :
  Forall (fun '(_, (points, m)) => 0 <= points <= m) blocks ->
  0 <= total_of blocks <= max_of_blocks blocks.
Proof.
  induction 1 as [|[cat_id [points m]] blocks Hb _ IH].
  - unfold total_of, max_of_blocks. simpl. lia.
  - unfold total_of, max_of_blocks. cbn [fold_left].
    destruct (totals_shift blocks (0 + points) (0 + m)) as [-> ->]. lia.
Qed.

(** No overflow when the total is within the maximum. *)
Lemma overall_percentage_some total_points max_points :
  0 <= total_points <= max_points ->
  exists percentage, overall_percentage total_points max_points = Some percentage.
Proof.
  intros Hrange. unfold overall_percentage.
  destruct (0 <? max_points) eqn:Hpos; [|eauto]. apply Z.ltb_lt in Hpos.
  unfold true_divide.
  assert (Hno : overflows (inject_Z total_points / inject_Z max_points) = false).
  { unfold overflows. destruct (Qle_bool _ _) eqn:Hle; [|reflexivity].
    apply Qle_bool_iff in Hle. exfalso.
    assert (Hone : (Qabs (inject_Z total_points / inject_Z max_points) <= 1)%Q).
    { rewrite Qabs_pos.
      - apply Qle_shift_div_r; [change 0%Q with (inject_Z 0); now rewrite <- Zlt_Qlt|].
        rewrite Qmult_1_l. rewrite <- Zle_Qle. lia.
      - apply Qle_shift_div_l; [change 0%Q with (inject_Z 0); now rewrite <- Zlt_Qlt|].
        rewrite Qmult_0_l. change 0%Q with (inject_Z 0). rewrite <- Zle_Qle. lia. }
    assert (Hbig : (1 < Qpower 2 1024 - Qpower 2 970)%Q) by (vm_compute; reflexivity).
    apply (Qlt_irrefl 1). eapply Qlt_le_trans; [exact Hbig|].
    eapply Qle_trans; [exact Hle|exact Hone]. }
  rewrite Hno. eauto.
Qed.

(** The body runs to its end on an answer that raises nothing, when no
    category has a negative maximum. *)
Lemma normalize_finishes fields :
  Forall (fun category => 0 <= Rubric.max_points category) (get_categories rubric) ->
  normalizable (JObj fields) = true ->
  exists entries entries' clamped percentage overall,
    scores_of fields = JObj entries /\
    clamp_loop rubric entries = (entries', Some clamped) /\
    overall_percentage (total_of (category_points rubric clamped))
      (max_of_blocks (category_points rubric clamped)) = Some percentage /\
    (get "overall" fields = None /\ overall = [] \/
     get "overall" fields = Some (JObj overall)) /\
    normalize (JObj fields) =
      JObj (finished fields entries' clamped percentage overall).
Proof.
  intros Hmax Hok. unfold normalizable in Hok.
  apply andb_true_iff in Hok as [Hentries Hoverall].
  destruct (scores_of fields) as [| | | | | | |entries] eqn:Hscores; try discriminate.
  destruct (clamp_loop_ok entries Hentries) as (entries' & clamped & Hloop & _ & _).
  destruct (overall_percentage_some
              (total_of (category_points rubric clamped))
              (max_of_blocks (category_points rubric clamped)))
    as [percentage Hp].
  { apply totals_in_range.
    pose proof (category_points_blocks clamped) as Hb.
    rewrite List.Forall_forall in Hb, Hmax. apply List.Forall_forall.
    intros [cat_id [points m]] Hin.
    destruct (Hb _ Hin) as ((category & Hcat & _ & <-) & H0 & Hm).
    specialize (Hmax category Hcat). cbv beta in Hmax. lia. }
  unfold _normalize_new_format_result. rewrite Hscores, Hloop, Hp.
  destruct (get "overall" fields) as [overall|] eqn:Ho.
  - destruct overall as [| | | | | | |overall]; try discriminate.
    exists entries, entries', clamped, percentage, overall.
    split; [reflexivity|]. split; [exact Hloop|]. split; [exact Hp|].
    split; [right; reflexivity|reflexivity].
  - exists entries, entries', clamped, percentage, [].
    split; [reflexivity|]. split; [exact Hloop|]. split; [exact Hp|].
    split; [left; split; reflexivity|reflexivity].
Qed.

(** The answer in terms of what the loop gives. *)
Definition outcome (fields entries : list (string * json))
    (loop : list (string * json) * option (list (string * Z)))
    : list (string * json) :=
  match snd loop with
  | None => stopped fields entries (fst loop)
  | Some clamped =>
      match overall_percentage (total_of (category_points rubric clamped))
              (max_of_blocks (category_points rubric clamped)) with
      | None => stopped fields entries (fst loop)
      | Some percentage =>
          match get "overall" fields with
          | None => finished fields (fst loop) clamped percentage []
          | Some (JObj overall) => finished fields (fst loop) clamped percentage overall
          | Some _ => stopped fields entries (fst loop)
          end
      end
  end.

Lemma normalize_outcome fields entries :
  scores_of fields = JObj entries ->
  normalize (JObj fields) = JObj (outcome fields entries (clamp_loop rubric entries)).
Proof.
  intros Hscores. unfold _normalize_new_format_result, outcome. rewrite Hscores.
  destruct (clamp_loop rubric entries) as [entries' [clamped|]]; [|reflexivity].
  cbn [fst snd]. destruct (overall_percentage _ _); [|reflexivity].
  destruct (get "overall" fields) as [[]|]; reflexivity.
Qed.

(** What the loop makes of the confidences when no turn raises. *)
Lemma clamp_loop_confidence entries :
  forallb (fun e => entry_ok (snd e)) entries = true ->
  Forall2 (fun e e' =>
             exists d d',
               snd e = JObj d /\ snd e' = JObj d' /\
               match get "confidence" d with
               | None => get "confidence" d' = None
               | Some conf =>
                   exists c, round_int conf = Some c /\
                             get "confidence" d' =
                               Some (JNum (inject_Z (Z.max 1 (Z.min c 10))))
               end)
    entries (fst (clamp_loop rubric entries)).
Proof.
  intros Hok. destruct (clamp_loop_ok entries Hok) as (entries' & clamped & -> & _ & He).
  cbn [fst]. clear Hok.
  induction He as [|e e' l l' [Hid [z Hc]] _ IH]; [constructor|].
  constructor; [|exact IH].
  apply clamp_data_inr in Hc as (d & r & d' & Hd & Hd' & _ & _ & _ & _ & Hconf).
  eauto.
Qed.

End Normalize.
End JsonNormalizerFacts.

(** C3 does not hold of the code.  On the un-chunked call of the flat
    format the answer is returned as it is: two answers with the same
    scores, one with an ["overall"] that says 9 and ["pass"], the other
    1 and ["fail"], come back with these values.  And the normalizer of
    the hierarchical format gives up at the first exception: an answer
    in which a confidence is [null] keeps the ["overall"] of the scorer,
    here 1000 points and ["pass"] for a rubric of 10 points, and gets no
    ["categories"]. *)
Theorem C3_scorer_overall_is_returned :
  ((forall call,
       without_overall <$> flat_scorer 9 "pass" call =
       without_overall <$> flat_scorer 1 "fail" call) /\
   exists r1 r2 o1 o2,
     evaluate_transcript_with_rubric (Old flat_rubric) (flat_scorer 9 "pass")
       short_transcript = Ok r1 /\
     evaluate_transcript_with_rubric (Old flat_rubric) (flat_scorer 1 "fail")
       short_transcript = Ok r2 /\
     overall r1 = Some o1 /\ overall r2 = Some o2 /\
     pass_status o1 = Some "pass"%string /\ weighted_score o1 = Some 9%Q /\
     pass_status o2 = Some "fail"%string /\ weighted_score o2 = Some 1%Q) /\
  (let result :=
     JsonNormalizer._normalize_new_format_result (New rubric2)
       (Some (thresholds rubric2)) null_confidence_answer in
   at_path ["scores"; "clarity"; "confidence"]%string null_confidence_answer
     = Some JNull /\
   at_path ["overall"; "total_points"]%string result = Some (JNum 1000) /\
   at_path ["overall"; "pass_status"]%string result = Some (JStr "pass") /\
   at_path ["overall"; "max_points"]%string result = None /\
   field "categories" result = None /\
   map Rubric.max_points (Rubric.categories rubric2) = [10]).
Proof.
  split.
  - split; [intros call; reflexivity|].
    eexists _, _, _, _.
    split; [vm_compute; reflexivity|]. split; [vm_compute; reflexivity|].
    repeat split; reflexivity.
  - repeat split; vm_compute; reflexivity.
Qed.




(** C10, as amended.  On an answer whose ["scores"] is a dict of dicts
    with a number (or nothing) under ["score"] and under
    ["confidence"], an entry whose id no category of the rubric has
    stays in ["scores"], in its place, with the score 0, and the
    ["categories"] and the ["overall"] of the result are those of the
    answer without that entry.  (After an entry that raises, such as
    one with [null] for its confidence, the entry keeps the score of
    the scorer.) *)
Theorem C10_unknown_criterion (rubric : NewRubric)
    (numeric_thresholds : option Thresholds)
    (fields entries : list (string * json)) (cid : string) :
  get "scores" fields = Some (JObj entries) ->
  forallb (fun e => entry_ok (snd e)) entries = true ->
  declares (Rubric.categories rubric) cid = false ->
  let normalize :=
    JsonNormalizer._normalize_new_format_result (New rubric) numeric_thresholds in
  let without :=
    JObj (odict_set "scores"
            (JObj (List.filter (fun e => negb (String.eqb (fst e) cid)) entries))
            fields) in
  (exists fields' entries',
      normalize (JObj fields) = JObj fields' /\
      get "scores" fields' = Some (JObj entries') /\
      Forall2 (fun e e' =>
                 fst e' = fst e /\
                 (fst e = cid ->
                  exists d', snd e' = JObj d' /\ get "score" d' = Some (JNum 0)))
        entries entries') /\
  field "categories" (normalize (JObj fields)) = field "categories" (normalize without) /\
  field "overall" (normalize (JObj fields)) = field "overall" (normalize without).
Proof.
  intros Hs Hok Hun normalize without.
  pose proof (JsonNormalizerFacts.crit_max_unknown (New rubric) cid Hun) as Hmax.
  pose proof (JsonNormalizerFacts.crit_to_cat_unknown (New rubric) cid Hun) as Hcat.
  split.
  - destruct (JsonNormalizerFacts.normalize_scores (New rubric) numeric_thresholds
                fields entries Hs) as (fields' & Hn & Hs' & _).
    exists fields', (fst (clamp_loop (New rubric) entries)).
    split; [exact Hn|]. split; [exact Hs'|].
    pose proof (JsonNormalizerFacts.clamp_loop_clamped (New rubric) entries Hok) as Hc.
    eapply Forall2_impl; [exact Hc|].
    intros e e' [Hid (d & d' & r & _ & Hd' & _ & Hscore)].
    split; [exact Hid|]. intros Hcid. exists d'. split; [exact Hd'|].
    rewrite Hscore, Hcid, Hmax.
    change (default 0 None) with 0. do 2 f_equal.
    replace (Z.max 0 (Z.min r 0)) with 0 by lia. reflexivity.
  - set (keep := fun e : string * json => negb (String.eqb (fst e) cid)).
    set (kept := List.filter keep entries).
    assert (Hs2 : get "scores" (odict_set "scores" (JObj kept) fields)
                  = Some (JObj kept)) by apply JsonFacts.get_odict_set_eq.
    destruct (JsonNormalizerFacts.clamp_loop_ok (New rubric) entries Hok)
      as (entries' & clamped & Hloop & _ & _).
    pose proof (JsonNormalizerFacts.clamp_loop_filter (New rubric)
                  (fun k => negb (String.eqb k cid)) entries entries' clamped Hloop)
      as Hloop2.
    pose proof (JsonNormalizerFacts.category_points_filter (New rubric) cid clamped
                  Hcat) as Hpoints.
    unfold normalize, without. fold keep. fold kept.
    rewrite (JsonNormalizerFacts.normalize_outcome (New rubric) numeric_thresholds
               fields entries (JsonNormalizerFacts.scores_of_obj _ _ Hs)).
    rewrite (JsonNormalizerFacts.normalize_outcome (New rubric) numeric_thresholds
               _ kept (JsonNormalizerFacts.scores_of_obj _ _ Hs2)).
    rewrite Hloop. unfold kept, keep. rewrite Hloop2.
    unfold JsonNormalizerFacts.outcome. cbn [fst snd]. rewrite Hpoints.
    rewrite (JsonFacts.get_odict_set_ne "overall" "scores") by discriminate.
    cbn [field].
    destruct (overall_percentage _ _) as [percentage|].
    2:{ rewrite !JsonNormalizerFacts.get_stopped_other by discriminate.
        rewrite !JsonFacts.get_odict_set_ne by discriminate. auto. }
    destruct (get "overall" fields) as [overall|].
    2:{ destruct (JsonNormalizerFacts.get_finished (New rubric) numeric_thresholds
                    fields entries' clamped percentage []) as (_ & -> & ->).
        destruct (JsonNormalizerFacts.get_finished (New rubric) numeric_thresholds
                    (odict_set "scores"
                       (JObj (List.filter
                                (fun e => negb (String.eqb (fst e) cid)) entries))
                       fields)
                    (List.filter (fun e => negb (String.eqb (fst e) cid)) entries')
                    (List.filter (fun e => negb (String.eqb (fst e) cid)) clamped)
                    percentage []) as (_ & -> & ->).
        unfold overall_update. rewrite Hpoints. auto. }
    destruct overall as [| | | | | | |overall];
      try (rewrite !JsonNormalizerFacts.get_stopped_other by discriminate;
           rewrite !JsonFacts.get_odict_set_ne by discriminate; auto).
    destruct (JsonNormalizerFacts.get_finished (New rubric) numeric_thresholds
                fields entries' clamped percentage overall) as (_ & -> & ->).
    destruct (JsonNormalizerFacts.get_finished (New rubric) numeric_thresholds
                (odict_set "scores"
                   (JObj (List.filter
                            (fun e => negb (String.eqb (fst e) cid)) entries))
                   fields)
                (List.filter (fun e => negb (String.eqb (fst e) cid)) entries')
                (List.filter (fun e => negb (String.eqb (fst e) cid)) clamped)
                percentage overall) as (_ & -> & ->).
    unfold overall_update. rewrite Hpoints. auto.
Qed.

Lemma C10_unknown_criterion_witness :
  let normalize :=
    JsonNormalizer._normalize_new_format_result (New rubric2)
      (Some (thresholds rubric2)) in
  let without :=
    JObj (odict_set "scores"
            (JObj (List.filter (fun e => negb (String.eqb (fst e) "charisma"))
                     scores_with_unknown_id))
            fields_with_unknown_id) in
  (exists fields' entries',
      normalize (JObj fields_with_unknown_id) = JObj fields' /\
      get "scores" fields' = Some (JObj entries') /\
      Forall2 (fun e e' =>
                 fst e' = fst e /\
                 (fst e = "charisma"%string ->
                  exists d', snd e' = JObj d' /\ get "score" d' = Some (JNum 0)))
        scores_with_unknown_id entries') /\
  field "categories" (normalize (JObj fields_with_unknown_id))
    = field "categories" (normalize without) /\
  field "overall" (normalize (JObj fields_with_unknown_id))
    = field "overall" (normalize without).
Proof.
  apply (C10_unknown_criterion rubric2 (Some (thresholds rubric2))
           fields_with_unknown_id scores_with_unknown_id "charisma"); reflexivity.
Defined.

(** C10 fails as stated: in an answer whose first entry has [null] for
    its confidence, the entry ["charisma"], which the rubric does not
    have, keeps its score 9. *)
Lemma C10_unknown_after_null_counterexample :
  declares (Rubric.categories rubric2) "charisma" = false /\
  at_path ["scores"; "charisma"; "score"]%string
    (JsonNormalizer._normalize_new_format_result (New rubric2)
       (Some (thresholds rubric2)) unknown_id_after_null) = Some (JNum 9) /\
  at_path ["scores"; "clarity"; "confidence"]%string unknown_id_after_null
    = Some JNull.
Proof. repeat split; vm_compute; reflexivity. Qed.

(** X5.  The normalizer is idempotent on every answer, whatever its
    shape and wherever the first run stopped: a second run returns the
    result of the first unchanged. *)
Theorem X5_normalize_idempotent (rubric : Rubric.t)
    (numeric_thresholds : option Thresholds) (result : json) :
  let normalize :=
    JsonNormalizer._normalize_new_format_result rubric numeric_thresholds in
  normalize (normalize result) = normalize result.
Proof. apply JsonNormalizerFacts.normalize_again. Qed.

(** X6.  Whatever the entries of ["scores"] are, the normalizer neither
    adds nor removes nor reorders them; an entry that is a dict keeps
    every key other than ["score"] and ["confidence"] (its note, for
    one), an entry that is not is left as it is; and the keys of the
    answer other than ["scores"], ["categories"] and ["overall"] are
    kept.  When every entry has a number (or nothing) for its score and
    for its confidence, a confidence that is there becomes
    [max(1, min(int(round(confidence)), 10))] and none is added where
    there was none. *)
Theorem X6_normalize_keeps_entries (rubric : Rubric.t)
    (numeric_thresholds : option Thresholds)
    (fields entries : list (string * json)) :
  get "scores" fields = Some (JObj entries) ->
  exists fields' entries',
    JsonNormalizer._normalize_new_format_result rubric numeric_thresholds
      (JObj fields) = JObj fields' /\
    get "scores" fields' = Some (JObj entries') /\
    (forall k, k <> "scores"%string -> k <> "categories"%string ->
               k <> "overall"%string -> get k fields' = get k fields) /\
    Forall2 (fun e e' =>
               fst e' = fst e /\
               match snd e with
               | JObj d =>
                   exists d', snd e' = JObj d' /\
                              forall k, k <> "score"%string ->
                                        k <> "confidence"%string ->
                                        get k d' = get k d
               | data => snd e' = data
               end)
      entries entries' /\
    (forallb (fun e => entry_ok (snd e)) entries = true ->
     Forall2 (fun e e' =>
                exists d d',
                  snd e = JObj d /\ snd e' = JObj d' /\
                  match get "confidence" d with
                  | None => get "confidence" d' = None
                  | Some conf =>
                      exists c, round_int conf = Some c /\
                                get "confidence" d' =
                                  Some (JNum (inject_Z (Z.max 1 (Z.min c 10))))
                  end)
       entries entries').
Proof.
  intros Hs.
  destruct (JsonNormalizerFacts.normalize_scores rubric numeric_thresholds
              fields entries Hs) as (fields' & Hn & Hs' & Hother).
  exists fields', (fst (clamp_loop rubric entries)).
  split; [exact Hn|]. split; [exact Hs'|]. split; [exact Hother|]. split.
  - exact (JsonNormalizerFacts.clamp_loop_kept rubric entries).
  - exact (JsonNormalizerFacts.clamp_loop_confidence rubric entries).
Qed.

Lemma X6_normalize_keeps_entries_witness :
  exists fields' entries',
    JsonNormalizer._normalize_new_format_result (New rubric2)
      (Some (thresholds rubric2)) null_confidence_answer = JObj fields' /\
    get "scores" fields' = Some (JObj entries') /\
    map fst entries' = ["clarity"; "depth"]%string /\
    at_path ["scores"; "depth"; "note"]%string (JObj fields') = Some (JStr "great").
Proof.
  destruct (X6_normalize_keeps_entries (New rubric2) (Some (thresholds rubric2))
              [("scores"%string,
                JObj [("clarity"%string, jentry (JNum 3) JNull "fine");
                      ("depth"%string, jentry (JNum 999) (JNum 12) "great")]);
               ("overall"%string,
                JObj [("total_points"%string, JNum 1000);
                      ("pass_status"%string, JStr "pass")])]
              [("clarity"%string, jentry (JNum 3) JNull "fine");
               ("depth"%string, jentry (JNum 999) (JNum 12) "great")] eq_refl)
    as (fields' & entries' & Hn & Hs' & _).
  exists fields', entries'. split; [exact Hn|]. split; [exact Hs'|].
  unfold null_confidence_answer in Hn. vm_compute in Hn.
  injection Hn as <-. vm_compute in Hs'. injection Hs' as <-.
  split; vm_compute; reflexivity.
Defined.

(** X7.  A flat rubric has no ["categories"], so the normalizer, which
    the chunked flat evaluation runs on the answer to every chunk, has
    no maximum for any id: on an answer whose entries have a number (or
    nothing) for score and confidence it sets every score to 0, and,
    when ["overall"] is a dict or is missing, it writes an empty
    ["categories"] and the totals 0 of 0 with the percentage 0 and the
    status that the thresholds give to 0. *)
Theorem X7_flat_rubric_scores_become_zero (rubric : OldRubric)
    (numeric_thresholds : option Thresholds)
    (fields entries : list (string * json)) :
  get "scores" fields = Some (JObj entries) ->
  forallb (fun e => entry_ok (snd e)) entries = true ->
  exists fields' entries',
    JsonNormalizer._normalize_new_format_result (Old rubric) numeric_thresholds
      (JObj fields) = JObj fields' /\
    get "scores" fields' = Some (JObj entries') /\
    Forall2 (fun e e' =>
               fst e' = fst e /\
               exists d', snd e' = JObj d' /\ get "score" d' = Some (JNum 0))
      entries entries' /\
    (normalizable (JObj fields) = true ->
     get "categories" fields' = Some (JObj []) /\
     exists overall',
       get "overall" fields' = Some (JObj overall') /\
       get "total_points" overall' = Some (JNum 0) /\
       get "max_points" overall' = Some (JNum 0) /\
       get "percentage" overall' = Some (JNum 0) /\
       forall thresholds, numeric_thresholds = Some thresholds ->
                          get "pass_status" overall'
                            = Some (JStr (status_of thresholds 0))).
Proof.
  intros Hs Hok.
  destruct (JsonNormalizerFacts.normalize_scores (Old rubric) numeric_thresholds
              fields entries Hs) as (fields' & Hn & Hs' & _).
  exists fields', (fst (clamp_loop (Old rubric) entries)).
  split; [exact Hn|]. split; [exact Hs'|]. split.
  - pose proof (JsonNormalizerFacts.clamp_loop_clamped (Old rubric) entries Hok) as Hc.
    eapply Forall2_impl; [exact Hc|].
    intros e e' [Hid (d & d' & r & _ & Hd' & _ & Hscore)].
    split; [exact Hid|]. exists d'. split; [exact Hd'|].
    rewrite Hscore. unfold Normalizer.crit_max. cbn [get_categories fold_left].
    rewrite lookup_empty. change (default 0 None) with 0. do 2 f_equal.
    replace (Z.max 0 (Z.min r 0)) with 0 by lia. reflexivity.
  - intros Hnorm.
    destruct (JsonNormalizerFacts.normalize_finishes (Old rubric) numeric_thresholds
                fields (List.Forall_nil _) Hnorm)
      as (entries0 & entries' & clamped & percentage & overall & _ & _ & Hp & _ & Hfin).
    rewrite Hfin in Hn. injection Hn as <-.
    destruct (JsonNormalizerFacts.get_finished (Old rubric) numeric_thresholds
                fields entries' clamped percentage overall) as (_ & Hc & Ho).
    split; [exact Hc|]. eexists. split; [exact Ho|].
    injection Hp as <-.
    unfold overall_update, category_points, cat_max.
    cbn [get_categories fold_left map total_of max_of_blocks].
    split; [|split; [|split]].
    + rewrite !JsonFacts.get_odict_set_ne by discriminate.
      apply JsonFacts.get_odict_set_eq.
    + rewrite !JsonFacts.get_odict_set_ne by discriminate.
      apply JsonFacts.get_odict_set_eq.
    + rewrite !JsonFacts.get_odict_set_ne by discriminate.
      apply JsonFacts.get_odict_set_eq.
    + intros thresholds ->. apply JsonFacts.get_odict_set_eq.
Qed.

Lemma X7_flat_rubric_scores_become_zero_witness :
  at_path ["scores"; "completeness"; "score"]%string
    (JsonNormalizer._normalize_new_format_result (Old flat_rubric)
       (Some (old_thresholds flat_rubric)) (JObj flat_chunk_fields)) = Some (JNum 0) /\
  exists fields' entries',
    JsonNormalizer._normalize_new_format_result (Old flat_rubric)
      (Some (old_thresholds flat_rubric)) (JObj flat_chunk_fields) = JObj fields' /\
    get "scores" fields' = Some (JObj entries') /\
    Forall2 (fun e e' =>
               fst e' = fst e /\
               exists d', snd e' = JObj d' /\ get "score" d' = Some (JNum 0))
      flat_chunk_scores entries' /\
    (normalizable (JObj flat_chunk_fields) = true ->
     get "categories" fields' = Some (JObj []) /\
     exists overall',
       get "overall" fields' = Some (JObj overall') /\
       get "total_points" overall' = Some (JNum 0) /\
       get "max_points" overall' = Some (JNum 0) /\
       get "percentage" overall' = Some (JNum 0) /\
       forall thresholds,
         Some (old_thresholds flat_rubric) = Some thresholds ->
         get "pass_status" overall' = Some (JStr (status_of thresholds 0))).
Proof.
  split; [vm_compute; reflexivity|].
  apply (X7_flat_rubric_scores_become_zero flat_rubric
           (Some (old_thresholds flat_rubric)) flat_chunk_fields flat_chunk_scores);
    reflexivity.
Defined.



(** X17.  Under the same conditions the ["overall"] of the result has
    [total_points] and [max_points] equal to the sums of the points and
    of the maxima of the category blocks, with
    [0 <= total_points <= max_points]; its [pass_status] is the status
    that the thresholds of the rubric give to that total when both
    thresholds are numbers, and otherwise the [pass_status] of the
    answer (["fail"] when it has none); the other keys of the answer's
    ["overall"] are kept. *)
Theorem X17_overall_totals_within_max (rubric : NewRubric)
    (numeric_thresholds : option Thresholds) (fields : list (string * json)) :
  Forall (fun category => 0 <= Rubric.max_points category) (Rubric.categories rubric) ->
  normalizable (JObj fields) = true ->
  let result :=
    JsonNormalizer._normalize_new_format_result (New rubric) numeric_thresholds
      (JObj fields) in
  exists blocks overall',
    field "categories" result =
      Some (JObj (map (fun '(cat_id, (points, m)) =>
                         (cat_id, category_block points m)) blocks)) /\
    field "overall" result = Some (JObj overall') /\
    get "total_points" overall' = Some (JNum (inject_Z (total_of blocks))) /\
    get "max_points" overall' = Some (JNum (inject_Z (max_of_blocks blocks))) /\
    0 <= total_of blocks <= max_of_blocks blocks /\
    get "pass_status" overall' =
      Some match numeric_thresholds with
           | Some thresholds => JStr (status_of thresholds (inject_Z (total_of blocks)))
           | None =>
               default (JStr "fail")
                 (match get "overall" fields with
                  | Some answered => field "pass_status" answered
                  | None => None
                  end)
           end /\
    forall k, k <> "total_points"%string -> k <> "max_points"%string ->
              k <> "percentage"%string -> k <> "pass_status"%string ->
              get k overall' =
                match get "overall" fields with
                | Some answered => field k answered
                | None => None
                end.
Proof.
  intros Hmax Hnorm result. subst result.
  destruct (JsonNormalizerFacts.normalize_finishes (New rubric) numeric_thresholds
              fields Hmax Hnorm)
    as (entries & entries' & clamped & percentage & overall & _ & _ & _ & Ho & ->).
  exists (category_points (New rubric) clamped),
    (overall_update (New rubric) numeric_thresholds clamped percentage overall).
  cbn [field].
  destruct (JsonNormalizerFacts.get_finished (New rubric) numeric_thresholds
              fields entries' clamped percentage overall) as (_ & -> & ->).
  split; [reflexivity|]. split; [reflexivity|].
  assert (Hanswered : forall k,
             get k overall = match get "overall" fields with
                             | Some answered => field k answered
                             | None => None
                             end).
  { intros k. destruct Ho as [[-> ->]| ->]; reflexivity. }
  unfold overall_update. cbv zeta. split; [|split; [|split; [|split]]].
  - rewrite !JsonFacts.get_odict_set_ne by discriminate.
    apply JsonFacts.get_odict_set_eq.
  - rewrite !JsonFacts.get_odict_set_ne by discriminate.
    apply JsonFacts.get_odict_set_eq.
  - apply JsonNormalizerFacts.totals_in_range.
    pose proof (JsonNormalizerFacts.category_points_blocks (New rubric) clamped) as Hb.
    rewrite List.Forall_forall in Hb, Hmax. apply List.Forall_forall.
    intros [cat_id [points m]] Hin.
    destruct (Hb _ Hin) as ((category & Hcat & _ & <-) & H0 & Hm).
    specialize (Hmax category Hcat). cbv beta in Hmax. lia.
  - rewrite JsonFacts.get_odict_set_eq. f_equal.
    destruct numeric_thresholds; [reflexivity|]. now rewrite Hanswered.
  - intros k H1 H2 H3 H4. rewrite !JsonFacts.get_odict_set_ne by assumption.
    apply Hanswered.
Qed.

Lemma X17_overall_totals_within_max_witness :
  let result :=
    JsonNormalizer._normalize_new_format_result (New rubric2)
      (Some (thresholds rubric2)) (JObj overshooting_fields) in
  at_path ["overall"; "total_points"]%string result = Some (JNum 7) /\
  at_path ["overall"; "pass_status"]%string result = Some (JStr "pass") /\
  exists blocks overall',
    field "categories" result =
      Some (JObj (map (fun '(cat_id, (points, m)) =>
                         (cat_id, category_block points m)) blocks)) /\
    field "overall" result = Some (JObj overall') /\
    get "total_points" overall' = Some (JNum (inject_Z (total_of blocks))) /\
    get "max_points" overall' = Some (JNum (inject_Z (max_of_blocks blocks))) /\
    0 <= total_of blocks <= max_of_blocks blocks /\
    get "pass_status" overall' =
      Some (JStr (status_of (thresholds rubric2) (inject_Z (total_of blocks)))) /\
    forall k, k <> "total_points"%string -> k <> "max_points"%string ->
              k <> "percentage"%string -> k <> "pass_status"%string ->
              get k overall' =
                match get "overall" overshooting_fields with
                | Some answered => field k answered
                | None => None
                end.
Proof.
  split; [vm_compute; reflexivity|]. split; [vm_compute; reflexivity|].
  apply (X17_overall_totals_within_max rubric2 (Some (thresholds rubric2))
           overshooting_fields).
  - repeat constructor. vm_compute. discriminate.
  - reflexivity.
Defined.
